(** * InventionTracker: the storage layer (server/storage.ts) over its schema

    The tables of shared/schema.ts are lists of rows (SQL bags, in table
    order); the database handle [db] is an explicit [Store] threaded through a
    small state-and-rejection monad, one computation per [async] method.
    Primary keys, serial sequences, foreign keys and the bounds of [integer]
    and [varchar(n)] columns are the ones the schema declares.  The
    repository holds several drafts of [getInventions]; the two that report
    [_count] are embedded side by side:
    - [JoinDraft]: the single grouped query with four left joins, whose
      conditions are kept as the SQL drizzle writes and read by PostgreSQL
      when the query is awaited;
    - [LoopDraft]: the inner join followed by one loop over the rows. *)

From Stdlib Require Import List String Ascii ZArith Bool Lia Arith Sorted
  Permutation.
Import ListNotations.
Local Open Scope string_scope.
Local Open Scope list_scope.

Set Implicit Arguments.

(** ** Rows (shared/schema.ts) *)

(** [timestamp(...).defaultNow()] columns are nullable: [option Z]. *)
Definition Timestamp := option Z.

Record User := mkUser {
  user_id : string;
  user_email : option string;
  user_firstName : option string;
  user_lastName : option string;
  user_profileImageUrl : option string;
  user_role : string;
  user_createdAt : Timestamp;
  user_updatedAt : Timestamp
}.

Record Invention := mkInvention {
  inv_id : Z;
  inv_title : string;
  inv_description : string;
  inv_tags : list string;
  inv_status : string;
  inv_fundingAmount : option Z;
  inv_authorId : string;
  inv_createdAt : Timestamp;
  inv_updatedAt : Timestamp
}.

Record File := mkFile {
  file_id : Z;
  file_filename : string;
  file_originalName : string;
  file_mimeType : string;
  file_size : Z;
  file_inventionId : Z;
  file_uploadedAt : Timestamp
}.

Record Comment := mkComment {
  comment_id : Z;
  comment_content : string;
  comment_inventionId : Z;
  comment_authorId : string;
  comment_createdAt : Timestamp
}.

Record Like := mkLike {
  like_id : Z;
  like_inventionId : Z;
  like_userId : string;
  like_isLike : bool;
  like_createdAt : Timestamp
}.

(** [InsertComment & { authorId }] and [InsertLike & { userId }]: the insert
    schemas omit [id] and [createdAt]. *)
Record NewComment := mkNewComment {
  nc_content : string;
  nc_inventionId : Z;
  nc_authorId : string
}.

Record NewLike := mkNewLike {
  nl_inventionId : Z;
  nl_isLike : bool;
  nl_userId : string
}.

(** ** The database *)

Record Store := mkStore {
  users : list User;
  inventions : list Invention;
  files : list File;
  comments : list Comment;
  likes : list Like;
  comments_id_seq : Z;
  likes_id_seq : Z;
  inventions_id_seq : Z;
  files_id_seq : Z
}.

Definition set_inventions (s : Store) (t : list Invention) : Store :=
  mkStore (users s) t (files s) (comments s) (likes s)
          (comments_id_seq s) (likes_id_seq s)
          (inventions_id_seq s) (files_id_seq s).

Definition set_comments (s : Store) (t : list Comment) : Store :=
  mkStore (users s) (inventions s) (files s) t (likes s)
          (comments_id_seq s) (likes_id_seq s)
          (inventions_id_seq s) (files_id_seq s).

Definition set_likes (s : Store) (t : list Like) : Store :=
  mkStore (users s) (inventions s) (files s) (comments s) t
          (comments_id_seq s) (likes_id_seq s)
          (inventions_id_seq s) (files_id_seq s).

Definition bump_comments_id_seq (s : Store) : Store :=
  mkStore (users s) (inventions s) (files s) (comments s) (likes s)
          (comments_id_seq s + 1) (likes_id_seq s)
          (inventions_id_seq s) (files_id_seq s).

Definition bump_likes_id_seq (s : Store) : Store :=
  mkStore (users s) (inventions s) (files s) (comments s) (likes s)
          (comments_id_seq s) (likes_id_seq s + 1)
          (inventions_id_seq s) (files_id_seq s).

Definition bump_inventions_id_seq (s : Store) : Store :=
  mkStore (users s) (inventions s) (files s) (comments s) (likes s)
          (comments_id_seq s) (likes_id_seq s)
          (inventions_id_seq s + 1) (files_id_seq s).

Definition bump_files_id_seq (s : Store) : Store :=
  mkStore (users s) (inventions s) (files s) (comments s) (likes s)
          (comments_id_seq s) (likes_id_seq s)
          (inventions_id_seq s) (files_id_seq s + 1).

(** What the driver rejects a statement with. *)
Inductive DbError :=
| ForeignKeyViolation (constraint : string)
| UniqueViolation (constraint : string)
| NumericValueOutOfRange (type : string)
| StringDataRightTruncation (type : string)
| InvalidTextRepresentation (message : string)
| UndefinedFunction (message : string)
| SyntaxError (message : string)
| SequenceGeneratorLimitExceeded (sequence : string).

(** A settled promise. *)
Inductive Settled (A : Type) :=
| Resolved (value : A)
| Rejected (reason : DbError).

Arguments Resolved {A} value.
Arguments Rejected {A} reason.

(** An [async] method: it runs against the store and leaves a store behind,
    also when it rejects (statements already executed stay executed). *)
Definition Db (A : Type) := Store -> Settled A * Store.

Definition ret {A} (a : A) : Db A := fun s => (Resolved a, s).

Definition bind {A B} (m : Db A) (k : A -> Db B) : Db B :=
  fun s => match m s with
           | (Resolved a, s') => k a s'
           | (Rejected e, s') => (Rejected e, s')
           end.

Notation "x <- m ;; k" := (bind m (fun x => k))
  (at level 61, m at next level, right associativity).
Notation "m ;;; k" := (bind m (fun _ => k))
  (at level 61, right associativity).

Definition has_invention (id : Z) (s : Store) : bool :=
  existsb (fun i => Z.eqb (inv_id i) id) (inventions s).

Definition has_user (id : string) (s : Store) : bool :=
  existsb (fun u => String.eqb (user_id u) id) (users s).

(** [db.select().from(likes).where(c)] *)
Definition select_likes (c : Like -> bool) : Db (list Like) :=
  fun s => (Resolved (filter c (likes s)), s).

(** [db.delete(likes).where(c)] *)
Definition delete_likes (c : Like -> bool) : Db unit :=
  fun s => (Resolved tt, set_likes s (filter (fun l => negb (c l)) (likes s))).

(** [db.update(likes).set({ isLike }).where(c)] *)
Definition set_isLike (isLike : bool) (l : Like) : Like :=
  mkLike (like_id l) (like_inventionId l) (like_userId l) isLike
         (like_createdAt l).

Definition update_likes_isLike (isLike : bool) (c : Like -> bool) : Db unit :=
  fun s =>
    (Resolved tt,
     set_likes s (map (fun l => if c l then set_isLike isLike l else l)
                      (likes s))).

(** [db.insert(likes).values(v)]: the id comes from the serial sequence (which
    advances even when the row is refused), [createdAt] from [defaultNow()];
    the row must pass the primary key and both references of the table. *)
Definition insert_like (v : NewLike) (now : Z) : Db Like :=
  fun s =>
    let id := likes_id_seq s in
    let s1 := bump_likes_id_seq s in
    let row := mkLike id (nl_inventionId v) (nl_userId v) (nl_isLike v)
                      (Some now) in
    if existsb (fun l => Z.eqb (like_id l) id) (likes s)
    then (Rejected (UniqueViolation "likes_pkey"), s1)
    else if negb (has_invention (nl_inventionId v) s)
    then (Rejected (ForeignKeyViolation "likes_invention_id_inventions_id_fk"), s1)
    else if negb (has_user (nl_userId v) s)
    then (Rejected (ForeignKeyViolation "likes_user_id_users_id_fk"), s1)
    else (Resolved row, set_likes s1 (likes s ++ [row])).

(** [const [row] = await db.insert(comments).values(v).returning()]: the one
    row the statement inserted. *)
Definition insert_comment (v : NewComment) (now : Z) : Db Comment :=
  fun s =>
    let id := comments_id_seq s in
    let s1 := bump_comments_id_seq s in
    let row := mkComment id (nc_content v) (nc_inventionId v) (nc_authorId v)
                         (Some now) in
    if existsb (fun c => Z.eqb (comment_id c) id) (comments s)
    then (Rejected (UniqueViolation "comments_pkey"), s1)
    else if negb (has_invention (nc_inventionId v) s)
    then (Rejected (ForeignKeyViolation "comments_invention_id_inventions_id_fk"), s1)
    else if negb (has_user (nc_authorId v) s)
    then (Rejected (ForeignKeyViolation "comments_author_id_users_id_fk"), s1)
    else (Resolved row, set_comments s1 (comments s ++ [row])).

(** [db.select().from(users).where(eq(users.id, id))] *)
Definition select_users_by_id (id : string) : Db (list User) :=
  fun s => (Resolved (filter (fun u => String.eqb (user_id u) id) (users s)), s).

(** ** Like operations *)

(** [DatabaseStorage.toggleLike] *)
Definition toggleLike (like : NewLike) (now : Z) : Db unit :=
  existingLike <-
    select_likes (fun l => Z.eqb (like_inventionId l) (nl_inventionId like)
                           && String.eqb (like_userId l) (nl_userId like)) ;;
  match existingLike with
  | existing :: _ =>
      if Bool.eqb (like_isLike existing) (nl_isLike like)
      then delete_likes (fun l => Z.eqb (like_id l) (like_id existing))
      else update_likes_isLike (nl_isLike like)
             (fun l => Z.eqb (like_id l) (like_id existing))
  | [] =>
      insert_like like now ;;; ret tt
  end.

(** [DatabaseStorage.getUserLike]: the first row of the pair, if any. *)
Definition getUserLike (inventionId : Z) (userId : string) : Db (option Like) :=
  rows <- select_likes (fun l => Z.eqb (like_inventionId l) inventionId
                                 && String.eqb (like_userId l) userId) ;;
  ret (hd_error rows).

(** ** Status transition *)

(** The object handed to [.set(...)]: [fundingAmount] is a key of it only
    when the caller passed one. *)
Record UpdateData := mkUpdateData {
  ud_status : string;
  ud_updatedAt : Z;
  ud_fundingAmount : option Z
}.

Definition apply_updateData (d : UpdateData) (i : Invention) : Invention :=
  mkInvention (inv_id i) (inv_title i) (inv_description i) (inv_tags i)
    (ud_status d)
    (match ud_fundingAmount d with
     | Some amount => Some amount
     | None => inv_fundingAmount i
     end)
    (inv_authorId i) (inv_createdAt i) (Some (ud_updatedAt d)).

(** A value sent for an [integer] column: PostgreSQL reads it as a signed
    32-bit number when the statement is bound, and refuses the statement,
    before any row is touched, when it is out of that range. *)
Definition integer (z : Z) : bool :=
  Z.leb (-2147483648) z && Z.leb z 2147483647.

Definition integer_or_null (o : option Z) : bool :=
  match o with
  | Some z => integer z
  | None => true
  end.

(** [db.update(inventions).set(d).where(eq(inventions.id, id)).returning()]:
    the funding amount of [d] and [id] are the statement's [integer]
    parameters. *)
Definition update_inventions (d : UpdateData) (id : Z) : Db (list Invention) :=
  fun s =>
    if negb (integer_or_null (ud_fundingAmount d) && integer id)
    then (Rejected (NumericValueOutOfRange "integer"), s)
    else
      let c := fun i => Z.eqb (inv_id i) id in
      (Resolved (map (apply_updateData d) (filter c (inventions s))),
       set_inventions s
         (map (fun i => if c i then apply_updateData d i else i)
              (inventions s))).

(** [DatabaseStorage.updateInventionStatus]; [None] for an omitted
    ([undefined]) [fundingAmount], [now] for [new Date()]. *)
Definition updateInventionStatus (id : Z) (status : string)
    (fundingAmount : option Z) (now : Z) : Db (option Invention) :=
  let updateData :=
    match fundingAmount with
    | Some amount => mkUpdateData status now (Some amount)
    | None => mkUpdateData status now None
    end in
  updated <- update_inventions updateData id ;;
  ret (hd_error updated).

(** ** Comment operations *)

Record CommentWithAuthor := mkCommentWithAuthor {
  cwa_comment : Comment;
  cwa_author : option User
}.

(** [DatabaseStorage.createComment] *)
Definition createComment (comment : NewComment) (now : Z)
  : Db CommentWithAuthor :=
  newComment <- insert_comment comment now ;;
  author <- select_users_by_id (nc_authorId comment) ;;
  ret (mkCommentWithAuthor newComment (hd_error author)).

(** [insertCommentSchema.parse({ ...req.body, inventionId })]: the schema
    derived from the table asks for a string [content] and an integer
    [inventionId] and nothing more.  [None] stands for a body without a string
    [content], respectively for a [parseInt] that gave [NaN]. *)
Definition insertCommentSchema_parse (content : option string)
    (inventionId : option Z) : option (string * Z) :=
  match content, inventionId with
  | Some c, Some i => Some (c, i)
  | _, _ => None
  end.

Inductive Response :=
| Created (status : Z) (body : CommentWithAuthor)
| Failure (status : Z) (message : string).

(** [app.post('/api/inventions/:id/comments', ...)] for an authenticated
    [userId]: one [try] whose only [catch] answers 500. *)
Definition post_comment (userId : string) (inventionId : option Z)
    (content : option string) (now : Z) (s : Store) : Response * Store :=
  match insertCommentSchema_parse content inventionId with
  | None => (Failure 500 "Failed to create comment", s)
  | Some (c, i) =>
      match createComment (mkNewComment c i userId) now s with
      | (Resolved comment, s') => (Created 201 comment, s')
      | (Rejected _, s') => (Failure 500 "Failed to create comment", s')
      end
  end.

(** ** Statistics *)

Record Stats := mkStats {
  total : nat;
  pending : nat;
  approved : nat;
  rejected : nat
}.

(** [COUNT(CASE WHEN status = v THEN 1 END)] over the inventions. *)
Definition count_status (v : string) (t : list Invention) : nat :=
  List.length (filter (fun i => String.eqb (inv_status i) v) t).

(** [DatabaseStorage.getStats]: one aggregate row over [inventions]. *)
Definition getStats (s : Store) : Stats :=
  mkStats (List.length (inventions s))
          (count_status "pending" (inventions s))
          (count_status "approved" (inventions s))
          (count_status "rejected" (inventions s)).

(** ** Listing: what both drafts share *)

Record Filters := mkFilters {
  status : option string;
  tags : option (list string)
}.

Record Counts := mkCounts {
  count_likes : nat;
  count_dislikes : nat;
  count_comments : nat;
  count_files : nat
}.

(** One element of the answer: the invention's columns, [author], [_count]. *)
Record Listed := mkListed {
  invention : Invention;
  author : option User;
  _count : Counts
}.

(** [filters?.status] used as a condition: a non-empty string. *)
Definition status_filter (filters : option Filters) : option string :=
  match filters with
  | Some f => match status f with
              | Some "" => None
              | Some v => Some v
              | None => None
              end
  | None => None
  end.

(** [filters?.tags && filters.tags.length > 0] *)
Definition tags_filter (filters : option Filters) : option (list string) :=
  match filters with
  | Some f => match tags f with
              | Some [] => None
              | Some t => Some t
              | None => None
              end
  | None => None
  end.

(** [ORDER BY created_at DESC]: PostgreSQL puts NULL first when descending. *)
Definition desc (a b : Timestamp) : bool :=
  match a, b with
  | None, _ => true
  | Some _, None => false
  | Some x, Some y => Z.leb y x
  end.

Fixpoint insert_by {A} (le : A -> A -> bool) (x : A) (l : list A) : list A :=
  match l with
  | [] => [x]
  | y :: t => if le x y then x :: y :: t else y :: insert_by le x t
  end.

Definition orderBy {A} (le : A -> A -> bool) (l : list A) : list A :=
  fold_right (insert_by le) [] l.

(** The distinct values of a list of ids, first occurrences kept. *)
Fixpoint distinct (l : list Z) : list Z :=
  match l with
  | [] => []
  | x :: t => x :: filter (fun y => negb (Z.eqb y x)) (distinct t)
  end.

(** ** [getInventions], first draft: one grouped query *)

Module JoinDraft.

(** A row of [inventions LEFT JOIN users LEFT JOIN likes LEFT JOIN comments
    LEFT JOIN files]: the joined tables are NULL where nothing matched. *)
Record Joined := mkJoined {
  j_inventions : Invention;
  j_users : option User;
  j_likes : option Like;
  j_comments : option Comment;
  j_files : option File
}.

(** The right-hand side of a left join for one left row. *)
Definition leftJoin {B} (on : B -> bool) (table : list B) : list (option B) :=
  match filter on table with
  | [] => [None]
  | matched => map Some matched
  end.

(** [.from(inventions).leftJoin(users, ...).leftJoin(likes, ...)
     .leftJoin(comments, ...).leftJoin(files, ...)] *)
Definition from_joins (s : Store) : list Joined :=
  flat_map (fun i =>
    flat_map (fun u =>
      flat_map (fun l =>
        flat_map (fun c =>
          map (fun f => mkJoined i u l c f)
              (leftJoin (fun f => Z.eqb (inv_id i) (file_inventionId f))
                        (files s)))
          (leftJoin (fun c => Z.eqb (inv_id i) (comment_inventionId c))
                    (comments s)))
        (leftJoin (fun l => Z.eqb (inv_id i) (like_inventionId l))
                  (likes s)))
      (leftJoin (fun u => String.eqb (inv_authorId i) (user_id u))
                (users s)))
    (inventions s).

(** The conditions [getInventions] hands to the builder, as the SQL that
    drizzle writes for them: [eq(inventions.status, v)], and the raw fragment
    [sql`${inventions.tags} && ${filters.tags}`], in which drizzle writes a JS
    array as a parenthesised list of one parameter per element,
    [tags && ($1, ..., $n)]. *)
Inductive SQL :=
| eq_status (v : string)
| tags_overlap (params : list string).

(** The select builder.  drizzle keeps one [where] slot in the builder's
    config: [.where(c)] assigns it, so a second call replaces the condition
    of the first. *)
Record PgSelect := mkPgSelect {
  config_where : option SQL;
  config_orderBy : option (Invention -> Invention -> bool)
}.

Definition where_ (q : PgSelect) (c : SQL) : PgSelect :=
  mkPgSelect (Some c) (config_orderBy q).

Definition orderBy_ (q : PgSelect) (o : Invention -> Invention -> bool)
  : PgSelect :=
  mkPgSelect (config_where q) (Some o).

(** A statement PostgreSQL has accepted: its WHERE is a condition on the
    joined rows. *)
Record Prepared := mkPrepared {
  prepared_where : option (Joined -> bool);
  prepared_orderBy : option (Invention -> Invention -> bool)
}.

(** [GROUP BY inventions.id, users.id] *)
Definition group_key (r : Joined) : Z * option string :=
  (inv_id (j_inventions r), option_map user_id (j_users r)).

Definition key_eqb (a b : Z * option string) : bool :=
  Z.eqb (fst a) (fst b) &&
  match snd a, snd b with
  | Some x, Some y => String.eqb x y
  | None, None => true
  | _, _ => false
  end.

Fixpoint group_keys (rows : list Joined) : list (Z * option string) :=
  match rows with
  | [] => []
  | r :: t =>
      group_key r
      :: filter (fun k => negb (key_eqb k (group_key r))) (group_keys t)
  end.

Definition in_group (k : Z * option string) (r : Joined) : bool :=
  key_eqb (group_key r) k.

Definition groupBy (rows : list Joined) : list (list Joined) :=
  map (fun k => filter (in_group k) rows) (group_keys rows).

(** [COUNT(CASE WHEN likes.is_like = v THEN 1 END)]: the comparison is NULL,
    hence not counted, on a row without like. *)
Definition count_isLike (v : bool) (group : list Joined) : nat :=
  List.length
    (filter (fun r => match j_likes r with
                      | Some l => Bool.eqb (like_isLike l) v
                      | None => false
                      end) group).

(** [COUNT(DISTINCT comments.id)] and [COUNT(DISTINCT files.id)] *)
Definition count_distinct_comments (group : list Joined) : nat :=
  List.length
    (distinct (flat_map (fun r => match j_comments r with
                                  | Some c => [comment_id c]
                                  | None => []
                                  end) group)).

Definition count_distinct_files (group : list Joined) : nat :=
  List.length
    (distinct (flat_map (fun r => match j_files r with
                                  | Some f => [file_id f]
                                  | None => []
                                  end) group)).

(** The select list, evaluated on one group. *)
Definition select_fields (group : list Joined) : list Listed :=
  match group with
  | [] => []
  | r :: _ =>
      [mkListed (j_inventions r) (j_users r)
         (mkCounts (count_isLike true group) (count_isLike false group)
                   (count_distinct_comments group)
                   (count_distinct_files group))]
  end.

(** Running an accepted statement: WHERE on the joined rows, one output row
    per group, ORDER BY on the output. *)
Definition run (q : Prepared) (s : Store) : list Listed :=
  let rows := from_joins s in
  let rows := match prepared_where q with
              | Some c => filter c rows
              | None => rows
              end in
  let output := flat_map select_fields (groupBy rows) in
  match prepared_orderBy q with
  | Some o => orderBy (fun a b => o (invention a) (invention b)) output
  | None => output
  end.

(** [a && b] on two arrays of text: they have an element in common. *)
Definition overlap (a b : list string) : bool :=
  existsb (fun x => existsb (String.eqb x) b) a.

Section PostgreSQL.

(** PostgreSQL's input function of [text[]], which is not code of this
    repository: the elements of the array a text denotes (without its NULL
    elements, which [&&] never matches), or [None] where PostgreSQL reports a
    malformed array literal. *)
Variable array_in : string -> option (list string).

(** What PostgreSQL makes of a condition.  [tags && ($1)] compares the tags
    with the one parameter read as an array; with two parameters or more the
    right-hand side is a row, and there is no operator [text[] && record];
    without any it is [()], which is no expression. *)
Definition condition (c : SQL) : Settled (Joined -> bool) :=
  match c with
  | eq_status v =>
      Resolved (fun r => String.eqb (inv_status (j_inventions r)) v)
  | tags_overlap [] => Rejected (SyntaxError "syntax error at or near )")
  | tags_overlap [t] =>
      match array_in t with
      | Some a => Resolved (fun r => overlap (inv_tags (j_inventions r)) a)
      | None => Rejected (InvalidTextRepresentation "malformed array literal")
      end
  | tags_overlap (_ :: _ :: _) =>
      Rejected (UndefinedFunction "operator does not exist: text[] && record")
  end.

(** [await query]: the statement is refused, or it runs. *)
Definition execute (q : PgSelect) (s : Store) : Settled (list Listed) :=
  match config_where q with
  | None => Resolved (run (mkPrepared None (config_orderBy q)) s)
  | Some c =>
      match condition c with
      | Resolved p => Resolved (run (mkPrepared (Some p) (config_orderBy q)) s)
      | Rejected e => Rejected e
      end
  end.

(** [DatabaseStorage.getInventions], storage.ts first draft. *)
Definition getInventions (filters : option Filters) (s : Store)
  : Settled (list Listed) :=
  let query := mkPgSelect None None in
  let query :=
    match status_filter filters with
    | Some v => where_ query (eq_status v)
    | None => query
    end in
  let query :=
    match tags_filter filters with
    | Some t => where_ query (tags_overlap t)
    | None => query
    end in
  execute
    (orderBy_ query (fun a b => desc (inv_createdAt a) (inv_createdAt b)))
    s.

End PostgreSQL.

End JoinDraft.

(** ** [getInventions], loop draft: inner join, then one pass over the rows *)

Module LoopDraft.

Record Row := mkRow {
  r_inventions : Invention;
  r_users : User
}.

(** [.from(inventions).innerJoin(users, eq(inventions.authorId, users.id))
     .orderBy(desc(inventions.createdAt))] *)
Definition innerJoin (s : Store) : list Row :=
  flat_map (fun i =>
    map (mkRow i)
        (filter (fun u => String.eqb (inv_authorId i) (user_id u)) (users s)))
    (inventions s).

Definition allInventions (s : Store) : list Row :=
  orderBy (fun a b => desc (inv_createdAt (r_inventions a))
                           (inv_createdAt (r_inventions b)))
          (innerJoin s).

(** [filters.tags.some(tag => inv.inventions.tags.includes(tag))] *)
Definition hasMatchingTag (filterTags invTags : list string) : bool :=
  existsb (fun tag => existsb (String.eqb tag) invTags) filterTags.

(** [select({ isLike }).from(likes).where(eq(likes.inventionId, id))] *)
Definition likesData (s : Store) (id : Z) : list bool :=
  map like_isLike (filter (fun l => Z.eqb (like_inventionId l) id) (likes s)).

(** [select({ count }).from(comments)] and [.from(files)] with
    [where(eq(inventionId, id))]: the number of rows. *)
Definition commentsCount (s : Store) (id : Z) : nat :=
  List.length (filter (fun c => Z.eqb (comment_inventionId c) id) (comments s)).

Definition filesCount (s : Store) (id : Z) : nat :=
  List.length (filter (fun f => Z.eqb (file_inventionId f) id) (files s)).

(** The body of [for (const inv of allInventions)]: [continue] skips the row,
    [results.push] appends to the answer. *)
Fixpoint loop (filters : option Filters) (s : Store) (rows : list Row)
  : list Listed :=
  match rows with
  | [] => []
  | inv :: rest =>
      let skip_status :=
        match status_filter filters with
        | Some v => negb (String.eqb (inv_status (r_inventions inv)) v)
        | None => false
        end in
      let skip_tags :=
        match tags_filter filters with
        | Some t => negb (hasMatchingTag t (inv_tags (r_inventions inv)))
        | None => false
        end in
      if skip_status then loop filters s rest
      else if skip_tags then loop filters s rest
      else
        let data := likesData s (inv_id (r_inventions inv)) in
        let likesCount := List.length (filter (fun l => Bool.eqb l true) data) in
        let dislikesCount := List.length (filter (fun l => Bool.eqb l false) data) in
        mkListed (r_inventions inv) (Some (r_users inv))
          (mkCounts likesCount dislikesCount
                    (commentsCount s (inv_id (r_inventions inv)))
                    (filesCount s (inv_id (r_inventions inv))))
        :: loop filters s rest
  end.

(** [DatabaseStorage.getInventions], loop draft. *)
Definition getInventions (filters : option Filters) (s : Store) : list Listed :=
  loop filters s (allInventions s).

(** The rows the loop does not skip, and the object it pushes for a row. *)
Definition passes (filters : option Filters) (inv : Row) : bool :=
  match status_filter filters with
  | Some v => String.eqb (inv_status (r_inventions inv)) v
  | None => true
  end &&
  match tags_filter filters with
  | Some t => hasMatchingTag t (inv_tags (r_inventions inv))
  | None => true
  end.

Definition pushed (s : Store) (inv : Row) : Listed :=
  let data := likesData s (inv_id (r_inventions inv)) in
  mkListed (r_inventions inv) (Some (r_users inv))
    (mkCounts (List.length (filter (fun l => Bool.eqb l true) data))
              (List.length (filter (fun l => Bool.eqb l false) data))
              (commentsCount s (inv_id (r_inventions inv)))
              (filesCount s (inv_id (r_inventions inv)))).

End LoopDraft.

(** ** Vocabulary of the specification *)

(** The true tallies of an invention, counted on the tables themselves. *)
Definition tally_likes (s : Store) (x : Z) : nat :=
  List.length (filter (fun l => Z.eqb (like_inventionId l) x && like_isLike l)
                      (likes s)).

Definition tally_dislikes (s : Store) (x : Z) : nat :=
  List.length (filter (fun l => Z.eqb (like_inventionId l) x
                                && negb (like_isLike l))
                      (likes s)).

Definition tally_comments (s : Store) (x : Z) : nat :=
  List.length (filter (fun c => Z.eqb (comment_inventionId c) x) (comments s)).

Definition tally_files (s : Store) (x : Z) : nat :=
  List.length (filter (fun f => Z.eqb (file_inventionId f) x) (files s)).

Definition tallies (s : Store) (x : Z) : Counts :=
  mkCounts (tally_likes s x) (tally_dislikes s x)
           (tally_comments s x) (tally_files s x).

(** The Like rows of one (invention, user) pair. *)
Definition same_pair (i : Z) (u : string) (l : Like) : bool :=
  Z.eqb (like_inventionId l) i && String.eqb (like_userId l) u.

Definition pair_rows (s : Store) (i : Z) (u : string) : list Like :=
  filter (same_pair i u) (likes s).

(** The three states of the toggle; a pair with two rows or more is in none. *)
Inductive Vote := NoVote | Liked | Disliked.

Definition voted (isLike : bool) : Vote := if isLike then Liked else Disliked.

Definition vote_of (s : Store) (i : Z) (u : string) : option Vote :=
  match pair_rows s i u with
  | [] => Some NoVote
  | [l] => Some (voted (like_isLike l))
  | _ :: _ :: _ => None
  end.

(** The transition rule, as the specification lists it. *)
Definition transition (v : Vote) (action : bool) : Vote :=
  match v, action with
  | NoVote, true => Liked
  | NoVote, false => Disliked
  | Liked, true => NoVote
  | Liked, false => Disliked
  | Disliked, false => NoVote
  | Disliked, true => Liked
  end.

(** What the rule does to the rows of the pair: insert, delete or update. *)
Definition rows_after (s : Store) (i : Z) (u : string) (action : bool)
    (now : Z) : list Like :=
  match pair_rows s i u with
  | [] => [mkLike (likes_id_seq s) i u action (Some now)]
  | l :: _ => if Bool.eqb (like_isLike l) action then []
              else [set_isLike action l]
  end.

(** At least one tag of the invention is in the filter's list. *)
Definition shares_tag (invTags filterTags : list string) : Prop :=
  exists t, In t invTags /\ In t filterTags.

(** At most one Like row per (inventionId, userId) pair. *)
Definition at_most_one_like (s : Store) : Prop :=
  forall i u, (List.length (pair_rows s i u) <= 1)%nat.

(** A sequence of sequential calls, a rejected one included: the next call
    runs on the store the previous one left. *)
Definition toggle_all (calls : list (NewLike * Z)) (s : Store) : Store :=
  fold_left (fun st call => snd (toggleLike (fst call) (snd call) st)) calls s.

(** Constraints of the schema, as predicates on a store. *)
Definition inventions_pkey (s : Store) : Prop :=
  NoDup (map inv_id (inventions s)).

Definition likes_pkey (s : Store) : Prop :=
  NoDup (map like_id (likes s)).

Definition likes_id_seq_ahead (s : Store) : Prop :=
  forall l, In l (likes s) -> (like_id l < likes_id_seq s)%Z.

Definition comments_id_seq_ahead (s : Store) : Prop :=
  forall c, In c (comments s) -> (comment_id c < comments_id_seq s)%Z.

(** [inventions.author_id REFERENCES users(id)] *)
Definition inventions_author_fkey (s : Store) : Prop :=
  forall i, In i (inventions s) -> has_user (inv_authorId i) s = true.

(** The values the [status] column is declared with. *)
Definition declared_status (v : string) : Prop :=
  v = "pending" \/ v = "under_review" \/ v = "approved" \/ v = "rejected".

Definition statuses_declared (s : Store) : Prop :=
  forall i, In i (inventions s) -> declared_status (inv_status i).

(** ** Sample stores *)

Definition sample_user (id : string) : User :=
  mkUser id None None None None "user" (Some 0%Z) (Some 0%Z).

Definition sample_invention (id : Z) (tgs : list string) (st : string)
    (authorId : string) (createdAt : Z) : Invention :=
  mkInvention id "A title" "A description" tgs st None authorId
              (Some createdAt) (Some createdAt).

(** Invention 1 with 3 like rows (2 true, 1 false), 4 comments and 2 files. *)
Definition counted_store : Store :=
  mkStore
    [sample_user "u1"; sample_user "u2"; sample_user "u3"]
    [sample_invention 1 ["AI/ML"; "IoT"] "pending" "u1" 10]
    [mkFile 1 "f1" "a.pdf" "application/pdf" 100 1 (Some 11%Z);
     mkFile 2 "f2" "b.png" "image/png" 200 1 (Some 11%Z)]
    [mkComment 1 "first" 1 "u1" (Some 12%Z);
     mkComment 2 "second" 1 "u2" (Some 13%Z);
     mkComment 3 "third" 1 "u3" (Some 14%Z);
     mkComment 4 "fourth" 1 "u2" (Some 15%Z)]
    [mkLike 1 1 "u1" true (Some 16%Z);
     mkLike 2 1 "u2" true (Some 17%Z);
     mkLike 3 1 "u3" false (Some 18%Z)]
    5 4 2 3.

(** An under-review invention and an approved one, both tagged IoT. *)
Definition review_store : Store :=
  mkStore
    [sample_user "u1"]
    [sample_invention 1 ["AI/ML"; "IoT"] "under_review" "u1" 10;
     sample_invention 2 ["IoT"] "approved" "u1" 20;
     sample_invention 3 ["Biotech"] "approved" "u1" 30]
    [] [] [] 1 1 4 1.

(** Invention 1 refers to an author of which [users] has no row. *)
Definition orphan_store : Store :=
  mkStore
    [sample_user "u1"]
    [sample_invention 1 ["IoT"] "pending" "ghost" 10;
     sample_invention 2 ["IoT"] "pending" "u1" 20]
    [] [] [] 1 1 3 1.

(** For the examples: a reading of array literals that knows the one literal
    they use. *)
Definition reads_IoT (t : string) : option (list string) :=
  if String.eqb t "{IoT}" then Some ["IoT"] else None.

(** ** The rest of the storage layer *)

(** [DatabaseStorage.getUser] *)
Definition getUser (id : string) (s : Store) : option User :=
  hd_error (filter (fun u => String.eqb (user_id u) id) (users s)).

(** [InsertInvention & { authorId }]: [tags], [status] and [fundingAmount]
    have a default or are nullable, so the insert schema leaves them
    optional. *)
Record NewInvention := mkNewInvention {
  ni_title : string;
  ni_description : string;
  ni_tags : option (list string);
  ni_status : option string;
  ni_fundingAmount : option Z;
  ni_authorId : string
}.

(** A value stored in a [varchar(n)] column ([String.length] counts its
    characters): one longer than [n] is refused, unless everything beyond the
    first [n] characters is spaces, which PostgreSQL then drops. *)
Fixpoint all_spaces (v : string) : bool :=
  match v with
  | EmptyString => true
  | String c rest => Ascii.eqb c " "%char && all_spaces rest
  end.

Definition varchar (n : nat) (v : string) : option string :=
  if Nat.leb (String.length v) n then Some v
  else if all_spaces (substring n (String.length v - n) v)
       then Some (substring 0 n v)
       else None.

(** [db.insert(inventions).values(v).returning()].  The statement is refused
    before it runs when the funding amount does not fit [integer] or the
    title does not fit [varchar(255)]; once it runs, the id is taken from the
    serial sequence (an [integer] one), which has advanced also when the row
    is then refused by the primary key or by the reference to [users]. *)
Definition insert_invention (v : NewInvention) (now : Z) : Db Invention :=
  fun s =>
    if negb (integer_or_null (ni_fundingAmount v))
    then (Rejected (NumericValueOutOfRange "integer"), s)
    else
      match varchar 255 (ni_title v) with
      | None => (Rejected (StringDataRightTruncation "character varying(255)"), s)
      | Some title =>
          let id := inventions_id_seq s in
          let s1 := bump_inventions_id_seq s in
          let row :=
            mkInvention id title (ni_description v)
              (match ni_tags v with Some t => t | None => [] end)
              (match ni_status v with Some st => st | None => "pending" end)
              (ni_fundingAmount v) (ni_authorId v) (Some now) (Some now) in
          if negb (integer id)
          then (Rejected (SequenceGeneratorLimitExceeded "inventions_id_seq"), s)
          else if existsb (fun i => Z.eqb (inv_id i) id) (inventions s)
          then (Rejected (UniqueViolation "inventions_pkey"), s1)
          else if negb (has_user (ni_authorId v) s)
          then (Rejected (ForeignKeyViolation "inventions_author_id_users_id_fk"),
                s1)
          else (Resolved row, set_inventions s1 (inventions s ++ [row]))
      end.

(** [DatabaseStorage.createInvention] *)
Definition createInvention (invention : NewInvention) (now : Z)
  : Db Invention :=
  insert_invention invention now.

Record FileInfo := mkFileInfo {
  fi_filename : string;
  fi_originalName : string;
  fi_mimeType : string;
  fi_size : Z;
  fi_inventionId : Z
}.

Definition set_files (s : Store) (t : list File) : Store :=
  mkStore (users s) (inventions s) t (comments s) (likes s)
          (comments_id_seq s) (likes_id_seq s)
          (inventions_id_seq s) (files_id_seq s).

(** [DatabaseStorage.saveFileInfo]: [size] and [inventionId] are [integer]
    columns, [filename] and [originalName] are [varchar(255)], [mimeType] is
    [varchar(100)]; the id comes from the serial sequence of [files]. *)
Definition saveFileInfo (fileInfo : FileInfo) (now : Z) : Db File :=
  fun s =>
    if negb (integer (fi_size fileInfo) && integer (fi_inventionId fileInfo))
    then (Rejected (NumericValueOutOfRange "integer"), s)
    else
      match varchar 255 (fi_filename fileInfo),
            varchar 255 (fi_originalName fileInfo),
            varchar 100 (fi_mimeType fileInfo) with
      | Some filename, Some originalName, Some mimeType =>
          let id := files_id_seq s in
          let s1 := bump_files_id_seq s in
          let row := mkFile id filename originalName mimeType
                            (fi_size fileInfo) (fi_inventionId fileInfo)
                            (Some now) in
          if negb (integer id)
          then (Rejected (SequenceGeneratorLimitExceeded "files_id_seq"), s)
          else if existsb (fun f => Z.eqb (file_id f) id) (files s)
          then (Rejected (UniqueViolation "files_pkey"), s1)
          else if negb (has_invention (fi_inventionId fileInfo) s)
          then (Rejected
                  (ForeignKeyViolation "files_invention_id_inventions_id_fk"),
                s1)
          else (Resolved row, set_files s1 (files s ++ [row]))
      | _, _, _ =>
          (Rejected (StringDataRightTruncation "character varying"), s)
      end.

(** [DatabaseStorage.getFilesByInvention] *)
Definition getFilesByInvention (inventionId : Z) (s : Store) : list File :=
  filter (fun f => Z.eqb (file_inventionId f) inventionId) (files s).

(** [db.select().from(likes).where(eq(likes.inventionId, id))] *)
Definition likesByInvention (inventionId : Z) (s : Store) : list Like :=
  filter (fun l => Z.eqb (like_inventionId l) inventionId) (likes s).

(** What [getInvention] answers: the invention's columns, [author], [files],
    [comments] with their authors, [likes]. *)
Record InventionDetail := mkInventionDetail {
  d_invention : Invention;
  d_author : option User;
  d_files : list File;
  d_comments : list CommentWithAuthor;
  d_likes : list Like
}.

(** [.orderBy(desc(comments.createdAt))] on comments with their authors. *)
Definition newest_comment_first (a b : CommentWithAuthor) : bool :=
  desc (comment_createdAt (cwa_comment a)) (comment_createdAt (cwa_comment b)).

(** The methods that left-join [users] (storage.ts, first draft). *)
Module LeftJoin.

(** [DatabaseStorage.getCommentsByInvention] *)
Definition getCommentsByInvention (inventionId : Z) (s : Store)
  : list CommentWithAuthor :=
  orderBy newest_comment_first
    (filter (fun r => Z.eqb (comment_inventionId (cwa_comment r)) inventionId)
       (flat_map (fun c =>
          map (mkCommentWithAuthor c)
              (JoinDraft.leftJoin
                 (fun u => String.eqb (comment_authorId c) (user_id u))
                 (users s)))
          (comments s))).

(** [DatabaseStorage.getInvention]: [author: invention.users!] passes the
    joined user on as it is, null included. *)
Definition getInvention (id : Z) (s : Store) : option InventionDetail :=
  let rows :=
    filter (fun r => Z.eqb (inv_id (fst r)) id)
      (flat_map (fun i =>
         map (pair i)
             (JoinDraft.leftJoin
                (fun u => String.eqb (inv_authorId i) (user_id u)) (users s)))
         (inventions s)) in
  match rows with
  | [] => None
  | invention :: _ =>
      Some (mkInventionDetail (fst invention) (snd invention)
              (getFilesByInvention id s)
              (getCommentsByInvention id s)
              (likesByInvention id s))
  end.

End LeftJoin.

(** The methods that inner-join [users] (the loop draft and the second draft
    of storage.ts). *)
Module InnerJoin.

(** [DatabaseStorage.getCommentsByInvention], second draft of storage.ts;
    the same query is inlined in [getInvention] and [getInventions]. *)
Definition getCommentsByInvention (inventionId : Z) (s : Store)
  : list CommentWithAuthor :=
  map (fun item => mkCommentWithAuthor (fst item) (Some (snd item)))
    (orderBy (fun a b => desc (comment_createdAt (fst a))
                              (comment_createdAt (fst b)))
       (filter (fun r => Z.eqb (comment_inventionId (fst r)) inventionId)
          (flat_map (fun c =>
             map (pair c)
                 (filter (fun u => String.eqb (comment_authorId c) (user_id u))
                         (users s)))
             (comments s)))).

(** [DatabaseStorage.getInvention] *)
Definition getInvention (id : Z) (s : Store) : option InventionDetail :=
  let rows :=
    filter (fun r => Z.eqb (inv_id (LoopDraft.r_inventions r)) id)
           (LoopDraft.innerJoin s) in
  match rows with
  | [] => None
  | invention :: _ =>
      Some (mkInventionDetail (LoopDraft.r_inventions invention)
              (Some (LoopDraft.r_users invention))
              (getFilesByInvention id s)
              (getCommentsByInvention id s)
              (likesByInvention id s))
  end.

(** [DatabaseStorage.getInventions], second draft of storage.ts: the loop of
    the loop draft, pushing full details instead of counts. *)
Fixpoint loop (filters : option Filters) (s : Store)
    (rows : list LoopDraft.Row) : list InventionDetail :=
  match rows with
  | [] => []
  | inv :: rest =>
      let invData := LoopDraft.r_inventions inv in
      let skip_status :=
        match status_filter filters with
        | Some v => negb (String.eqb (inv_status invData) v)
        | None => false
        end in
      let skip_tags :=
        match tags_filter filters with
        | Some t => negb (LoopDraft.hasMatchingTag t (inv_tags invData))
        | None => false
        end in
      if skip_status then loop filters s rest
      else if skip_tags then loop filters s rest
      else
        let invId := inv_id invData in
        mkInventionDetail invData (Some (LoopDraft.r_users inv))
          (getFilesByInvention invId s)
          (getCommentsByInvention invId s)
          (likesByInvention invId s)
        :: loop filters s rest
  end.

Definition getInventions (filters : option Filters) (s : Store)
  : list InventionDetail :=
  loop filters s (LoopDraft.allInventions s).

End InnerJoin.

(** More constraints of the schema. *)
Definition users_pkey (s : Store) : Prop :=
  NoDup (map user_id (users s)).

(** [comments.author_id REFERENCES users(id)] *)
Definition comments_author_fkey (s : Store) : Prop :=
  forall c, In c (comments s) -> has_user (comment_authorId c) s = true.

(** Newest first: every element is at least as recent as all that follow
    (a NULL timestamp sorts first, as in PostgreSQL). *)
Definition newest_first {A} (createdAt : A -> Timestamp) (l : list A) : Prop :=
  StronglySorted (fun a b => desc (createdAt a) (createdAt b) = true) l.

(** [DatabaseStorage.upsertUser].  [UpsertUser]: only [id] is required; a
    field left out ([None]) takes its default in the insert and is not
    touched by the update; a nullable field may also be given as null
    ([Some None]). *)
Record UpsertUser := mkUpsertUser {
  uu_id : string;
  uu_email : option (option string);
  uu_firstName : option (option string);
  uu_lastName : option (option string);
  uu_profileImageUrl : option (option string);
  uu_role : option string
}.

Definition set_users (s : Store) (t : list User) : Store :=
  mkStore t (inventions s) (files s) (comments s) (likes s)
          (comments_id_seq s) (likes_id_seq s)
          (inventions_id_seq s) (files_id_seq s).

Definition or_null {A} (given : option (option A)) : option A :=
  match given with Some v => v | None => None end.

Definition or_keep {A} (given : option A) (old : A) : A :=
  match given with Some v => v | None => old end.

(** [.values(userData)] *)
Definition inserted_user (d : UpsertUser) (now : Z) : User :=
  mkUser (uu_id d) (or_null (uu_email d)) (or_null (uu_firstName d))
         (or_null (uu_lastName d)) (or_null (uu_profileImageUrl d))
         (or_keep (uu_role d) "user") (Some now) (Some now).

(** [set: { ...userData, updatedAt: new Date() }] *)
Definition updated_user (d : UpsertUser) (now : Z) (u : User) : User :=
  mkUser (uu_id d) (or_keep (uu_email d) (user_email u))
         (or_keep (uu_firstName d) (user_firstName u))
         (or_keep (uu_lastName d) (user_lastName u))
         (or_keep (uu_profileImageUrl d) (user_profileImageUrl u))
         (or_keep (uu_role d) (user_role u))
         (user_createdAt u) (Some now).

(** [email: varchar("email").unique()]: another row already has this
    (non-null) email. *)
Definition email_taken (row : User) (s : Store) : bool :=
  match user_email row with
  | Some e =>
      existsb (fun u => negb (String.eqb (user_id u) (user_id row))
                        && match user_email u with
                           | Some e' => String.eqb e' e
                           | None => false
                           end)
              (users s)
  | None => false
  end.

Definition upsertUser (userData : UpsertUser) (now : Z) : Db User :=
  fun s =>
    match filter (fun u => String.eqb (user_id u) (uu_id userData)) (users s) with
    | [] =>
        let row := inserted_user userData now in
        if email_taken row s
        then (Rejected (UniqueViolation "users_email_unique"), s)
        else (Resolved row, set_users s (users s ++ [row]))
    | existing :: _ =>
        let row := updated_user userData now existing in
        if email_taken row s
        then (Rejected (UniqueViolation "users_email_unique"), s)
        else (Resolved row,
              set_users s
                (map (fun u => if String.eqb (user_id u) (uu_id userData)
                               then updated_user userData now u else u)
                     (users s)))
    end.

(** ** Routes (server/routes.ts) *)

Inductive Reply (A : Type) :=
| Json (status : Z) (body : A)
| Message (status : Z) (message : string).

Arguments Json {A} status body.
Arguments Message {A} status message.

(** [app.patch('/api/inventions/:id/status', ...)] for the authenticated
    [userId], the integer [id] read by [parseInt] and a body with a string
    [status] and an optional integer [fundingAmount]. *)
Definition patch_status (userId : string) (id : Z) (newStatus : string)
    (fundingAmount : option Z) (now : Z) (s : Store)
  : Reply Invention * Store :=
  let denied := Message 403 "Access denied. Admin role required." in
  match getUser userId s with
  | None => (denied, s)
  | Some user =>
      if negb (String.eqb (user_role user) "admin") then (denied, s)
      else
        match updateInventionStatus id newStatus fundingAmount now s with
        | (Resolved (Some updatedInvention), s') => (Json 200 updatedInvention, s')
        | (Resolved None, s') => (Message 404 "Invention not found", s')
        | (Rejected _, s') =>
            (Message 500 "Failed to update invention status", s')
        end
  end.

(** [app.get('/api/inventions', ...)]: [status] and [tags] are the query
    parameters when they are strings ([None] otherwise). *)
Fixpoint split_comma (q : string) : list string :=
  match q with
  | EmptyString => [""]
  | String c rest =>
      if Ascii.eqb c ","%char then "" :: split_comma rest
      else match split_comma rest with
           | h :: t => String c h :: t
           | [] => [String c ""]
           end
  end.

Definition query_filters (statusQ tagsQ : option string) : Filters :=
  mkFilters
    (match statusQ with
     | Some "" => None
     | Some v => Some v
     | None => None
     end)
    (match tagsQ with
     | Some "" => None
     | Some v => Some (split_comma v)
     | None => None
     end).

(** [tagFilters.join(",")], what the dashboard puts in the query. *)
Definition join_comma (l : list string) : string := String.concat "," l.

(** ** Client state (create-invention.tsx, file-upload.tsx) *)

(** [handleTagClick]: select the tag, or drop it when it is selected. *)
Definition handleTagClick (selectedTags : list string) (tag : string)
  : list string :=
  if existsb (String.eqb tag) selectedTags
  then filter (fun t => negb (String.eqb t tag)) selectedTags
  else selectedTags ++ [tag].

(** [onDrop]: [[...files, ...acceptedFiles].slice(0, maxFiles)] *)
Definition onDrop {A} (files acceptedFiles : list A) (maxFiles : nat) : list A :=
  firstn maxFiles (files ++ acceptedFiles).

(** [removeFile]: [files.filter((_, i) => i !== index)] *)
Fixpoint filter_index {A} (keep : nat -> bool) (i : nat) (l : list A) : list A :=
  match l with
  | [] => []
  | x :: t => if keep i then x :: filter_index keep (S i) t
              else filter_index keep (S i) t
  end.

Definition removeFile {A} (files : list A) (index : nat) : list A :=
  filter_index (fun i => negb (Nat.eqb i index)) 0 files.

(** ** More vocabulary *)

(** What a pair in state [v] adds to the likes and to the dislikes of its
    invention. *)
Definition likes_of (v : Vote) : nat :=
  match v with Liked => 1 | _ => 0 end.

Definition dislikes_of (v : Vote) : nat :=
  match v with Disliked => 1 | _ => 0 end.

Fixpoint has_comma (t : string) : bool :=
  match t with
  | EmptyString => false
  | String c rest => Ascii.eqb c ","%char || has_comma rest
  end.

(** A tag the dashboard can send: not empty, no comma in it. *)
Definition sendable_tag (t : string) : Prop :=
  t <> "" /\ has_comma t = false.

(** Every key and every reference the schema declares. *)
Definition comments_pkey (s : Store) : Prop :=
  NoDup (map comment_id (comments s)).

Definition files_pkey (s : Store) : Prop :=
  NoDup (map file_id (files s)).

Record consistent (s : Store) : Prop := mkConsistent {
  c_users_pkey : users_pkey s;
  c_inventions_pkey : inventions_pkey s;
  c_files_pkey : files_pkey s;
  c_comments_pkey : comments_pkey s;
  c_likes_pkey : likes_pkey s;
  c_inventions_author : inventions_author_fkey s;
  c_comments_author : comments_author_fkey s;
  c_comments_invention :
    forall c, In c (comments s) -> has_invention (comment_inventionId c) s = true;
  c_likes_invention :
    forall l, In l (likes s) -> has_invention (like_inventionId l) s = true;
  c_likes_user :
    forall l, In l (likes s) -> has_user (like_userId l) s = true;
  c_files_invention :
    forall f, In f (files s) -> has_invention (file_inventionId f) s = true
}.

(** An invention passes the filters: it has the asked status, if one is
    asked, and shares a tag with the asked list, if one is asked. *)
Definition matches_filters (filters : option Filters) (i : Invention) : bool :=
  match status_filter filters with
  | Some v => String.eqb (inv_status i) v
  | None => true
  end &&
  match tags_filter filters with
  | Some t => existsb (fun tag => existsb (String.eqb tag) (inv_tags i)) t
  | None => true
  end.

(** The three lists of the admin dashboard (admin-dashboard.tsx), taken from
    the unfiltered answer of getInventions. *)
Definition pendingInventions (l : list Listed) : list Listed :=
  filter (fun inv => String.eqb (inv_status (invention inv)) "pending"
                     || String.eqb (inv_status (invention inv)) "under_review")
         l.

Definition approvedInventions (l : list Listed) : list Listed :=
  filter (fun inv => String.eqb (inv_status (invention inv)) "approved") l.

Definition rejectedInventions (l : list Listed) : list Listed :=
  filter (fun inv => String.eqb (inv_status (invention inv)) "rejected") l.

(** The writers of the storage layer, as calls that can follow one another;
    a rejected call leaves the store it leaves and the next one runs on it. *)
Inductive Call :=
| CallUpsertUser (userData : UpsertUser) (now : Z)
| CallCreateInvention (invention : NewInvention) (now : Z)
| CallUpdateInventionStatus (id : Z) (newStatus : string)
                            (fundingAmount : option Z) (now : Z)
| CallCreateComment (comment : NewComment) (now : Z)
| CallToggleLike (like : NewLike) (now : Z)
| CallSaveFileInfo (fileInfo : FileInfo) (now : Z).

Definition perform (c : Call) (s : Store) : Store :=
  match c with
  | CallUpsertUser d now => snd (upsertUser d now s)
  | CallCreateInvention v now => snd (createInvention v now s)
  | CallUpdateInventionStatus id st amount now =>
      snd (updateInventionStatus id st amount now s)
  | CallCreateComment c now => snd (createComment c now s)
  | CallToggleLike l now => snd (toggleLike l now s)
  | CallSaveFileInfo f now => snd (saveFileInfo f now s)
  end.

Definition perform_all (calls : list Call) (s : Store) : Store :=
  fold_left (fun st c => perform c st) calls s.

(** The database after the migration: empty tables, sequences at 1. *)
Definition empty_store : Store := mkStore [] [] [] [] [] 1 1 1 1.

(** The joined rows one invention contributes to [JoinDraft.from_joins]. *)
Definition joined_rows_of (s : Store) (i : Invention) : list JoinDraft.Joined :=
  flat_map (fun u =>
    flat_map (fun l =>
      flat_map (fun c =>
        map (fun f => JoinDraft.mkJoined i u l c f)
            (JoinDraft.leftJoin (fun f => Z.eqb (inv_id i) (file_inventionId f))
                                (files s)))
        (JoinDraft.leftJoin (fun c => Z.eqb (inv_id i) (comment_inventionId c))
                            (comments s)))
      (JoinDraft.leftJoin (fun l => Z.eqb (inv_id i) (like_inventionId l))
                          (likes s)))
    (JoinDraft.leftJoin (fun u => String.eqb (inv_authorId i) (user_id u))
                        (users s)).

(** The state a client reads off the answer of [getUserLike]: no row is no
    vote, a row is a like or a dislike by its [isLike]. *)
Definition like_state (o : option Like) : Vote :=
  match o with
  | None => NoVote
  | Some l => voted (like_isLike l)
  end.

(** * Properties *)

Unset Implicit Arguments.

(** ** Lists of rows *)

Lemma filter_filter_length {A} (f g : A -> bool) (l : list A) :
  (List.length (filter f (filter g l)) <= List.length (filter f l))%nat.
Proof.
  induction l as [|x t IH]; simpl; [lia|].
  destruct (g x) eqn:Hg; destruct (f x) eqn:Hf; simpl; rewrite ?Hf; simpl; lia.
Qed.

Lemma filter_map_stable {A} (f : A -> bool) (g : A -> A) (l : list A) :
  (forall x, f (g x) = f x) ->
  filter f (map g l) = map g (filter f l).
Proof.
  intros Hfg. induction l as [|x t IH]; simpl; [reflexivity|].
  rewrite Hfg. destruct (f x); simpl; rewrite IH; reflexivity.
Qed.

Lemma filter_all {A} (f : A -> bool) (l : list A) :
  (forall x, In x l -> f x = true) -> filter f l = l.
Proof.
  induction l as [|x t IH]; simpl; intros H; [reflexivity|].
  rewrite (H x (or_introl eq_refl)). f_equal. apply IH.
  intros y Hy. apply H. now right.
Qed.

Lemma filter_singleton_In {A} (f : A -> bool) (l : list A) (x : A) (t : list A) :
  filter f l = x :: t -> In x l /\ f x = true.
Proof.
  intros H. apply filter_In. rewrite H. now left.
Qed.

(** A primary key identifies its row. *)
Lemma pkey_identifies {A} (key : A -> Z) (l : list A) (a b : A) :
  NoDup (map key l) -> In a l -> In b l -> key a = key b -> a = b.
Proof.
  induction l as [|x t IH]; simpl; intros Hnd Ha Hb Hk; [contradiction|].
  inversion Hnd as [|? ? Hx Ht]; subst.
  destruct Ha as [->|Ha]; destruct Hb as [->|Hb]; auto.
  - exfalso. apply Hx. rewrite Hk. now apply in_map.
  - exfalso. apply Hx. rewrite <- Hk. now apply in_map.
Qed.

(** ** toggleLike, statement by statement *)

Lemma toggleLike_no_row (like : NewLike) (now : Z) (s : Store) :
  pair_rows s (nl_inventionId like) (nl_userId like) = [] ->
  toggleLike like now s =
    match insert_like like now s with
    | (Resolved _, s') => (Resolved tt, s')
    | (Rejected e, s') => (Rejected e, s')
    end.
Proof.
  intros H. unfold toggleLike, bind, select_likes.
  unfold pair_rows, same_pair in H. rewrite H.
  destruct (insert_like like now s) as [[r|e] s']; reflexivity.
Qed.

Lemma toggleLike_same (like : NewLike) (now : Z) (s : Store) existing rest :
  pair_rows s (nl_inventionId like) (nl_userId like) = existing :: rest ->
  like_isLike existing = nl_isLike like ->
  toggleLike like now s =
    (Resolved tt,
     set_likes s (filter (fun l => negb (Z.eqb (like_id l) (like_id existing)))
                         (likes s))).
Proof.
  intros H E. unfold toggleLike, bind, select_likes.
  unfold pair_rows, same_pair in H. rewrite H.
  rewrite E, Bool.eqb_reflx. reflexivity.
Qed.

Lemma toggleLike_opposite (like : NewLike) (now : Z) (s : Store) existing rest :
  pair_rows s (nl_inventionId like) (nl_userId like) = existing :: rest ->
  like_isLike existing <> nl_isLike like ->
  toggleLike like now s =
    (Resolved tt,
     set_likes s
       (map (fun l => if Z.eqb (like_id l) (like_id existing)
                      then set_isLike (nl_isLike like) l else l)
            (likes s))).
Proof.
  intros H E. unfold toggleLike, bind, select_likes.
  unfold pair_rows, same_pair in H. rewrite H.
  destruct (Bool.eqb (like_isLike existing) (nl_isLike like)) eqn:Hb.
  - apply Bool.eqb_prop in Hb. contradiction.
  - reflexivity.
Qed.

Lemma insert_like_likes (like : NewLike) (now : Z) (s : Store) :
  likes (snd (insert_like like now s)) = likes s \/
  (exists row, insert_like like now s
               = (Resolved row, set_likes (bump_likes_id_seq s) (likes s ++ [row]))
            /\ row = mkLike (likes_id_seq s) (nl_inventionId like)
                            (nl_userId like) (nl_isLike like) (Some now)).
Proof.
  unfold insert_like.
  destruct (existsb _ (likes s)); [now left|].
  destruct (negb (has_invention _ s)); [now left|].
  destruct (negb (has_user _ s)); [now left|].
  right. eexists. split; reflexivity.
Qed.

(** The Like table after a call, in the four ways it can come out. *)
Lemma toggleLike_likes (like : NewLike) (now : Z) (s : Store) :
  let i := nl_inventionId like in
  let u := nl_userId like in
  let s' := snd (toggleLike like now s) in
  (likes s' = likes s)
  \/ (pair_rows s i u = [] /\
      likes s' = likes s ++ [mkLike (likes_id_seq s) i u (nl_isLike like) (Some now)])
  \/ (exists existing rest, pair_rows s i u = existing :: rest /\
      likes s' = filter (fun l => negb (Z.eqb (like_id l) (like_id existing)))
                        (likes s))
  \/ (exists existing rest, pair_rows s i u = existing :: rest /\
      likes s' = map (fun l => if Z.eqb (like_id l) (like_id existing)
                               then set_isLike (nl_isLike like) l else l)
                     (likes s)).
Proof.
  intros i u s'. subst s'.
  destruct (pair_rows s i u) as [|existing rest] eqn:Hrows.
  - rewrite (toggleLike_no_row like now s Hrows).
    destruct (insert_like_likes like now s) as [H|[row [H ->]]].
    + left. destruct (insert_like like now s) as [[r|e] s']; exact H.
    + right. left. split; [reflexivity|]. rewrite H. reflexivity.
  - destruct (Bool.bool_dec (like_isLike existing) (nl_isLike like)) as [E|E].
    + right. right. left. exists existing, rest. split; [reflexivity|].
      rewrite (toggleLike_same like now s existing rest Hrows E). reflexivity.
    + right. right. right. exists existing, rest. split; [reflexivity|].
      rewrite (toggleLike_opposite like now s existing rest Hrows E). reflexivity.
Qed.

(** One call keeps the invariant. *)
Lemma toggleLike_at_most_one (like : NewLike) (now : Z) (s : Store) :
  at_most_one_like s -> at_most_one_like (snd (toggleLike like now s)).
Proof.
  intros Hinv i u. unfold pair_rows.
  destruct (toggleLike_likes like now s)
    as [H|[[Hrows H]|[(e & rest & Hrows & H)|(e & rest & Hrows & H)]]];
    rewrite H; clear H.
  - apply Hinv.
  - rewrite filter_app, length_app. simpl.
    destruct (same_pair i u _) eqn:Hp; simpl.
    + unfold same_pair in Hp. simpl in Hp.
      apply andb_prop in Hp. destruct Hp as [Hi Hu].
      apply Z.eqb_eq in Hi. apply String.eqb_eq in Hu. subst i u.
      unfold pair_rows in Hrows. rewrite Hrows. simpl. lia.
    + specialize (Hinv i u). unfold pair_rows in Hinv. lia.
  - eapply Nat.le_trans; [apply filter_filter_length|apply Hinv].
  - rewrite filter_map_stable.
    + rewrite length_map. apply Hinv.
    + intros l. destruct (Z.eqb (like_id l) (like_id e)); reflexivity.
Qed.

Lemma toggle_all_at_most_one (calls : list (NewLike * Z)) :
  forall s, at_most_one_like s -> at_most_one_like (toggle_all calls s).
Proof.
  induction calls as [|[like now] rest IH]; intros s Hs; simpl.
  - exact Hs.
  - apply IH. now apply toggleLike_at_most_one.
Qed.

(** The call writes to [likes] and to its sequence, nowhere else. *)
Lemma toggleLike_other_tables (like : NewLike) (now : Z) (s : Store) :
  let s' := snd (toggleLike like now s) in
  users s' = users s /\ inventions s' = inventions s /\
  comments s' = comments s /\ files s' = files s /\
  comments_id_seq s' = comments_id_seq s.
Proof.
  unfold toggleLike, bind, select_likes.
  destruct (filter _ (likes s)) as [|existing rest].
  - unfold insert_like.
    destruct (existsb _ (likes s)); [simpl; auto|].
    destruct (negb (has_invention _ s)); [simpl; auto|].
    destruct (negb (has_user _ s)); simpl; auto.
  - destruct (Bool.eqb _ _); simpl; auto.
Qed.

Lemma filter_comm {A} (f g : A -> bool) (l : list A) :
  filter f (filter g l) = filter g (filter f l).
Proof.
  induction l as [|x t IH]; simpl; [reflexivity|].
  destruct (f x) eqn:Hf; destruct (g x) eqn:Hg; simpl;
    rewrite ?Hf, ?Hg, IH; reflexivity.
Qed.

Lemma same_pair_refl i u id v t : same_pair i u (mkLike id i u v t) = true.
Proof.
  unfold same_pair. simpl. now rewrite Z.eqb_refl, String.eqb_refl.
Qed.

Lemma seq_ahead_no_collision (s : Store) :
  likes_id_seq_ahead s ->
  existsb (fun l => Z.eqb (like_id l) (likes_id_seq s)) (likes s) = false.
Proof.
  intros H. destruct (existsb _ (likes s)) eqn:E; [|reflexivity].
  apply existsb_exists in E. destruct E as (l & Hl & Hid).
  apply Z.eqb_eq in Hid. specialize (H l Hl). lia.
Qed.

Lemma toggleLike_seq_ahead (like : NewLike) (now : Z) (s : Store) :
  likes_id_seq_ahead s -> likes_id_seq_ahead (snd (toggleLike like now s)).
Proof.
  intros H. unfold toggleLike, bind, select_likes.
  destruct (filter _ (likes s)) as [|existing rest].
  - unfold insert_like.
    assert (Hb : forall l, In l (likes s) -> (like_id l < likes_id_seq s + 1)%Z)
      by (intros l Hl; specialize (H l Hl); lia).
    destruct (existsb _ (likes s)); [exact Hb|].
    destruct (negb (has_invention _ s)); [exact Hb|].
    destruct (negb (has_user _ s)); [exact Hb|].
    intros l Hl. simpl in Hl |- *. apply in_app_or in Hl.
    destruct Hl as [Hl|[<-|[]]]; [now apply Hb|simpl; lia].
  - destruct (Bool.eqb _ _); intros l Hl; simpl in Hl |- *.
    + apply filter_In in Hl. apply H, Hl.
    + apply in_map_iff in Hl. destruct Hl as (l0 & <- & Hl0).
      destruct (Z.eqb _ _); simpl; apply H, Hl0.
Qed.

(** One step of the toggle on a pair that is in one of the three states. *)
Lemma toggleLike_step (s : Store) (i : Z) (u : string) (action : bool)
    (now : Z) (v : Vote) :
  likes_id_seq_ahead s ->
  has_invention i s = true -> has_user u s = true ->
  vote_of s i u = Some v ->
  exists s',
    toggleLike (mkNewLike i action u) now s = (Resolved tt, s') /\
    pair_rows s' i u = rows_after s i u action now /\
    vote_of s' i u = Some (transition v action).
Proof.
  intros Hseq Hi Hu Hv. unfold vote_of in Hv. unfold rows_after.
  destruct (pair_rows s i u) as [|l [|l2 rest]] eqn:Hrows; [| |discriminate].
  - (* no-vote: insert *)
    injection Hv as <-.
    rewrite (toggleLike_no_row (mkNewLike i action u) now s Hrows).
    unfold insert_like. simpl.
    rewrite (seq_ahead_no_collision s Hseq), Hi, Hu. simpl.
    eexists. split; [reflexivity|].
    assert (Hp : pair_rows (set_likes (bump_likes_id_seq s)
                    (likes s ++ [mkLike (likes_id_seq s) i u action (Some now)])) i u
                 = [mkLike (likes_id_seq s) i u action (Some now)]).
    { unfold pair_rows in *. simpl. rewrite filter_app, Hrows. simpl.
      now rewrite same_pair_refl. }
    split; [exact Hp|]. unfold vote_of. rewrite Hp. simpl.
    destruct action; reflexivity.
  - injection Hv as <-.
    destruct (Bool.bool_dec (like_isLike l) action) as [E|E].
    + (* the same vote again: delete *)
      rewrite (toggleLike_same (mkNewLike i action u) now s l [] Hrows E).
      eexists. split; [reflexivity|].
      assert (Hp : pair_rows (set_likes s
                     (filter (fun x => negb (Z.eqb (like_id x) (like_id l)))
                             (likes s))) i u = []).
      { unfold pair_rows in *. simpl. rewrite filter_comm, Hrows. simpl.
        now rewrite Z.eqb_refl. }
      rewrite E, Bool.eqb_reflx. split; [exact Hp|].
      unfold vote_of. rewrite Hp. subst action. now destruct (like_isLike l).
    + (* the opposite vote: update *)
      rewrite (toggleLike_opposite (mkNewLike i action u) now s l [] Hrows E).
      eexists. split; [reflexivity|]. simpl.
      assert (Hp : pair_rows (set_likes s
                     (map (fun x => if Z.eqb (like_id x) (like_id l)
                                    then set_isLike action x else x) (likes s))) i u
                   = [set_isLike action l]).
      { unfold pair_rows in *. simpl. rewrite filter_map_stable.
        - rewrite Hrows. simpl. now rewrite Z.eqb_refl.
        - intros x. destruct (Z.eqb (like_id x) (like_id l)); reflexivity. }
      destruct (Bool.eqb (like_isLike l) action) eqn:Hb;
        [apply Bool.eqb_prop in Hb; contradiction|].
      split; [exact Hp|]. unfold vote_of. rewrite Hp. simpl.
      destruct (like_isLike l), action; try reflexivity; contradiction.
Qed.

(** C2. toggleLike is the three-state toggle of an (invention, user) pair:
    for an existing invention and user and a pair in state no-vote, liked or
    disliked, the call resolves; a no-vote pair gets one inserted row carrying
    the given [isLike], a repeated vote deletes the row, an opposite vote
    updates the row's [isLike], and the state moves by the transition rule,
    call after call; so the same vote twice cancels and the opposite vote
    flips. *)
Theorem toggleLike_three_state_toggle :
  forall (s : Store) (i : Z) (u : string) (v : Vote),
    likes_id_seq_ahead s ->
    has_invention i s = true -> has_user u s = true ->
    vote_of s i u = Some v ->
    (forall action now,
       exists s',
         toggleLike (mkNewLike i action u) now s = (Resolved tt, s') /\
         pair_rows s' i u = rows_after s i u action now /\
         vote_of s' i u = Some (transition v action)) /\
    (forall action action' now now',
       let s1 := snd (toggleLike (mkNewLike i action u) now s) in
       let s2 := snd (toggleLike (mkNewLike i action' u) now' s1) in
       vote_of s2 i u = Some (transition (transition v action) action')) /\
    (forall action,
       transition (voted action) action = NoVote /\
       transition (transition NoVote action) action = NoVote /\
       transition (voted (negb action)) action = voted action /\
       transition (transition v action) (negb action) = voted (negb action)).
Proof.
  intros s i u v Hseq Hi Hu Hv. split; [|split].
  - intros action now. now apply toggleLike_step.
  - intros action action' now now' s1 s2.
    destruct (toggleLike_step s i u action now v Hseq Hi Hu Hv)
      as (s' & Hrun & _ & Hv1).
    assert (Hs1 : s1 = s') by (unfold s1; now rewrite Hrun).
    assert (Hseq1 : likes_id_seq_ahead s1) by now apply toggleLike_seq_ahead.
    destruct (toggleLike_other_tables (mkNewLike i action u) now s)
      as (Hus & Hinv & _).
    fold s1 in Hus, Hinv.
    assert (Hi1 : has_invention i s1 = true)
      by (unfold has_invention; now rewrite Hinv).
    assert (Hu1 : has_user u s1 = true)
      by (unfold has_user; now rewrite Hus).
    rewrite <- Hs1 in Hv1.
    destruct (toggleLike_step s1 i u action' now' _ Hseq1 Hi1 Hu1 Hv1)
      as (s2' & Hrun2 & _ & Hv2).
    unfold s2. rewrite Hrun2. exact Hv2.
  - intros action. destruct v, action; repeat split.
Qed.

Lemma toggleLike_three_state_toggle_witness :
  likes_id_seq_ahead counted_store /\
  has_invention 1 counted_store = true /\
  has_user "u1" counted_store = true /\
  vote_of counted_store 1 "u1" = Some Liked /\
  (exists s', toggleLike (mkNewLike 1 true "u1") 50 counted_store
              = (Resolved tt, s') /\
              pair_rows s' 1 "u1" = [] /\ vote_of s' 1 "u1" = Some NoVote) /\
  (exists s', toggleLike (mkNewLike 1 false "u1") 50 counted_store
              = (Resolved tt, s') /\
              pair_rows s' 1 "u1" = [mkLike 1 1 "u1" false (Some 16%Z)] /\
              vote_of s' 1 "u1" = Some Disliked).
Proof.
  assert (Hseq : likes_id_seq_ahead counted_store).
  { intros l Hl. simpl in Hl.
    destruct Hl as [<-|[<-|[<-|[]]]]; simpl; lia. }
  assert (Hi : has_invention 1 counted_store = true) by reflexivity.
  assert (Hu : has_user "u1" counted_store = true) by reflexivity.
  assert (Hv : vote_of counted_store 1 "u1" = Some Liked) by reflexivity.
  destruct (toggleLike_three_state_toggle counted_store 1 "u1" Liked
              Hseq Hi Hu Hv) as (Hstep & _).
  repeat split; try assumption.
  - exact (Hstep true 50%Z).
  - exact (Hstep false 50%Z).
Defined.

(** C3. At most one Like row per (inventionId, userId) pair is an invariant of
    toggleLike: from a store that has it, every sequence of sequential calls
    (rejected ones included) ends in a store that has it. *)
Theorem toggleLike_keeps_at_most_one_row :
  forall (calls : list (NewLike * Z)) (s : Store),
    at_most_one_like s -> at_most_one_like (toggle_all calls s).
Proof.
  intros calls s Hs. now apply toggle_all_at_most_one.
Qed.

Lemma toggleLike_keeps_at_most_one_row_witness :
  at_most_one_like review_store /\
  at_most_one_like
    (toggle_all [(mkNewLike 1 true "u1", 40%Z); (mkNewLike 1 false "u1", 41%Z);
                 (mkNewLike 2 true "u1", 42%Z); (mkNewLike 9 true "u1", 43%Z);
                 (mkNewLike 2 true "u1", 44%Z)]
                review_store).
Proof.
  assert (H : at_most_one_like review_store).
  { intros i u. simpl. apply Nat.le_0_l. }
  split; [exact H|].
  exact (toggleLike_keeps_at_most_one_row _ review_store H).
Defined.

Lemma filter_other_rows_deleted (p : Like -> bool) (e : Like) (l : list Like) :
  (forall x, In x l -> Z.eqb (like_id x) (like_id e) = true -> p x = true) ->
  filter (fun x => negb (p x))
         (filter (fun x => negb (Z.eqb (like_id x) (like_id e))) l)
  = filter (fun x => negb (p x)) l.
Proof.
  induction l as [|x t IH]; simpl; intros H; [reflexivity|].
  assert (Ht : forall y, In y t -> Z.eqb (like_id y) (like_id e) = true -> p y = true)
    by (intros y Hy; apply H; now right).
  destruct (Z.eqb (like_id x) (like_id e)) eqn:Hid; simpl.
  - rewrite (H x (or_introl eq_refl) Hid). simpl. now apply IH.
  - rewrite (IH Ht). reflexivity.
Qed.

Lemma filter_other_rows_updated (p : Like -> bool) (e : Like) (v : bool)
    (l : list Like) :
  (forall x, p (set_isLike v x) = p x) ->
  (forall x, In x l -> Z.eqb (like_id x) (like_id e) = true -> p x = true) ->
  filter (fun x => negb (p x))
         (map (fun x => if Z.eqb (like_id x) (like_id e)
                        then set_isLike v x else x) l)
  = filter (fun x => negb (p x)) l.
Proof.
  intros Hp. induction l as [|x t IH]; simpl; intros H; [reflexivity|].
  assert (Ht : forall y, In y t -> Z.eqb (like_id y) (like_id e) = true -> p y = true)
    by (intros y Hy; apply H; now right).
  destruct (Z.eqb (like_id x) (like_id e)) eqn:Hid.
  - rewrite Hp, (H x (or_introl eq_refl) Hid). simpl. now apply IH.
  - rewrite (IH Ht). reflexivity.
Qed.

(** C9. toggleLike writes one Like row of the given pair and nothing else:
    in a store whose Like ids are a primary key, users, inventions, comments
    and files are the same after the call, and so is, row for row, the part
    of the Like table that belongs to other (inventionId, userId) pairs. *)
Theorem toggleLike_frame :
  forall (like : NewLike) (now : Z) (s : Store),
    likes_pkey s ->
    let s' := snd (toggleLike like now s) in
    let other l := negb (same_pair (nl_inventionId like) (nl_userId like) l) in
    users s' = users s /\ inventions s' = inventions s /\
    comments s' = comments s /\ files s' = files s /\
    filter other (likes s') = filter other (likes s).
Proof.
  intros like now s Hpk s' other.
  destruct (toggleLike_other_tables like now s) as (Hu & Hi & Hc & Hf & _).
  repeat split; try assumption.
  assert (Hsame : forall e rest x,
            pair_rows s (nl_inventionId like) (nl_userId like) = e :: rest ->
            In x (likes s) -> Z.eqb (like_id x) (like_id e) = true ->
            same_pair (nl_inventionId like) (nl_userId like) x = true).
  { intros e rest x Hrows Hx Hid. apply Z.eqb_eq in Hid.
    destruct (filter_singleton_In _ _ _ _ Hrows) as [He Hpe].
    now rewrite (pkey_identifies like_id (likes s) x e Hpk Hx He Hid). }
  unfold s', other.
  destruct (toggleLike_likes like now s)
    as [H|[[Hrows H]|[(e & rest & Hrows & H)|(e & rest & Hrows & H)]]];
    rewrite H; clear H.
  - reflexivity.
  - rewrite filter_app. simpl. rewrite same_pair_refl. simpl.
    now rewrite app_nil_r.
  - apply filter_other_rows_deleted. intros x. now apply (Hsame e rest).
  - apply filter_other_rows_updated; [reflexivity|].
    intros x. now apply (Hsame e rest).
Qed.

Lemma toggleLike_frame_witness :
  likes_pkey counted_store /\
  let s' := snd (toggleLike (mkNewLike 1 false "u2") 50%Z counted_store) in
  users s' = users counted_store /\ inventions s' = inventions counted_store /\
  comments s' = comments counted_store /\ files s' = files counted_store /\
  filter (fun l => negb (same_pair 1 "u2" l)) (likes s')
  = [mkLike 1 1 "u1" true (Some 16%Z); mkLike 3 1 "u3" false (Some 18%Z)].
Proof.
  assert (H : likes_pkey counted_store).
  { unfold likes_pkey. simpl. repeat constructor; simpl; intuition discriminate. }
  split; [exact H|].
  exact (toggleLike_frame (mkNewLike 1 false "u2") 50%Z counted_store H).
Defined.

(** ** getStats *)

Lemma count_status_partition (t : list Invention) :
  (forall i, In i t -> declared_status (inv_status i)) ->
  (count_status "pending" t + count_status "approved" t
   + count_status "rejected" t + count_status "under_review" t
   = List.length t)%nat.
Proof.
  unfold count_status.
  induction t as [|x t IH]; intros H; [reflexivity|].
  assert (Ht : forall i, In i t -> declared_status (inv_status i))
    by (intros i Hi; apply H; now right).
  specialize (IH Ht).
  destruct (H x (or_introl eq_refl)) as [E|[E|[E|E]]];
    simpl; rewrite E; simpl; lia.
Qed.

Lemma count_status_positive (v : string) (t : list Invention) (x : Invention) :
  In x t -> inv_status x = v -> (0 < count_status v t)%nat.
Proof.
  unfold count_status. induction t as [|y t IH]; simpl; intros Hx Hv;
    [contradiction|].
  destruct Hx as [->|Hx].
  - rewrite Hv, String.eqb_refl. simpl. lia.
  - destruct (String.eqb (inv_status y) v); simpl; [lia|now apply IH].
Qed.

Lemma count_status_disjoint (t : list Invention) :
  (count_status "pending" t + count_status "approved" t
   + count_status "rejected" t + count_status "under_review" t
   <= List.length t)%nat.
Proof.
  unfold count_status.
  induction t as [|x t IH]; simpl; [lia|].
  destruct (String.eqb (inv_status x) "pending") eqn:E1.
  { apply String.eqb_eq in E1. rewrite E1. simpl. lia. }
  destruct (String.eqb (inv_status x) "approved") eqn:E2.
  { apply String.eqb_eq in E2. rewrite E2. simpl. lia. }
  destruct (String.eqb (inv_status x) "rejected") eqn:E3.
  { apply String.eqb_eq in E3. rewrite E3. simpl. lia. }
  destruct (String.eqb (inv_status x) "under_review"); simpl; lia.
Qed.

(** C10, as stated, fails: the storage layer stores whatever status it is
    given.  After one invention has been given the status "archived" and
    another the status "under_review", [total] is 2 and one invention is
    under review, but pending + approved + rejected is 0, not 1. *)
Lemma getStats_misses_undeclared_status :
  let calls :=
    [CallUpsertUser (mkUpsertUser "u1" None None None None None) 1;
     CallCreateInvention
       (mkNewInvention "Kite" "A kite" None None None "u1") 2;
     CallCreateInvention
       (mkNewInvention "Mill" "A mill" None None None "u1") 3;
     CallUpdateInventionStatus 1 "archived" None 4;
     CallUpdateInventionStatus 2 "under_review" None 5] in
  let s := perform_all calls empty_store in
  let st := getStats s in
  total st = 2%nat /\
  count_status "archived" (inventions s) = 1%nat /\
  count_status "under_review" (inventions s) = 1%nat /\
  (pending st + approved st + rejected st = 0)%nat /\
  (pending st + approved st + rejected st
   <> total st - count_status "under_review" (inventions s))%nat.
Proof.
  repeat split; try reflexivity. simpl. discriminate.
Qed.

(** C10, amended. getStats has no bucket for "under_review": [total] counts
    every invention; over inventions whose status is one of the four declared
    values, pending + approved + rejected is [total] minus the number of
    inventions under review; and the three buckets sum to strictly less than
    [total] as soon as one invention is under review. *)
Theorem getStats_omits_under_review :
  forall (s : Store),
    let st := getStats s in
    let under_review := count_status "under_review" (inventions s) in
    total st = List.length (inventions s) /\
    (statuses_declared s ->
     (pending st + approved st + rejected st = total st - under_review)%nat /\
     (pending st + approved st + rejected st + under_review = total st)%nat) /\
    ((exists i, In i (inventions s) /\ inv_status i = "under_review") ->
     (pending st + approved st + rejected st < total st)%nat).
Proof.
  intros s st under_review.
  unfold st, under_review, getStats. simpl.
  split; [reflexivity|]. split.
  - intros H.
    pose proof (count_status_partition (inventions s) H) as Hsum. lia.
  - intros (i & Hi & Hst).
    pose proof (count_status_disjoint (inventions s)) as Hle.
    pose proof (count_status_positive "under_review" (inventions s) i Hi Hst).
    lia.
Qed.

Lemma getStats_omits_under_review_witness :
  statuses_declared review_store /\
  (exists i, In i (inventions review_store) /\ inv_status i = "under_review") /\
  getStats review_store = mkStats 3 0 2 0 /\
  (pending (getStats review_store) + approved (getStats review_store)
   + rejected (getStats review_store)
   = total (getStats review_store)
     - count_status "under_review" (inventions review_store))%nat /\
  (pending (getStats review_store) + approved (getStats review_store)
   + rejected (getStats review_store) < total (getStats review_store))%nat.
Proof.
  assert (H : statuses_declared review_store).
  { intros i Hi. simpl in Hi. unfold declared_status.
    destruct Hi as [<-|[<-|[<-|[]]]]; simpl; auto. }
  assert (Hur : exists i, In i (inventions review_store)
                          /\ inv_status i = "under_review").
  { eexists. split; [left; reflexivity|reflexivity]. }
  destruct (getStats_omits_under_review review_store) as (_ & Heq & Hlt).
  split; [exact H|]. split; [exact Hur|]. split; [reflexivity|].
  split; [exact (proj1 (Heq H))|exact (Hlt Hur)].
Defined.

(** ** updateInventionStatus *)

(** The two ways the call runs: refused when it is bound, or run on the rows
    with the id. *)
Lemma updateInventionStatus_refused (id : Z) (st : string) (amount : option Z)
    (now : Z) (s : Store) :
  integer_or_null amount && integer id = false ->
  updateInventionStatus id st amount now s
  = (Rejected (NumericValueOutOfRange "integer"), s).
Proof.
  intros H. unfold updateInventionStatus, bind, update_inventions.
  destruct amount; simpl in *; now rewrite H.
Qed.

Lemma updateInventionStatus_bound (id : Z) (st : string) (amount : option Z)
    (now : Z) (s : Store) :
  integer_or_null amount && integer id = true ->
  updateInventionStatus id st amount now s
  = (Resolved
       (hd_error (map (apply_updateData (mkUpdateData st now amount))
                      (filter (fun i => Z.eqb (inv_id i) id) (inventions s)))),
     set_inventions s
       (map (fun i => if Z.eqb (inv_id i) id
                      then apply_updateData (mkUpdateData st now amount) i
                      else i)
            (inventions s))).
Proof.
  intros H. unfold updateInventionStatus, bind, update_inventions, ret.
  destruct amount; simpl in *; now rewrite H.
Qed.

Lemma updateInventionStatus_other_tables (id : Z) (st : string)
    (amount : option Z) (now : Z) (s : Store) :
  let s' := snd (updateInventionStatus id st amount now s) in
  users s' = users s /\ files s' = files s /\ comments s' = comments s /\
  likes s' = likes s.
Proof.
  destruct (integer_or_null amount && integer id) eqn:Hfit;
    [rewrite (updateInventionStatus_bound id st amount now s Hfit)
    |rewrite (updateInventionStatus_refused id st amount now s Hfit)];
    simpl; auto.
Qed.




(** ** createComment *)

(** C8, as stated, fails: a comment whose content is the empty string is
    created, by the storage method and by the route (201), and its row is
    added to the table. *)
Lemma createComment_accepts_empty_content :
  let row := mkComment 1 "" 1 "u1" (Some 99%Z) in
  let body := mkCommentWithAuthor row (Some (sample_user "u1")) in
  let s' := set_comments (bump_comments_id_seq review_store) [row] in
  comments review_store = [] /\
  createComment (mkNewComment "" 1 "u1") 99%Z review_store = (Resolved body, s') /\
  post_comment "u1" (Some 1%Z) (Some "") 99%Z review_store = (Created 201 body, s') /\
  comments s' = [row].
Proof. repeat split. Qed.

Lemma comments_seq_ahead_no_collision (s : Store) :
  comments_id_seq_ahead s ->
  existsb (fun c => Z.eqb (comment_id c) (comments_id_seq s)) (comments s) = false.
Proof.
  intros H. destruct (existsb _ (comments s)) eqn:E; [|reflexivity].
  apply existsb_exists in E. destruct E as (c & Hc & Hid).
  apply Z.eqb_eq in Hid. specialize (H c Hc). lia.
Qed.

(** C8, amended. createComment does not look at the content: for every
    content string, the empty one included, and an existing invention and
    author, the call resolves with a comment that carries exactly that
    content, its row is appended to the table, and the route answers 201.
    A call is refused by the database only (primary or foreign key), whatever
    the content, and the route answers every refusal with the same 500. *)
Theorem createComment_stores_any_content :
  forall (content : string) (i : Z) (u : string) (now : Z) (s : Store),
    comments_id_seq_ahead s ->
    has_invention i s = true -> has_user u s = true ->
    let row := mkComment (comments_id_seq s) content i u (Some now) in
    exists author s',
      createComment (mkNewComment content i u) now s
      = (Resolved (mkCommentWithAuthor row author), s') /\
      post_comment u (Some i) (Some content) now s
      = (Created 201 (mkCommentWithAuthor row author), s') /\
      comments s' = comments s ++ [row] /\
      forall content' e,
        fst (createComment (mkNewComment content' i u) now s) <> Rejected e.
Proof.
  intros content i u now s Hseq Hi Hu row.
  assert (Hrun : forall c,
    createComment (mkNewComment c i u) now s
    = (Resolved (mkCommentWithAuthor
                   (mkComment (comments_id_seq s) c i u (Some now))
                   (hd_error (filter (fun x => String.eqb (user_id x) u)
                                     (users s)))),
       set_comments (bump_comments_id_seq s)
         (comments s ++ [mkComment (comments_id_seq s) c i u (Some now)]))).
  { intros c. unfold createComment, bind, insert_comment. simpl.
    rewrite (comments_seq_ahead_no_collision s Hseq), Hi, Hu. reflexivity. }
  eexists. eexists. split; [apply Hrun|].
  split; [|split].
  - unfold post_comment. simpl. rewrite Hrun. reflexivity.
  - reflexivity.
  - intros content' e. rewrite Hrun. discriminate.
Qed.

Lemma createComment_stores_any_content_witness :
  comments_id_seq_ahead review_store /\
  has_invention 2 review_store = true /\ has_user "u1" review_store = true /\
  exists author s',
    createComment (mkNewComment "" 2 "u1") 99%Z review_store
    = (Resolved (mkCommentWithAuthor (mkComment 1 "" 2 "u1" (Some 99%Z)) author),
       s') /\
    post_comment "u1" (Some 2%Z) (Some "") 99%Z review_store
    = (Created 201
         (mkCommentWithAuthor (mkComment 1 "" 2 "u1" (Some 99%Z)) author), s') /\
    comments s' = [mkComment 1 "" 2 "u1" (Some 99%Z)] /\
    forall content' e,
      fst (createComment (mkNewComment content' 2 "u1") 99%Z review_store)
      <> Rejected e.
Proof.
  assert (Hseq : comments_id_seq_ahead review_store)
    by (intros c Hc; destruct Hc).
  split; [exact Hseq|]. split; [reflexivity|]. split; [reflexivity|].
  exact (createComment_stores_any_content "" 2 "u1" 99%Z review_store
           Hseq eq_refl eq_refl).
Defined.

(** ** Listing: ORDER BY, tags *)

Lemma insert_by_In {A} (le : A -> A -> bool) (x y : A) (l : list A) :
  In y (insert_by le x l) <-> y = x \/ In y l.
Proof.
  induction l as [|z t IH]; simpl.
  - intuition.
  - destruct (le x z); simpl; [intuition|]. rewrite IH. intuition.
Qed.

Lemma orderBy_In {A} (le : A -> A -> bool) (y : A) (l : list A) :
  In y (orderBy le l) <-> In y l.
Proof.
  unfold orderBy. induction l as [|x t IH]; simpl; [reflexivity|].
  rewrite insert_by_In, IH. intuition.
Qed.

Lemma mem_string_In (x : string) (l : list string) :
  existsb (String.eqb x) l = true <-> In x l.
Proof.
  rewrite existsb_exists. split.
  - intros (y & Hy & E). apply String.eqb_eq in E. now subst.
  - intros H. exists x. split; [exact H|apply String.eqb_refl].
Qed.

Lemma overlap_shares_tag (a b : list string) :
  JoinDraft.overlap a b = true <-> shares_tag a b.
Proof.
  unfold JoinDraft.overlap, shares_tag. rewrite existsb_exists.
  split; intros (t & H1 & H2); exists t; split; try assumption;
    now apply mem_string_In.
Qed.

Lemma hasMatchingTag_shares_tag (filterTags invTags : list string) :
  LoopDraft.hasMatchingTag filterTags invTags = true
  <-> shares_tag invTags filterTags.
Proof.
  unfold LoopDraft.hasMatchingTag, shares_tag. rewrite existsb_exists.
  split; intros (t & H1 & H2); exists t; split; try assumption;
    now apply mem_string_In.
Qed.

(** ** The loop draft *)

Lemma loop_filter_map (filters : option Filters) (s : Store)
    (rows : list LoopDraft.Row) :
  LoopDraft.loop filters s rows
  = map (LoopDraft.pushed s) (filter (LoopDraft.passes filters) rows).
Proof.
  induction rows as [|inv rest IH]; simpl; [reflexivity|].
  unfold LoopDraft.passes at 1.
  destruct (status_filter filters) as [v|];
    destruct (tags_filter filters) as [t|]; simpl;
    try destruct (String.eqb _ v); simpl;
    try destruct (LoopDraft.hasMatchingTag t _); simpl;
    rewrite IH; reflexivity.
Qed.

Lemma LoopDraft_In (filters : option Filters) (s : Store) (r : Listed) :
  In r (LoopDraft.getInventions filters s) <->
  exists inv, In inv (LoopDraft.innerJoin s) /\
              LoopDraft.passes filters inv = true /\
              r = LoopDraft.pushed s inv.
Proof.
  unfold LoopDraft.getInventions, LoopDraft.allInventions.
  rewrite loop_filter_map, in_map_iff. split.
  - intros (inv & <- & Hin). apply filter_In in Hin. destruct Hin as [Hin Hp].
    apply orderBy_In in Hin. now exists inv.
  - intros (inv & Hin & Hp & ->). exists inv. split; [reflexivity|].
    apply filter_In. split; [now apply orderBy_In|exact Hp].
Qed.

Lemma innerJoin_In (s : Store) (inv : LoopDraft.Row) :
  In inv (LoopDraft.innerJoin s) <->
  In (LoopDraft.r_inventions inv) (inventions s) /\
  In (LoopDraft.r_users inv) (users s) /\
  inv_authorId (LoopDraft.r_inventions inv) = user_id (LoopDraft.r_users inv).
Proof.
  unfold LoopDraft.innerJoin. rewrite in_flat_map. split.
  - intros (i & Hi & Hm). apply in_map_iff in Hm. destruct Hm as (u & <- & Hu).
    apply filter_In in Hu. destruct Hu as [Hu E]. apply String.eqb_eq in E.
    simpl. auto.
  - intros (Hi & Hu & E). destruct inv as [i u]. simpl in *.
    exists i. split; [exact Hi|]. apply in_map. apply filter_In.
    split; [exact Hu|now apply String.eqb_eq].
Qed.

Lemma likesData_true (s : Store) (x : Z) :
  List.length (filter (fun l => Bool.eqb l true) (LoopDraft.likesData s x))
  = tally_likes s x.
Proof.
  unfold LoopDraft.likesData, tally_likes.
  induction (likes s) as [|l t IH]; simpl; [reflexivity|].
  destruct (Z.eqb (like_inventionId l) x); simpl; [|exact IH].
  destruct (like_isLike l); simpl; now rewrite IH.
Qed.

Lemma likesData_false (s : Store) (x : Z) :
  List.length (filter (fun l => Bool.eqb l false) (LoopDraft.likesData s x))
  = tally_dislikes s x.
Proof.
  unfold LoopDraft.likesData, tally_dislikes.
  induction (likes s) as [|l t IH]; simpl; [reflexivity|].
  destruct (Z.eqb (like_inventionId l) x); simpl; [|exact IH].
  destruct (like_isLike l); simpl; now rewrite IH.
Qed.

Lemma pushed_counts (s : Store) (inv : LoopDraft.Row) :
  _count (LoopDraft.pushed s inv)
  = tallies s (inv_id (LoopDraft.r_inventions inv)).
Proof.
  unfold LoopDraft.pushed, tallies. simpl.
  now rewrite likesData_true, likesData_false.
Qed.

(** The loop draft reports the true tallies: every element of its answer
    carries them, and every invention that has its author row is an element
    of the unfiltered answer. *)
Lemma LoopDraft_counts_are_tallies (s : Store) :
  (forall filters r,
     In r (LoopDraft.getInventions filters s) ->
     In (invention r) (inventions s) /\
     _count r = tallies s (inv_id (invention r))) /\
  (forall x, In x (inventions s) -> has_user (inv_authorId x) s = true ->
     exists r, In r (LoopDraft.getInventions None s) /\
               invention r = x /\ _count r = tallies s (inv_id x)).
Proof.
  split.
  - intros filters r Hr. apply LoopDraft_In in Hr.
    destruct Hr as (inv & Hin & _ & ->). apply innerJoin_In in Hin.
    split; [apply Hin|apply pushed_counts].
  - intros x Hx Hu. unfold has_user in Hu. apply existsb_exists in Hu.
    destruct Hu as (u & Hu & E). apply String.eqb_eq in E.
    exists (LoopDraft.pushed s (LoopDraft.mkRow x u)).
    split; [|split; [reflexivity|apply pushed_counts]].
    apply LoopDraft_In. exists (LoopDraft.mkRow x u).
    split; [|split; reflexivity].
    apply innerJoin_In. simpl. auto.
Qed.

(** ** The join draft *)

Lemma key_eqb_eq (a b : Z * option string) :
  JoinDraft.key_eqb a b = true <-> a = b.
Proof.
  destruct a as [x [u|]], b as [y [v|]]; unfold JoinDraft.key_eqb; simpl;
    rewrite andb_true_iff, Z.eqb_eq, ?String.eqb_eq.
  - split; [intros [H1 H2]; congruence|intros H; injection H; auto].
  - split; [intros [H1 H2]; discriminate|intros H; discriminate].
  - split; [intros [H1 H2]; discriminate|intros H; discriminate].
  - split; [intros [H1 H2]; congruence|intros H; injection H; auto].
Qed.

Lemma group_keys_In (rows : list JoinDraft.Joined) (k : Z * option string) :
  In k (JoinDraft.group_keys rows) <-> In k (map JoinDraft.group_key rows).
Proof.
  induction rows as [|r t IH]; simpl; [reflexivity|].
  rewrite filter_In, IH. split.
  - intros [H|[H _]]; auto.
  - intros [H|H]; [now left|].
    destruct (JoinDraft.key_eqb k (JoinDraft.group_key r)) eqn:E.
    + apply key_eqb_eq in E. now left.
    + right. now split.
Qed.

Lemma groupBy_In (rows : list JoinDraft.Joined) (r : Listed) :
  In r (flat_map JoinDraft.select_fields (JoinDraft.groupBy rows)) <->
  exists m, In m rows /\
            In r (JoinDraft.select_fields
                    (filter (JoinDraft.in_group (JoinDraft.group_key m)) rows)).
Proof.
  unfold JoinDraft.groupBy. rewrite in_flat_map. split.
  - intros (g & Hg & Hr). apply in_map_iff in Hg. destruct Hg as (k & <- & Hk).
    apply group_keys_In, in_map_iff in Hk. destruct Hk as (m & <- & Hm).
    now exists m.
  - intros (m & Hm & Hr). eexists. split; [|exact Hr].
    apply in_map_iff. exists (JoinDraft.group_key m). split; [reflexivity|].
    apply group_keys_In. now apply in_map.
Qed.

(** An output row comes from the first row of its group. *)
Lemma select_fields_In (g : list JoinDraft.Joined) (r : Listed) :
  In r (JoinDraft.select_fields g) ->
  exists m rest, g = m :: rest /\
                 invention r = JoinDraft.j_inventions m /\
                 author r = JoinDraft.j_users m.
Proof.
  destruct g as [|m rest]; simpl; [contradiction|].
  intros [<-|[]]. now exists m, rest.
Qed.

Lemma leftJoin_In {B} (on : B -> bool) (table : list B) (o : option B) :
  In o (JoinDraft.leftJoin on table) ->
  match o with
  | Some b => In b table /\ on b = true
  | None => forall b, In b table -> on b = false
  end.
Proof.
  unfold JoinDraft.leftJoin.
  destruct (filter on table) as [|b0 t] eqn:Hf.
  - intros [<-|[]]. intros b Hb. destruct (on b) eqn:E; [|reflexivity].
    assert (Hin : In b (filter on table)) by (apply filter_In; auto).
    rewrite Hf in Hin. destruct Hin.
  - intros Hin. apply in_map_iff in Hin. destruct Hin as (b & <- & Hb).
    rewrite <- Hf in Hb. now apply filter_In in Hb.
Qed.

Lemma from_joins_In (s : Store) (m : JoinDraft.Joined) :
  In m (JoinDraft.from_joins s) ->
  In (JoinDraft.j_inventions m) (inventions s) /\
  In (JoinDraft.j_users m)
     (JoinDraft.leftJoin
        (fun u => String.eqb (inv_authorId (JoinDraft.j_inventions m)) (user_id u))
        (users s)).
Proof.
  unfold JoinDraft.from_joins. intros H.
  apply in_flat_map in H. destruct H as (i & Hi & H).
  apply in_flat_map in H. destruct H as (u & Hu & H).
  apply in_flat_map in H. destruct H as (l & Hl & H).
  apply in_flat_map in H. destruct H as (c & Hc & H).
  apply in_map_iff in H. destruct H as (f & <- & Hf).
  simpl. auto.
Qed.

(** What [run] answers, whatever the order. *)
Lemma run_In (q : JoinDraft.Prepared) (s : Store) (r : Listed) :
  let rows := match JoinDraft.prepared_where q with
              | Some c => filter c (JoinDraft.from_joins s)
              | None => JoinDraft.from_joins s
              end in
  In r (JoinDraft.run q s) <->
  exists m, In m rows /\
            In r (JoinDraft.select_fields
                    (filter (JoinDraft.in_group (JoinDraft.group_key m)) rows)).
Proof.
  intros rows. unfold JoinDraft.run. fold rows.
  destruct (JoinDraft.prepared_orderBy q); [rewrite orderBy_In|];
    apply groupBy_In.
Qed.

(** Under the primary key of [inventions], the rows of one group are rows of
    one invention. *)
Lemma group_one_invention (s : Store) (m m' : JoinDraft.Joined) :
  inventions_pkey s ->
  In m (JoinDraft.from_joins s) -> In m' (JoinDraft.from_joins s) ->
  JoinDraft.in_group (JoinDraft.group_key m) m' = true ->
  JoinDraft.j_inventions m' = JoinDraft.j_inventions m.
Proof.
  intros Hpk Hm Hm' Hg. apply key_eqb_eq in Hg.
  apply (pkey_identifies inv_id (inventions s)); try assumption.
  - now apply from_joins_In.
  - now apply from_joins_In.
  - unfold JoinDraft.group_key in Hg. now injection Hg.
Qed.

(** A WHERE condition on the invention's columns keeps or drops whole
    groups. *)
Lemma where_keeps_groups (s : Store) (p : Invention -> bool)
    (m : JoinDraft.Joined) :
  inventions_pkey s ->
  In m (JoinDraft.from_joins s) -> p (JoinDraft.j_inventions m) = true ->
  filter (JoinDraft.in_group (JoinDraft.group_key m))
         (filter (fun x => p (JoinDraft.j_inventions x)) (JoinDraft.from_joins s))
  = filter (JoinDraft.in_group (JoinDraft.group_key m)) (JoinDraft.from_joins s).
Proof.
  intros Hpk Hm Hp. rewrite filter_comm. apply filter_all.
  intros x Hx. apply filter_In in Hx. destruct Hx as [Hx Hg].
  now rewrite (group_one_invention s m x Hpk Hm Hx Hg).
Qed.

Lemma JoinDraft_where_In (s : Store) (p : Invention -> bool)
    (o : option (Invention -> Invention -> bool)) (r : Listed) :
  inventions_pkey s ->
  In r (JoinDraft.run
          (JoinDraft.mkPrepared
             (Some (fun x => p (JoinDraft.j_inventions x))) o) s) <->
  In r (JoinDraft.run (JoinDraft.mkPrepared None o) s) /\
  p (invention r) = true.
Proof.
  intros Hpk. rewrite !run_In. simpl. split.
  - intros (m & Hm & Hr). apply filter_In in Hm. destruct Hm as [Hm Hp].
    rewrite (where_keeps_groups s p m Hpk Hm Hp) in Hr.
    split; [now exists m|].
    destruct (select_fields_In _ _ Hr) as (m0 & rest & Hg & Hinv & _).
    assert (H0 : In m0 (filter (JoinDraft.in_group (JoinDraft.group_key m))
                               (JoinDraft.from_joins s)))
      by (rewrite Hg; now left).
    apply filter_In in H0. destruct H0 as [H0 Hk].
    now rewrite Hinv, (group_one_invention s m m0 Hpk Hm H0 Hk).
  - intros ((m & Hm & Hr) & Hp).
    destruct (select_fields_In _ _ Hr) as (m0 & rest & Hg & Hinv & _).
    assert (H0 : In m0 (filter (JoinDraft.in_group (JoinDraft.group_key m))
                               (JoinDraft.from_joins s)))
      by (rewrite Hg; now left).
    apply filter_In in H0. destruct H0 as [H0 Hk].
    assert (Hpm : p (JoinDraft.j_inventions m) = true)
      by (now rewrite <- (group_one_invention s m m0 Hpk Hm H0 Hk), <- Hinv).
    exists m. split; [apply filter_In; auto|].
    now rewrite (where_keeps_groups s p m Hpk Hm Hpm).
Qed.

Lemma tags_filter_nonempty (st : option string) (T : list string) :
  T <> [] -> tags_filter (Some (mkFilters st (Some T))) = Some T.
Proof. destruct T; [contradiction|reflexivity]. Qed.

Lemma status_filter_nonempty (v : string) (t : option (list string)) :
  v <> "" -> status_filter (Some (mkFilters (Some v) t)) = Some v.
Proof. destruct v; [contradiction|reflexivity]. Qed.

(** The statement the join draft sends has no condition, or one on the
    invention alone: when it is accepted, the answer is that of a query over
    the joins with at most a condition on [inventions]. *)
Lemma JoinDraft_query (array_in : string -> option (list string))
    (filters : option Filters) (s : Store) (l : list Listed) :
  JoinDraft.getInventions array_in filters s = Resolved l ->
  l = JoinDraft.run
        (JoinDraft.mkPrepared None
           (Some (fun a b => desc (inv_createdAt a) (inv_createdAt b)))) s \/
  exists p,
    l = JoinDraft.run
          (JoinDraft.mkPrepared
             (Some (fun r => p (JoinDraft.j_inventions r)))
             (Some (fun a b => desc (inv_createdAt a) (inv_createdAt b)))) s.
Proof.
  unfold JoinDraft.getInventions, JoinDraft.execute.
  destruct (tags_filter filters) as [t|].
  - assert (E : JoinDraft.config_where
                  (JoinDraft.orderBy_
                     (JoinDraft.where_
                        match status_filter filters with
                        | Some v =>
                            JoinDraft.where_ (JoinDraft.mkPgSelect None None)
                              (JoinDraft.eq_status v)
                        | None => JoinDraft.mkPgSelect None None
                        end (JoinDraft.tags_overlap t))
                     (fun a b => desc (inv_createdAt a) (inv_createdAt b)))
                = Some (JoinDraft.tags_overlap t))
      by (destruct (status_filter filters); reflexivity).
    rewrite E. simpl.
    destruct t as [|t0 [|t1 rest]]; try discriminate.
    destruct (array_in t0) as [a|]; [|discriminate].
    intros H. injection H as <-. right.
    exists (fun i => JoinDraft.overlap (inv_tags i) a).
    destruct (status_filter filters); reflexivity.
  - destruct (status_filter filters) as [v|]; simpl; intros H;
      injection H as <-.
    + right. exists (fun i => String.eqb (inv_status i) v). reflexivity.
    + left. reflexivity.
Qed.

(** With two tags or more the statement is refused, whatever the store and
    the status filter. *)
Lemma JoinDraft_tag_list (array_in : string -> option (list string))
    (st : option string) (t1 t2 : string) (rest : list string) (s : Store) :
  JoinDraft.getInventions array_in
    (Some (mkFilters st (Some (t1 :: t2 :: rest)))) s
  = Rejected (UndefinedFunction "operator does not exist: text[] && record").
Proof.
  unfold JoinDraft.getInventions, JoinDraft.execute.
  destruct st as [[|c v]|]; reflexivity.
Qed.

(** With one tag the statement runs when PostgreSQL reads the tag as an
    array, with the overlap as its only condition, whatever the status
    filter; and is refused when it does not. *)
Lemma JoinDraft_one_tag (array_in : string -> option (list string))
    (st : option string) (t : string) (a : list string) (s : Store) :
  array_in t = Some a ->
  JoinDraft.getInventions array_in (Some (mkFilters st (Some [t]))) s
  = Resolved
      (JoinDraft.run
         (JoinDraft.mkPrepared
            (Some (fun r => JoinDraft.overlap
                              (inv_tags (JoinDraft.j_inventions r)) a))
            (Some (fun a b => desc (inv_createdAt a) (inv_createdAt b)))) s).
Proof.
  intros H. unfold JoinDraft.getInventions, JoinDraft.execute.
  destruct st as [[|c v]|]; simpl; now rewrite H.
Qed.

Lemma JoinDraft_one_tag_malformed (array_in : string -> option (list string))
    (st : option string) (t : string) (s : Store) :
  array_in t = None ->
  JoinDraft.getInventions array_in (Some (mkFilters st (Some [t]))) s
  = Rejected (InvalidTextRepresentation "malformed array literal").
Proof.
  intros H. unfold JoinDraft.getInventions, JoinDraft.execute.
  destruct st as [[|c v]|]; simpl; now rewrite H.
Qed.

(** ** Tag filter *)

Lemma passes_with_tags (st : option string) (T : list string)
    (inv : LoopDraft.Row) :
  T <> [] ->
  LoopDraft.passes (Some (mkFilters st (Some T))) inv
  = LoopDraft.passes (Some (mkFilters st None)) inv
    && LoopDraft.hasMatchingTag T (inv_tags (LoopDraft.r_inventions inv)).
Proof.
  intros HT. unfold LoopDraft.passes, status_filter, tags_filter. simpl.
  destruct T; [contradiction|]. now rewrite andb_true_r.
Qed.

(** X29. The tag filter of the loop draft is a set overlap: with a non-empty
    list T an invention is in the answer exactly when it is in the answer
    given without tag list (for the same status filter) and at least one of
    its tags is in T; an empty or absent T changes nothing in the answer. *)
Theorem LoopDraft_tag_filter_is_overlap :
  forall (s : Store) (st : option string),
    (forall T r, T <> [] ->
       (In r (LoopDraft.getInventions (Some (mkFilters st (Some T))) s) <->
        In r (LoopDraft.getInventions (Some (mkFilters st None)) s) /\
        shares_tag (inv_tags (invention r)) T)) /\
    LoopDraft.getInventions (Some (mkFilters st (Some []))) s
    = LoopDraft.getInventions (Some (mkFilters st None)) s /\
    LoopDraft.getInventions (Some (mkFilters None None)) s
    = LoopDraft.getInventions None s.
Proof.
  intros s st. split; [|split];
    try (unfold LoopDraft.getInventions; rewrite !loop_filter_map; reflexivity).
  intros T r HT. rewrite !LoopDraft_In. split.
  - intros (inv & Hin & Hp & ->).
    rewrite (passes_with_tags st T inv HT) in Hp. apply andb_prop in Hp.
    destruct Hp as [Hst Htag]. split.
    + now exists inv.
    + now apply hasMatchingTag_shares_tag.
  - intros ((inv & Hin & Hp & ->) & Htag).
    exists inv. split; [exact Hin|]. split; [|reflexivity].
    rewrite (passes_with_tags st T inv HT), Hp. simpl.
    now apply hasMatchingTag_shares_tag.
Qed.

Lemma LoopDraft_tag_filter_is_overlap_witness :
  let x := sample_invention 1 ["AI/ML"; "IoT"] "under_review" "u1" 10 in
  let listed := mkListed x (Some (sample_user "u1")) (mkCounts 0 0 0 0) in
  In listed (LoopDraft.getInventions
               (Some (mkFilters None (Some ["IoT"; "Energy"]))) review_store) /\
  ~ In listed (LoopDraft.getInventions
                 (Some (mkFilters None (Some ["Biotech"]))) review_store).
Proof.
  intros x listed.
  destruct (LoopDraft_tag_filter_is_overlap review_store None) as (Hloop & _).
  assert (Hyes : shares_tag (inv_tags (invention listed)) ["IoT"; "Energy"]).
  { exists "IoT". simpl. auto. }
  assert (Hno : ~ shares_tag (inv_tags (invention listed)) ["Biotech"]).
  { intros (t & [<-|[<-|[]]] & [E|[]]); discriminate. }
  split.
  - apply Hloop; [discriminate|]. split; [|exact Hyes].
    simpl. right. right. left. reflexivity.
  - intros H. apply Hloop in H; [|discriminate]. now apply Hno.
Defined.

(** C5 (code bug, join draft). The tag condition of the grouped query never
    reaches PostgreSQL as an array: a list of two tags or more is refused in
    every store, whatever the status filter, and a single tag is refused
    whenever PostgreSQL does not read it as an array literal.  So for the tags
    ["IoT"; "Energy"] the draft answers nothing, where the invention tagged
    "AI/ML" and "IoT" is due; the loop draft returns that invention, and
    leaves it out for ["Biotech"]. *)
Theorem JoinDraft_tag_filter_refused :
  forall (array_in : string -> option (list string)),
    let x := sample_invention 1 ["AI/ML"; "IoT"] "under_review" "u1" 10 in
    let tagged T := Some (mkFilters None (Some T)) in
    (forall st t1 t2 rest s,
       JoinDraft.getInventions array_in
         (Some (mkFilters st (Some (t1 :: t2 :: rest)))) s
       = Rejected
           (UndefinedFunction "operator does not exist: text[] && record")) /\
    (forall st t s,
       array_in t = None ->
       JoinDraft.getInventions array_in (Some (mkFilters st (Some [t]))) s
       = Rejected (InvalidTextRepresentation "malformed array literal")) /\
    In x (inventions review_store) /\
    JoinDraft.getInventions array_in (tagged ["IoT"; "Energy"]) review_store
    = Rejected
        (UndefinedFunction "operator does not exist: text[] && record") /\
    In x (map invention
            (LoopDraft.getInventions (tagged ["IoT"; "Energy"]) review_store)) /\
    ~ In x (map invention
              (LoopDraft.getInventions (tagged ["Biotech"]) review_store)).
Proof.
  intros array_in x tagged.
  split; [intros; apply JoinDraft_tag_list|].
  split; [intros st t s H; now apply JoinDraft_one_tag_malformed|].
  split; [left; reflexivity|].
  split; [apply JoinDraft_tag_list|].
  split.
  - simpl. right. left. reflexivity.
  - simpl. intros [H|[]]. discriminate.
Qed.

(** ** Status filter *)

(** Every output row of [run] is headed by a joined row that passed the
    WHERE condition. *)
Lemma run_origin (q : JoinDraft.Prepared) (s : Store) (r : Listed) :
  In r (JoinDraft.run q s) ->
  exists m, In m (JoinDraft.from_joins s) /\
            match JoinDraft.prepared_where q with
            | Some c => c m = true
            | None => True
            end /\
            invention r = JoinDraft.j_inventions m /\
            author r = JoinDraft.j_users m.
Proof.
  intros H. apply run_In in H. destruct H as (m & _ & Hr).
  destruct (select_fields_In _ _ Hr) as (m0 & rest & Hg & Hinv & Hau).
  exists m0.
  assert (H0 : In m0 (filter (JoinDraft.in_group (JoinDraft.group_key m))
                        match JoinDraft.prepared_where q with
                        | Some c => filter c (JoinDraft.from_joins s)
                        | None => JoinDraft.from_joins s
                        end))
    by (rewrite Hg; now left).
  apply filter_In in H0. destruct H0 as [H0 _].
  destruct (JoinDraft.prepared_where q) as [c|].
  - apply filter_In in H0. destruct H0 as [H0 Hc]. auto.
  - auto.
Qed.

(** The loop draft applies the status filter together with any tag list. *)
Lemma LoopDraft_status_exact (v : string) (t : option (list string))
    (s : Store) (r : Listed) :
  v <> "" ->
  In r (LoopDraft.getInventions (Some (mkFilters (Some v) t)) s) ->
  inv_status (invention r) = v.
Proof.
  intros Hv Hr. apply LoopDraft_In in Hr. destruct Hr as (inv & _ & Hp & ->).
  unfold LoopDraft.passes in Hp. rewrite (status_filter_nonempty v t Hv) in Hp.
  apply andb_prop in Hp. destruct Hp as [Hst _]. now apply String.eqb_eq.
Qed.

(** So does the join draft when no tag list comes with the status. *)
Lemma JoinDraft_status_alone_exact
    (array_in : string -> option (list string)) (v : string) (s : Store)
    (l : list Listed) (r : Listed) :
  v <> "" ->
  (JoinDraft.getInventions array_in (Some (mkFilters (Some v) None)) s
   = Resolved l \/
   JoinDraft.getInventions array_in (Some (mkFilters (Some v) (Some []))) s
   = Resolved l) ->
  In r l -> inv_status (invention r) = v.
Proof.
  intros Hv Hl Hr.
  assert (H : l = JoinDraft.run
                    (JoinDraft.mkPrepared
                       (Some (fun x => String.eqb
                                (inv_status (JoinDraft.j_inventions x)) v))
                       (Some (fun a b => desc (inv_createdAt a)
                                              (inv_createdAt b)))) s).
  { unfold JoinDraft.getInventions, JoinDraft.execute in Hl.
    rewrite !(status_filter_nonempty v _ Hv) in Hl. simpl in Hl.
    destruct Hl as [Hl|Hl]; now injection Hl. }
  subst l. apply run_origin in Hr. destruct Hr as (m & _ & Hc & Hinv & _).
  simpl in Hc. apply String.eqb_eq in Hc. now rewrite Hinv.
Qed.

(** X30. Where it is applied, the status filter is exact: for a status that
    is not the empty string, every invention the loop draft returns has that
    status, whatever tag list comes with it, and so has every invention in
    an answer the join draft resolves with when no tag list comes with the
    status. *)
Theorem status_filter_exact_where_applied :
  forall (v : string) (s : Store) (r : Listed),
    v <> "" ->
    (forall t,
       In r (LoopDraft.getInventions (Some (mkFilters (Some v) t)) s) ->
       inv_status (invention r) = v) /\
    (forall (array_in : string -> option (list string)) (l : list Listed),
       JoinDraft.getInventions array_in (Some (mkFilters (Some v) None)) s
       = Resolved l ->
       In r l -> inv_status (invention r) = v).
Proof.
  intros v s r Hv. split.
  - intros t Hr. exact (LoopDraft_status_exact v t s r Hv Hr).
  - intros array_in l Hl Hr.
    exact (JoinDraft_status_alone_exact array_in v s l r Hv (or_introl Hl) Hr).
Qed.

Lemma status_filter_exact_where_applied_witness :
  let r := mkListed (sample_invention 2 ["IoT"] "approved" "u1" 20)
                    (Some (sample_user "u1")) (mkCounts 0 0 0 0) in
  "approved" <> "" /\
  In r (LoopDraft.getInventions
          (Some (mkFilters (Some "approved") (Some ["IoT"]))) review_store) /\
  inv_status (invention r) = "approved" /\
  map (fun x => inv_id (invention x))
      (LoopDraft.getInventions (Some (mkFilters (Some "approved") None))
                               review_store)
  = [3; 2]%Z.
Proof.
  intros r.
  assert (Hv : "approved" <> "") by discriminate.
  assert (Hr : In r (LoopDraft.getInventions
                       (Some (mkFilters (Some "approved") (Some ["IoT"])))
                       review_store)) by (left; reflexivity).
  split; [exact Hv|]. split; [exact Hr|].
  split; [|reflexivity].
  exact (proj1 (status_filter_exact_where_applied "approved" review_store r Hv)
           (Some ["IoT"]) Hr).
Defined.

(** C6 (code bug, join draft). A status filter given together with a tag list
    is lost: the second [where] replaces the first.  The loss shows where the
    tag list is accepted, which is for one tag that PostgreSQL reads as an
    array literal: status "approved" with tags ["{IoT}"] answers the
    under-review invention 1 next to the approved invention 2.  The loop
    draft, for status "approved" with tags ["IoT"], answers invention 2
    alone. *)
Theorem JoinDraft_status_filter_lost_with_tags :
  forall (array_in : string -> option (list string)),
    array_in "{IoT}" = Some ["IoT"] ->
    let shown r := (inv_id (invention r), inv_status (invention r)) in
    (exists l,
       JoinDraft.getInventions array_in
         (Some (mkFilters (Some "approved") (Some ["{IoT}"]))) review_store
       = Resolved l /\
       map shown l = [(2%Z, "approved"); (1%Z, "under_review")]) /\
    map shown (LoopDraft.getInventions
                 (Some (mkFilters (Some "approved") (Some ["IoT"])))
                 review_store)
    = [(2%Z, "approved")].
Proof.
  intros array_in H shown. split; [|reflexivity].
  eexists. split; [apply (JoinDraft_one_tag array_in _ _ _ _ H)|].
  reflexivity.
Qed.

Lemma JoinDraft_status_filter_lost_with_tags_witness :
  reads_IoT "{IoT}" = Some ["IoT"] /\
  exists l,
    JoinDraft.getInventions reads_IoT
      (Some (mkFilters (Some "approved") (Some ["{IoT}"]))) review_store
    = Resolved l /\
    map (fun r => (inv_id (invention r), inv_status (invention r))) l
    = [(2%Z, "approved"); (1%Z, "under_review")].
Proof.
  split; [reflexivity|].
  exact (proj1 (JoinDraft_status_filter_lost_with_tags reads_IoT eq_refl)).
Defined.

(** ** Authors *)

(** On a store that breaks the reference from [inventions.author_id] to
    [users.id], which the schema does not admit, the left join answers the
    invention with a null author, where the inner join of the other drafts
    leaves the invention out. *)
Lemma JoinDraft_orphan_has_null_author :
  forall (array_in : string -> option (list string)),
    exists l,
      JoinDraft.getInventions array_in None orphan_store = Resolved l /\
      In (mkListed (sample_invention 1 ["IoT"] "pending" "ghost" 10) None
                   (mkCounts 0 0 0 0)) l.
Proof.
  intros array_in. eexists. split; [reflexivity|].
  simpl. right. left. reflexivity.
Qed.

Lemma JoinDraft_origin (array_in : string -> option (list string))
    (filters : option Filters) (s : Store) (l : list Listed) (r : Listed) :
  JoinDraft.getInventions array_in filters s = Resolved l -> In r l ->
  exists m, In m (JoinDraft.from_joins s) /\
            invention r = JoinDraft.j_inventions m /\
            author r = JoinDraft.j_users m.
Proof.
  intros Hl H.
  destruct (JoinDraft_query array_in filters s l Hl) as [->|(p & ->)];
    apply run_origin in H; destruct H as (m & Hm & _ & Hinv & Hau);
    now exists m.
Qed.

Lemma JoinDraft_author_under_fkey (array_in : string -> option (list string))
    (filters : option Filters) (s : Store) (l : list Listed) (r : Listed) :
  inventions_author_fkey s ->
  JoinDraft.getInventions array_in filters s = Resolved l -> In r l ->
  author r <> None.
Proof.
  intros Hfk Hl Hr.
  destruct (JoinDraft_origin array_in filters s l r Hl Hr)
    as (m & Hm & Hinv & Hau).
  rewrite Hau.
  apply from_joins_In in Hm. destruct Hm as [Hi Hu].
  destruct (JoinDraft.j_users m) as [u|]; [discriminate|].
  apply leftJoin_In in Hu.
  specialize (Hfk _ Hi). unfold has_user in Hfk.
  apply existsb_exists in Hfk. destruct Hfk as (u & Hin & E).
  specialize (Hu u Hin). rewrite String.eqb_sym in Hu. congruence.
Qed.

(** ** Counts *)

(** C1 (code bug, join draft). On the store with 3 like rows (2 true, 1
    false), 4 comments and 2 files for invention 1, the grouped query counts
    each like once per (comment, file) pair and reports likes 16 and dislikes
    8; the true tallies, which the loop draft reports, are 2 and 1. *)
Theorem JoinDraft_counts_multiply_likes :
  forall (array_in : string -> option (list string)),
    tallies counted_store 1 = mkCounts 2 1 4 2 /\
    (exists l,
       JoinDraft.getInventions array_in None counted_store = Resolved l /\
       map (fun r => (inv_id (invention r), _count r)) l
       = [(1%Z, mkCounts 16 8 4 2)]) /\
    map (fun r => (inv_id (invention r), _count r))
        (LoopDraft.getInventions None counted_store)
    = [(1%Z, mkCounts 2 1 4 2)].
Proof.
  intros array_in. split; [reflexivity|]. split; [|reflexivity].
  eexists. split; reflexivity.
Qed.

(** ** The schema's constraints are kept by the writers *)

Lemma NoDup_map_filter {A} (key : A -> Z) (p : A -> bool) (l : list A) :
  NoDup (map key l) -> NoDup (map key (filter p l)).
Proof.
  induction l as [|x t IH]; simpl; intros H; [constructor|].
  inversion H as [|? ? Hx Ht]; subst.
  destruct (p x); simpl; [|now apply IH].
  constructor; [|now apply IH].
  intros Hin. apply Hx. apply in_map_iff in Hin.
  destruct Hin as (y & E & Hy). apply filter_In in Hy.
  rewrite <- E. apply in_map. apply Hy.
Qed.

Lemma NoDup_map_snoc {A} (key : A -> Z) (l : list A) (x : A) :
  NoDup (map key l) ->
  existsb (fun y => Z.eqb (key y) (key x)) l = false ->
  NoDup (map key (l ++ [x])).
Proof.
  induction l as [|y t IH]; simpl; intros H E.
  - constructor; [intros []|constructor].
  - inversion H as [|? ? Hy Ht]; subst.
    apply orb_false_iff in E. destruct E as [Eyx Et].
    constructor; [|now apply IH].
    rewrite map_app, in_app_iff. simpl. intros [Hin|[Hin|[]]].
    + now apply Hy.
    + apply Z.eqb_neq in Eyx. congruence.
Qed.

(** The primary key of [likes] survives every call of toggleLike. *)
Lemma toggleLike_likes_pkey (like : NewLike) (now : Z) (s : Store) :
  likes_pkey s -> likes_pkey (snd (toggleLike like now s)).
Proof.
  unfold likes_pkey. intros H. unfold toggleLike, bind, select_likes.
  destruct (filter _ (likes s)) as [|existing rest].
  - unfold insert_like.
    destruct (existsb _ (likes s)) eqn:E; [exact H|].
    destruct (negb (has_invention _ s)); [exact H|].
    destruct (negb (has_user _ s)); [exact H|].
    simpl. now apply NoDup_map_snoc.
  - destruct (Bool.eqb _ _); simpl.
    + now apply NoDup_map_filter.
    + rewrite map_map.
      erewrite map_ext; [exact H|].
      intros l. destruct (Z.eqb _ _); reflexivity.
Qed.

Lemma createComment_other_tables (comment : NewComment) (now : Z) (s : Store) :
  let s' := snd (createComment comment now s) in
  users s' = users s /\ inventions s' = inventions s /\
  files s' = files s /\ likes s' = likes s.
Proof.
  unfold createComment, bind, insert_comment, select_users_by_id.
  destruct (existsb _ (comments s)); [simpl; auto|].
  destruct (negb (has_invention _ s)); [simpl; auto|].
  destruct (negb (has_user _ s)); simpl; auto.
Qed.

(** No writer leaves an invention without its author's row. *)
Lemma writers_keep_author_fkey (s : Store) :
  inventions_author_fkey s ->
  (forall like now, inventions_author_fkey (snd (toggleLike like now s))) /\
  (forall comment now, inventions_author_fkey (snd (createComment comment now s))) /\
  (forall id st amount now,
     inventions_author_fkey (snd (updateInventionStatus id st amount now s))).
Proof.
  intros H. split; [|split].
  - intros like now i Hi.
    destruct (toggleLike_other_tables like now s) as (Hu & Hinv & _).
    unfold has_user. rewrite Hu. rewrite Hinv in Hi. now apply H.
  - intros comment now i Hi.
    destruct (createComment_other_tables comment now s) as (Hu & Hinv & _).
    unfold has_user. rewrite Hu. rewrite Hinv in Hi. now apply H.
  - intros id st amount now i Hi.
    destruct (integer_or_null amount && integer id) eqn:Hfit;
      [rewrite (updateInventionStatus_bound id st amount now s Hfit) in Hi |- *
      |rewrite (updateInventionStatus_refused id st amount now s Hfit)
         in Hi |- *; now apply H].
    simpl in Hi |- *. apply in_map_iff in Hi. destruct Hi as (i0 & <- & Hi0).
    specialize (H i0 Hi0). unfold has_user in *. simpl.
    destruct (Z.eqb (inv_id i0) id); exact H.
Qed.

(** * Beyond the claims: the rest of the storage layer and its callers *)

(** ** ORDER BY created_at DESC *)

Lemma desc_total (a b : Timestamp) : desc a b = false -> desc b a = true.
Proof.
  destruct a as [x|], b as [y|]; simpl; try discriminate; try reflexivity.
  intros H. apply Z.leb_gt in H. apply Z.leb_le. lia.
Qed.

Lemma desc_trans (a b c : Timestamp) :
  desc a b = true -> desc b c = true -> desc a c = true.
Proof.
  destruct a as [x|], b as [y|], c as [z|]; simpl; try discriminate;
    try reflexivity.
  intros H1 H2. apply Z.leb_le in H1, H2. apply Z.leb_le. lia.
Qed.

Lemma insert_by_sorted {A} (le : A -> A -> bool) (x : A) (l : list A) :
  (forall a b, le a b = false -> le b a = true) ->
  Sorted (fun a b => le a b = true) l ->
  Sorted (fun a b => le a b = true) (insert_by le x l).
Proof.
  intros Htot Hs. induction Hs as [|y t Ht IH Hhd]; simpl.
  - constructor; constructor.
  - destruct (le x y) eqn:E.
    + constructor; [constructor; assumption|constructor; exact E].
    + constructor; [exact IH|].
      destruct t as [|z t']; simpl.
      * constructor. now apply Htot.
      * destruct (le x z); constructor.
        -- now apply Htot.
        -- now inversion Hhd.
Qed.

Lemma orderBy_sorted {A} (le : A -> A -> bool) (l : list A) :
  (forall a b, le a b = false -> le b a = true) ->
  Sorted (fun a b => le a b = true) (orderBy le l).
Proof.
  intros Htot. unfold orderBy. induction l as [|x t IH]; simpl.
  - constructor.
  - now apply insert_by_sorted.
Qed.

Lemma orderBy_newest_first {A} (createdAt : A -> Timestamp) (l : list A) :
  newest_first createdAt
    (orderBy (fun a b => desc (createdAt a) (createdAt b)) l).
Proof.
  apply Sorted_StronglySorted.
  - intros a b c. apply desc_trans.
  - apply orderBy_sorted. intros a b. apply desc_total.
Qed.

Lemma newest_first_filter {A} (createdAt : A -> Timestamp) (p : A -> bool)
    (l : list A) :
  newest_first createdAt l -> newest_first createdAt (filter p l).
Proof.
  unfold newest_first. induction 1 as [|x t Ht IH Hx]; simpl.
  - constructor.
  - destruct (p x); [|exact IH]. constructor; [exact IH|].
    apply Forall_forall. intros y Hy. apply filter_In in Hy.
    rewrite Forall_forall in Hx. apply Hx, Hy.
Qed.

Lemma newest_first_map {A B} (f : A -> B) (createdAt : B -> Timestamp)
    (l : list A) :
  newest_first (fun a => createdAt (f a)) l ->
  newest_first createdAt (map f l).
Proof.
  unfold newest_first. induction 1 as [|x t Ht IH Hx]; simpl.
  - constructor.
  - constructor; [exact IH|]. apply Forall_forall. intros y Hy.
    apply in_map_iff in Hy. destruct Hy as (a & <- & Ha).
    rewrite Forall_forall in Hx. now apply Hx.
Qed.

Lemma InnerJoin_loop_filter_map (filters : option Filters) (s : Store)
    (rows : list LoopDraft.Row) :
  InnerJoin.loop filters s rows
  = map (fun inv =>
           mkInventionDetail (LoopDraft.r_inventions inv)
             (Some (LoopDraft.r_users inv))
             (getFilesByInvention (inv_id (LoopDraft.r_inventions inv)) s)
             (InnerJoin.getCommentsByInvention
                (inv_id (LoopDraft.r_inventions inv)) s)
             (likesByInvention (inv_id (LoopDraft.r_inventions inv)) s))
        (filter (LoopDraft.passes filters) rows).
Proof.
  induction rows as [|inv rest IH]; simpl; [reflexivity|].
  unfold LoopDraft.passes at 1.
  destruct (status_filter filters) as [v|];
    destruct (tags_filter filters) as [t|]; simpl;
    try destruct (String.eqb _ v); simpl;
    try destruct (LoopDraft.hasMatchingTag t _); simpl;
    rewrite IH; reflexivity.
Qed.

(** X1. Every draft of getInventions answers newest first: for any filters
    and any store, each returned invention was created no earlier than all
    that follow it (for the join draft: in every answer it resolves
    with). *)
Theorem getInventions_newest_first :
  forall (filters : option Filters) (s : Store),
    (forall (array_in : string -> option (list string)) (l : list Listed),
       JoinDraft.getInventions array_in filters s = Resolved l ->
       newest_first (fun r => inv_createdAt (invention r)) l) /\
    newest_first (fun r => inv_createdAt (invention r))
                 (LoopDraft.getInventions filters s) /\
    newest_first (fun d => inv_createdAt (d_invention d))
                 (InnerJoin.getInventions filters s).
Proof.
  intros filters s. split; [|split].
  - intros array_in l Hl.
    destruct (JoinDraft_query array_in filters s l Hl) as [->|(p & ->)];
      unfold JoinDraft.run; simpl;
      apply (orderBy_newest_first (fun r => inv_createdAt (invention r))).
  - unfold LoopDraft.getInventions. rewrite loop_filter_map.
    apply newest_first_map. simpl. apply newest_first_filter.
    apply (orderBy_newest_first
             (fun a => inv_createdAt (LoopDraft.r_inventions a))).
  - unfold InnerJoin.getInventions. rewrite InnerJoin_loop_filter_map.
    apply newest_first_map. simpl. apply newest_first_filter.
    apply (orderBy_newest_first
             (fun a => inv_createdAt (LoopDraft.r_inventions a))).
Qed.

(** X2. getCommentsByInvention answers the comments of the asked invention
    only, newest first, in both its drafts; the inner-join draft gives every
    comment an author. *)
Theorem getCommentsByInvention_sorted_and_scoped :
  forall (inventionId : Z) (s : Store),
    newest_first (fun r => comment_createdAt (cwa_comment r))
                 (LeftJoin.getCommentsByInvention inventionId s) /\
    newest_first (fun r => comment_createdAt (cwa_comment r))
                 (InnerJoin.getCommentsByInvention inventionId s) /\
    (forall r, In r (LeftJoin.getCommentsByInvention inventionId s) ->
       In (cwa_comment r) (comments s) /\
       comment_inventionId (cwa_comment r) = inventionId) /\
    (forall r, In r (InnerJoin.getCommentsByInvention inventionId s) ->
       In (cwa_comment r) (comments s) /\
       comment_inventionId (cwa_comment r) = inventionId /\
       exists u, cwa_author r = Some u /\ In u (users s) /\
                 user_id u = comment_authorId (cwa_comment r)).
Proof.
  intros inventionId s. split; [|split; [|split]].
  - apply (orderBy_newest_first
             (fun r => comment_createdAt (cwa_comment r))).
  - unfold InnerJoin.getCommentsByInvention. apply newest_first_map. simpl.
    apply (orderBy_newest_first (fun a => comment_createdAt (fst a))).
  - intros r Hr. unfold LeftJoin.getCommentsByInvention in Hr.
    apply orderBy_In, filter_In in Hr. destruct Hr as [Hr Hid].
    apply Z.eqb_eq in Hid. split; [|exact Hid].
    apply in_flat_map in Hr. destruct Hr as (c & Hc & Hr).
    apply in_map_iff in Hr. destruct Hr as (o & <- & _). exact Hc.
  - intros r Hr. unfold InnerJoin.getCommentsByInvention in Hr.
    apply in_map_iff in Hr. destruct Hr as ([c u] & <- & Hr).
    apply orderBy_In, filter_In in Hr. destruct Hr as [Hr Hid].
    apply Z.eqb_eq in Hid. simpl in *.
    apply in_flat_map in Hr. destruct Hr as (c0 & Hc & Hr).
    apply in_map_iff in Hr. destruct Hr as (u0 & E & Hu).
    injection E as -> ->. apply filter_In in Hu. destruct Hu as [Hu Eq].
    apply String.eqb_eq in Eq.
    split; [exact Hc|]. split; [exact Hid|]. exists u. auto.
Qed.

(** ** getInvention *)

Lemma key_identifies {A K} (key : A -> K) (l : list A) (a b : A) :
  NoDup (map key l) -> In a l -> In b l -> key a = key b -> a = b.
Proof.
  induction l as [|x t IH]; simpl; intros Hnd Ha Hb Hk; [contradiction|].
  inversion Hnd as [|? ? Hx Ht]; subst.
  destruct Ha as [->|Ha]; destruct Hb as [->|Hb]; auto.
  - exfalso. apply Hx. rewrite Hk. now apply in_map.
  - exfalso. apply Hx. rewrite <- Hk. now apply in_map.
Qed.

Lemma hd_filter_In {A} (p : A -> bool) (l : list A) (x : A) (t : list A) :
  filter p l = x :: t -> In x l /\ p x = true.
Proof. intros H. apply filter_In. rewrite H. now left. Qed.

Lemma filter_nil_iff {A} (p : A -> bool) (l : list A) :
  filter p l = [] <-> forall x, In x l -> p x = false.
Proof.
  split.
  - intros H x Hx. destruct (p x) eqn:E; [|reflexivity].
    assert (Hin : In x (filter p l)) by (apply filter_In; auto).
    rewrite H in Hin. destruct Hin.
  - induction l as [|y t IH]; simpl; intros H; [reflexivity|].
    rewrite (H y (or_introl eq_refl)). apply IH. intros x Hx. apply H. now right.
Qed.

(** The comments the inner join answers for an invention: its comments
    whose author has a row, each with that row. *)
Lemma InnerJoin_comments_In (id : Z) (s : Store) (r : CommentWithAuthor) :
  In r (InnerJoin.getCommentsByInvention id s) <->
  exists c u, r = mkCommentWithAuthor c (Some u) /\
              In c (comments s) /\ comment_inventionId c = id /\
              In u (users s) /\ user_id u = comment_authorId c.
Proof.
  unfold InnerJoin.getCommentsByInvention. rewrite in_map_iff. split.
  - intros ([c u] & <- & Hr).
    apply orderBy_In, filter_In in Hr. destruct Hr as [Hr Hid].
    apply Z.eqb_eq in Hid. simpl in *.
    apply in_flat_map in Hr. destruct Hr as (c0 & Hc & Hr).
    apply in_map_iff in Hr. destruct Hr as (u0 & E & Hu).
    injection E as -> ->. apply filter_In in Hu. destruct Hu as [Hu Eq].
    apply String.eqb_eq in Eq. exists c, u. auto.
  - intros (c & u & -> & Hc & Hid & Hu & E).
    exists (c, u). split; [reflexivity|].
    apply orderBy_In, filter_In. simpl. split; [|now apply Z.eqb_eq].
    apply in_flat_map. exists c. split; [exact Hc|].
    apply in_map. apply filter_In. split; [exact Hu|].
    apply String.eqb_eq. now symmetry.
Qed.

(** X3. getInvention of the inner-join drafts, for an id that fits an
    integer column, answers "not found" exactly when no invention with the
    asked id has its author's row, so also for an invention that exists but
    whose author row is missing; what it answers otherwise is an invention of
    the table with that id, an author whose id is the invention's
    [authorId], the files and likes of that invention and no others, and as
    comments, newest first, the comments of that invention whose author has
    a row, each with its author. *)
Theorem InnerJoin_getInvention_found :
  forall (id : Z) (s : Store),
    integer id = true ->
    (InnerJoin.getInvention id s = None <->
     forall i u, In i (inventions s) -> In u (users s) ->
                 inv_id i = id -> inv_authorId i <> user_id u) /\
    (forall d, InnerJoin.getInvention id s = Some d ->
       In (d_invention d) (inventions s) /\
       inv_id (d_invention d) = id /\
       (exists u, d_author d = Some u /\ In u (users s) /\
                  user_id u = inv_authorId (d_invention d)) /\
       (forall f, In f (d_files d) <->
                  In f (files s) /\ file_inventionId f = id) /\
       (forall l, In l (d_likes d) <->
                  In l (likes s) /\ like_inventionId l = id) /\
       newest_first (fun r => comment_createdAt (cwa_comment r))
                    (d_comments d) /\
       (forall r, In r (d_comments d) <->
          exists c u, r = mkCommentWithAuthor c (Some u) /\
                      In c (comments s) /\ comment_inventionId c = id /\
                      In u (users s) /\ user_id u = comment_authorId c)).
Proof.
  intros id s _. unfold InnerJoin.getInvention. split.
  - destruct (filter _ (LoopDraft.innerJoin s)) as [|r rest] eqn:Hf.
    + split; [|reflexivity]. intros _ i u Hi Hu Hid E.
      rewrite filter_nil_iff in Hf.
      specialize (Hf (LoopDraft.mkRow i u)). simpl in Hf.
      rewrite Hid, Z.eqb_refl in Hf.
      assert (Hin : In (LoopDraft.mkRow i u) (LoopDraft.innerJoin s))
        by (apply innerJoin_In; simpl; auto).
      specialize (Hf Hin). discriminate.
    + split; [discriminate|]. intros H. exfalso.
      destruct (hd_filter_In _ _ _ _ Hf) as [Hin Hid].
      apply Z.eqb_eq in Hid. apply innerJoin_In in Hin.
      destruct Hin as (Hi & Hu & E). exact (H _ _ Hi Hu Hid E).
  - intros d Hd.
    destruct (filter _ (LoopDraft.innerJoin s)) as [|r rest] eqn:Hf;
      [discriminate|].
    injection Hd as <-. simpl.
    destruct (hd_filter_In _ _ _ _ Hf) as [Hin Hid].
    apply Z.eqb_eq in Hid. apply innerJoin_In in Hin.
    destruct Hin as (Hi & Hu & E).
    split; [exact Hi|]. split; [exact Hid|].
    split; [exists (LoopDraft.r_users r); auto|].
    split; [|split; [|split]].
    + intros f. unfold getFilesByInvention. rewrite filter_In, Z.eqb_eq.
      reflexivity.
    + intros l. unfold likesByInvention. rewrite filter_In, Z.eqb_eq.
      reflexivity.
    + unfold InnerJoin.getCommentsByInvention. apply newest_first_map. simpl.
      apply (orderBy_newest_first (fun a => comment_createdAt (fst a))).
    + intros c. apply InnerJoin_comments_In.
Qed.

Lemma InnerJoin_getInvention_found_witness :
  (InnerJoin.getInvention 1 orphan_store = None /\
   exists i, In i (inventions orphan_store) /\ inv_id i = 1%Z) /\
  (exists d, InnerJoin.getInvention 2 orphan_store = Some d /\
             inv_id (d_invention d) = 2%Z /\
             d_author d = Some (sample_user "u1")).
Proof.
  destruct (InnerJoin_getInvention_found 1 orphan_store eq_refl) as [Hnone _].
  destruct (InnerJoin_getInvention_found 2 orphan_store eq_refl) as [_ Hsome].
  split.
  - split.
    + apply Hnone. intros i u Hi Hu Hid E. simpl in Hi, Hu.
      destruct Hu as [<-|[]].
      destruct Hi as [<-|[<-|[]]]; simpl in *; discriminate.
    + eexists. split; [left; reflexivity|reflexivity].
  - eexists. split; [reflexivity|].
    split; [exact (proj1 (proj2 (Hsome _ eq_refl)))|reflexivity].
Defined.

(** The left-join drafts and the inner-join drafts on a store that keeps its
    references. *)

Lemma leftJoin_matched {B} (on : B -> bool) (table : list B) :
  existsb on table = true ->
  JoinDraft.leftJoin on table = map Some (filter on table).
Proof.
  intros H. unfold JoinDraft.leftJoin.
  destruct (filter on table) as [|b t] eqn:Hf; [|reflexivity].
  apply existsb_exists in H. destruct H as (x & Hx & Hon).
  rewrite filter_nil_iff in Hf. rewrite (Hf x Hx) in Hon. discriminate.
Qed.

Lemma has_user_existsb (id : string) (s : Store) :
  has_user id s = true ->
  existsb (fun u => String.eqb id (user_id u)) (users s) = true.
Proof.
  unfold has_user. rewrite !existsb_exists. intros (u & Hu & E).
  exists u. split; [exact Hu|]. now rewrite String.eqb_sym.
Qed.

Lemma insert_by_map {A B} (f : A -> B) (le : B -> B -> bool) (x : A)
    (l : list A) :
  insert_by le (f x) (map f l)
  = map f (insert_by (fun a b => le (f a) (f b)) x l).
Proof.
  induction l as [|y t IH]; simpl; [reflexivity|].
  destruct (le (f x) (f y)); simpl; [reflexivity|]. now rewrite IH.
Qed.

Lemma orderBy_map {A B} (f : A -> B) (le : B -> B -> bool) (l : list A) :
  orderBy le (map f l) = map f (orderBy (fun a b => le (f a) (f b)) l).
Proof.
  unfold orderBy. induction l as [|x t IH]; simpl; [reflexivity|].
  rewrite IH. apply insert_by_map.
Qed.

Lemma filter_map_comm {A B} (f : A -> B) (p : B -> bool) (l : list A) :
  filter p (map f l) = map f (filter (fun a => p (f a)) l).
Proof.
  induction l as [|x t IH]; simpl; [reflexivity|].
  destruct (p (f x)); simpl; now rewrite IH.
Qed.

Lemma flat_map_map {A B C} (f : A -> list B) (g : B -> C) (l : list A) :
  flat_map (fun a => map g (f a)) l = map g (flat_map f l).
Proof.
  induction l as [|x t IH]; simpl; [reflexivity|].
  now rewrite IH, map_app.
Qed.

Lemma flat_map_agree {A B} (f g : A -> list B) (l : list A) :
  (forall a, In a l -> f a = g a) -> flat_map f l = flat_map g l.
Proof.
  induction l as [|x t IH]; simpl; intros H; [reflexivity|].
  rewrite (H x (or_introl eq_refl)), IH; [reflexivity|].
  intros a Ha. apply H. now right.
Qed.

Lemma getCommentsByInvention_agree (id : Z) (s : Store) :
  comments_author_fkey s ->
  LeftJoin.getCommentsByInvention id s = InnerJoin.getCommentsByInvention id s.
Proof.
  intros Hfk.
  unfold LeftJoin.getCommentsByInvention, InnerJoin.getCommentsByInvention.
  rewrite (flat_map_agree _
             (fun c => map (fun item => mkCommentWithAuthor (fst item)
                                          (Some (snd item)))
                           (map (pair c)
                                (filter (fun u => String.eqb (comment_authorId c)
                                                             (user_id u))
                                        (users s))))).
  - rewrite (flat_map_map
               (fun c => map (pair c)
                             (filter (fun u => String.eqb (comment_authorId c)
                                                          (user_id u))
                                     (users s)))
               (fun item => mkCommentWithAuthor (fst item) (Some (snd item)))).
    rewrite filter_map_comm, orderBy_map. reflexivity.
  - intros c Hc.
    rewrite (leftJoin_matched _ _ (has_user_existsb _ s (Hfk c Hc))).
    rewrite !map_map. reflexivity.
Qed.

(** X4. On a store that keeps the references of inventions and comments to
    their authors, the left-join draft of getInvention and of
    getCommentsByInvention answers exactly what the inner-join draft
    answers. *)
Theorem getInvention_drafts_agree :
  forall (id : Z) (s : Store),
    inventions_author_fkey s -> comments_author_fkey s ->
    LeftJoin.getInvention id s = InnerJoin.getInvention id s /\
    LeftJoin.getCommentsByInvention id s
    = InnerJoin.getCommentsByInvention id s.
Proof.
  intros id s Hi Hc. split; [|now apply getCommentsByInvention_agree].
  unfold LeftJoin.getInvention, InnerJoin.getInvention, LoopDraft.innerJoin.
  rewrite (getCommentsByInvention_agree id s Hc).
  rewrite (flat_map_agree _
             (fun i => map (fun r => (LoopDraft.r_inventions r,
                                      Some (LoopDraft.r_users r)))
                           (map (LoopDraft.mkRow i)
                                (filter (fun u => String.eqb (inv_authorId i)
                                                             (user_id u))
                                        (users s))))).
  - rewrite (flat_map_map
               (fun i => map (LoopDraft.mkRow i)
                             (filter (fun u => String.eqb (inv_authorId i)
                                                          (user_id u))
                                     (users s)))
               (fun r => (LoopDraft.r_inventions r, Some (LoopDraft.r_users r)))).
    rewrite filter_map_comm. simpl.
    destruct (filter _ (flat_map _ (inventions s))) as [|r rest];
      reflexivity.
  - intros i Hin.
    rewrite (leftJoin_matched _ _ (has_user_existsb _ s (Hi i Hin))).
    rewrite !map_map. reflexivity.
Qed.

Lemma getInvention_drafts_agree_witness :
  inventions_author_fkey counted_store /\ comments_author_fkey counted_store /\
  LeftJoin.getInvention 1 counted_store = InnerJoin.getInvention 1 counted_store /\
  LeftJoin.getCommentsByInvention 1 counted_store
  = InnerJoin.getCommentsByInvention 1 counted_store /\
  map (fun r => comment_id (cwa_comment r))
      (LeftJoin.getCommentsByInvention 1 counted_store) = [4; 3; 2; 1]%Z.
Proof.
  assert (Hi : inventions_author_fkey counted_store).
  { intros i H. simpl in H. destruct H as [<-|[]]. reflexivity. }
  assert (Hc : comments_author_fkey counted_store).
  { intros c H. simpl in H.
    destruct H as [<-|[<-|[<-|[<-|[]]]]]; reflexivity. }
  destruct (getInvention_drafts_agree 1 counted_store Hi Hc) as [H1 H2].
  repeat split; assumption || reflexivity.
Defined.

(** ** The list view against the detail view *)

Lemma insert_by_length {A} (le : A -> A -> bool) (x : A) (l : list A) :
  List.length (insert_by le x l) = S (List.length l).
Proof.
  induction l as [|y t IH]; simpl; [reflexivity|].
  destruct (le x y); simpl; [reflexivity|]. now rewrite IH.
Qed.

Lemma orderBy_length {A} (le : A -> A -> bool) (l : list A) :
  List.length (orderBy le l) = List.length l.
Proof.
  unfold orderBy. induction l as [|x t IH]; simpl; [reflexivity|].
  now rewrite insert_by_length, IH.
Qed.

Lemma filter_andb {A} (p q : A -> bool) (l : list A) :
  filter (fun x => p x && q x) l = filter q (filter p l).
Proof.
  induction l as [|x t IH]; simpl; [reflexivity|].
  destruct (p x); simpl; [destruct (q x)|]; now rewrite IH.
Qed.

Lemma filter_partition_length {A} (p : A -> bool) (l : list A) :
  (List.length (filter p l) + List.length (filter (fun x => negb (p x)) l)
   = List.length l)%nat.
Proof.
  induction l as [|x t IH]; simpl; [reflexivity|].
  destruct (p x); simpl; lia.
Qed.

(** Under the primary key of [users] an id matches one row at most. *)
Lemma users_pkey_one_match (id : string) (l : list User) :
  NoDup (map user_id l) ->
  (List.length (filter (fun u => String.eqb id (user_id u)) l) <= 1)%nat.
Proof.
  induction l as [|u t IH]; simpl; intros H; [lia|].
  inversion H as [|? ? Hu Ht]; subst.
  destruct (String.eqb id (user_id u)) eqn:E; [|now apply IH].
  apply String.eqb_eq in E. simpl.
  rewrite (proj2 (filter_nil_iff _ t)); [simpl; lia|].
  intros x Hx. apply String.eqb_neq. intros E'. apply Hu.
  rewrite <- E, E'. now apply in_map.
Qed.

Lemma one_author_row (id : string) (s : Store) :
  users_pkey s -> has_user id s = true ->
  List.length (filter (fun u => String.eqb id (user_id u)) (users s)) = 1%nat.
Proof.
  intros Hpk Hu.
  pose proof (users_pkey_one_match id (users s) Hpk) as Hle.
  apply has_user_existsb, existsb_exists in Hu. destruct Hu as (u & Hin & E).
  assert (Hf : In u (filter (fun u => String.eqb id (user_id u)) (users s)))
    by (apply filter_In; auto).
  destruct (filter _ (users s)) as [|a [|b t]]; simpl in *; [contradiction|lia|lia].
Qed.

Lemma joined_rows_length {A B} (p : A -> bool) (m : A -> list B) (l : list A) :
  (forall a, In a l -> List.length (m a) = 1%nat) ->
  List.length (filter (fun r => p (fst r))
                 (flat_map (fun a => map (pair a) (m a)) l))
  = List.length (filter p l).
Proof.
  induction l as [|a t IH]; simpl; intros H; [reflexivity|].
  rewrite filter_app, length_app, IH by (intros x Hx; apply H; now right).
  rewrite filter_map_comm. simpl.
  specialize (H a (or_introl eq_refl)).
  destruct (p a); simpl.
  - rewrite (filter_all (fun _ => true)) by reflexivity.
    now rewrite length_map, H.
  - rewrite (proj2 (filter_nil_iff (fun _ => false) (m a))) by reflexivity.
    reflexivity.
Qed.

Lemma InnerJoin_comments_length (id : Z) (s : Store) :
  users_pkey s -> comments_author_fkey s ->
  List.length (InnerJoin.getCommentsByInvention id s) = tally_comments s id.
Proof.
  intros Hpk Hfk. unfold InnerJoin.getCommentsByInvention, tally_comments.
  rewrite length_map, orderBy_length.
  apply (joined_rows_length (fun c => Z.eqb (comment_inventionId c) id)).
  intros c Hc. apply one_author_row; [exact Hpk|now apply Hfk].
Qed.

(** X5. The counts of the list view are the sizes of what the detail view
    shows: for every invention the loop draft lists, [files] is the number of
    files getFilesByInvention answers, [likes] and [dislikes] are the numbers
    of likes and dislikes among the like rows of the detail (which the detail
    page counts itself) and add up to their number, and, where users have
    their primary key and comments their author, [comments] is the number of
    comments getCommentsByInvention answers, in either draft. *)
Theorem list_counts_are_detail_sizes :
  forall (filters : option Filters) (s : Store) (r : Listed),
    In r (LoopDraft.getInventions filters s) ->
    let id := inv_id (invention r) in
    let c := _count r in
    count_files c = List.length (getFilesByInvention id s) /\
    count_likes c = List.length (filter like_isLike (likesByInvention id s)) /\
    count_dislikes c
    = List.length (filter (fun l => negb (like_isLike l))
                          (likesByInvention id s)) /\
    (count_likes c + count_dislikes c
     = List.length (likesByInvention id s))%nat /\
    (users_pkey s -> comments_author_fkey s ->
     count_comments c = List.length (InnerJoin.getCommentsByInvention id s) /\
     count_comments c = List.length (LeftJoin.getCommentsByInvention id s)).
Proof.
  intros filters s r Hr id c.
  destruct (LoopDraft_counts_are_tallies s) as [Hcount _].
  destruct (Hcount filters r Hr) as [_ Hc]. unfold c, id. rewrite Hc. simpl.
  unfold tally_likes, tally_dislikes, likesByInvention.
  rewrite !filter_andb.
  split; [reflexivity|]. split; [reflexivity|]. split; [reflexivity|].
  split; [apply filter_partition_length|].
  intros Hpk Hfk.
  rewrite (getCommentsByInvention_agree _ s Hfk).
  now rewrite InnerJoin_comments_length.
Qed.

Lemma list_counts_are_detail_sizes_witness :
  let r := mkListed (sample_invention 1 ["AI/ML"; "IoT"] "pending" "u1" 10)
                    (Some (sample_user "u1")) (mkCounts 2 1 4 2) in
  In r (LoopDraft.getInventions None counted_store) /\
  users_pkey counted_store /\ comments_author_fkey counted_store /\
  List.length (getFilesByInvention 1 counted_store) = 2%nat /\
  List.length (filter like_isLike (likesByInvention 1 counted_store)) = 2%nat /\
  List.length (InnerJoin.getCommentsByInvention 1 counted_store) = 4%nat /\
  List.length (LeftJoin.getCommentsByInvention 1 counted_store) = 4%nat.
Proof.
  intros r.
  assert (Hr : In r (LoopDraft.getInventions None counted_store))
    by (left; reflexivity).
  assert (Hpk : users_pkey counted_store).
  { unfold users_pkey. simpl.
    repeat constructor; simpl; intuition discriminate. }
  assert (Hfk : comments_author_fkey counted_store).
  { intros c H. simpl in H.
    destruct H as [<-|[<-|[<-|[<-|[]]]]]; reflexivity. }
  destruct (list_counts_are_detail_sizes None counted_store r Hr)
    as (Hf & Hl & _ & _ & Hc).
  destruct (Hc Hpk Hfk) as [Hci Hcl].
  split; [exact Hr|]. split; [exact Hpk|]. split; [exact Hfk|].
  split; [symmetry; exact Hf|]. split; [symmetry; exact Hl|].
  split; symmetry; assumption.
Defined.

(** ** The second draft of storage.ts *)

Lemma InnerJoin_getInventions_In (filters : option Filters) (s : Store)
    (d : InventionDetail) :
  In d (InnerJoin.getInventions filters s) ->
  exists inv, In inv (LoopDraft.innerJoin s) /\
              LoopDraft.passes filters inv = true /\
              d = mkInventionDetail (LoopDraft.r_inventions inv)
                    (Some (LoopDraft.r_users inv))
                    (getFilesByInvention (inv_id (LoopDraft.r_inventions inv)) s)
                    (InnerJoin.getCommentsByInvention
                       (inv_id (LoopDraft.r_inventions inv)) s)
                    (likesByInvention (inv_id (LoopDraft.r_inventions inv)) s).
Proof.
  unfold InnerJoin.getInventions, LoopDraft.allInventions.
  rewrite InnerJoin_loop_filter_map, in_map_iff.
  intros (inv & <- & Hin). apply filter_In in Hin. destruct Hin as [Hin Hp].
  apply orderBy_In in Hin. now exists inv.
Qed.

(** X6. The draft of getInventions that answers full details selects the
    same inventions with the same authors, in the same order, as the draft
    that answers counts, for every filter and store. *)
Theorem detail_list_selects_as_count_list :
  forall (filters : option Filters) (s : Store),
    map (fun d => (d_invention d, d_author d))
        (InnerJoin.getInventions filters s)
    = map (fun r => (invention r, author r))
          (LoopDraft.getInventions filters s).
Proof.
  intros filters s.
  unfold InnerJoin.getInventions, LoopDraft.getInventions.
  rewrite InnerJoin_loop_filter_map, loop_filter_map, !map_map. reflexivity.
Qed.

(** X7. Where inventions and users have their primary keys, every element of
    the detailed list is what getInvention answers for its id: the list is
    the per-id detail fetch, invention by invention. *)
Theorem detail_list_elements_are_getInvention :
  forall (filters : option Filters) (s : Store) (d : InventionDetail),
    inventions_pkey s -> users_pkey s ->
    In d (InnerJoin.getInventions filters s) ->
    InnerJoin.getInvention (inv_id (d_invention d)) s = Some d.
Proof.
  intros filters s d Hipk Hupk Hd.
  apply InnerJoin_getInventions_In in Hd.
  destruct Hd as (inv & Hin & _ & ->). simpl.
  unfold InnerJoin.getInvention.
  destruct (filter _ (LoopDraft.innerJoin s)) as [|r0 rest] eqn:Hf.
  - rewrite filter_nil_iff in Hf. specialize (Hf inv Hin).
    rewrite Z.eqb_refl in Hf. discriminate.
  - destruct (hd_filter_In _ _ _ _ Hf) as [Hin0 Hid]. apply Z.eqb_eq in Hid.
    apply innerJoin_In in Hin. destruct Hin as (Hi & Hu & E).
    apply innerJoin_In in Hin0. destruct Hin0 as (Hi0 & Hu0 & E0).
    assert (Einv : LoopDraft.r_inventions r0 = LoopDraft.r_inventions inv)
      by (apply (key_identifies inv_id (inventions s)); assumption).
    assert (Eusr : LoopDraft.r_users r0 = LoopDraft.r_users inv).
    { apply (key_identifies user_id (users s)); try assumption.
      now rewrite <- E0, <- E, Einv. }
    now rewrite Einv, Eusr.
Qed.

Lemma detail_list_elements_are_getInvention_witness :
  inventions_pkey counted_store /\ users_pkey counted_store /\
  exists d, In d (InnerJoin.getInventions None counted_store) /\
            InnerJoin.getInvention 1 counted_store = Some d /\
            List.length (d_comments d) = 4%nat.
Proof.
  assert (Hipk : inventions_pkey counted_store).
  { unfold inventions_pkey. simpl. repeat constructor. intros []. }
  assert (Hupk : users_pkey counted_store).
  { unfold users_pkey. simpl.
    repeat constructor; simpl; intuition discriminate. }
  split; [exact Hipk|]. split; [exact Hupk|].
  eexists. split; [left; reflexivity|].
  split; [|reflexivity].
  exact (detail_list_elements_are_getInvention None counted_store _
           Hipk Hupk (or_introl eq_refl)).
Defined.

(** ** updateInventionStatus and its route *)

Lemma set_inventions_same (s : Store) : set_inventions s (inventions s) = s.
Proof. destruct s; reflexivity. Qed.

Lemma map_unmatched {A} (c : A -> bool) (g : A -> A) (l : list A) :
  (forall x, In x l -> c x = false) ->
  map (fun x => if c x then g x else x) l = l.
Proof.
  induction l as [|x t IH]; simpl; intros H; [reflexivity|].
  rewrite (H x (or_introl eq_refl)). f_equal. apply IH.
  intros y Hy. apply H. now right.
Qed.

Lemma updateInventionStatus_unknown_id (id : Z) (st : string)
    (amount : option Z) (now : Z) (s : Store) :
  integer id = true -> integer_or_null amount = true ->
  (forall i, In i (inventions s) -> inv_id i <> id) ->
  updateInventionStatus id st amount now s = (Resolved None, s).
Proof.
  intros Hid Ham H.
  assert (Hc : forall i, In i (inventions s) -> Z.eqb (inv_id i) id = false)
    by (intros i Hi; apply Z.eqb_neq; now apply H).
  rewrite updateInventionStatus_bound by (now rewrite Hid, Ham).
  rewrite (proj2 (filter_nil_iff _ _) Hc), (map_unmatched _ _ _ Hc).
  simpl. now rewrite set_inventions_same.
Qed.

Lemma updateInventionStatus_known_id (id : Z) (st : string)
    (amount : option Z) (now : Z) (s : Store) :
  integer id = true -> integer_or_null amount = true ->
  (exists i, In i (inventions s) /\ inv_id i = id) ->
  exists updated,
    fst (updateInventionStatus id st amount now s) = Resolved (Some updated) /\
    inv_id updated = id /\ inv_status updated = st.
Proof.
  intros Hid Ham (i & Hi & Hidi).
  rewrite updateInventionStatus_bound by (now rewrite Hid, Ham).
  destruct (filter (fun i => Z.eqb (inv_id i) id) (inventions s))
    as [|i0 rest] eqn:Hf.
  - rewrite filter_nil_iff in Hf. specialize (Hf i Hi).
    rewrite Hidi, Z.eqb_refl in Hf. discriminate.
  - destruct (hd_filter_In _ _ _ _ Hf) as [_ Hid0]. apply Z.eqb_eq in Hid0.
    simpl. eexists. split; [reflexivity|]. simpl. auto.
Qed.

Lemma updateInventionStatus_out_of_range (id : Z) (st : string)
    (amount : option Z) (now : Z) (s : Store) :
  integer id = false \/ integer_or_null amount = false ->
  updateInventionStatus id st amount now s
  = (Rejected (NumericValueOutOfRange "integer"), s).
Proof.
  intros H. apply updateInventionStatus_refused.
  destruct H as [H|H]; rewrite H; [apply andb_false_r|reflexivity].
Qed.

(** X8. updateInventionStatus, for an id and an amount (if any) that fit an
    integer column, answers "not found" when no invention has the id, and
    then the store is left as it was, and otherwise answers an invention with
    that id and the new status; for an id or an amount out of that range the
    call rejects and the store is left as it was. *)
Theorem updateInventionStatus_not_found :
  forall (id : Z) (st : string) (amount : option Z) (now : Z) (s : Store),
    (integer id = true -> integer_or_null amount = true ->
     ((forall i, In i (inventions s) -> inv_id i <> id) ->
      updateInventionStatus id st amount now s = (Resolved None, s)) /\
     ((exists i, In i (inventions s) /\ inv_id i = id) ->
      exists updated,
        fst (updateInventionStatus id st amount now s)
        = Resolved (Some updated) /\
        inv_id updated = id /\ inv_status updated = st)) /\
    (integer id = false \/ integer_or_null amount = false ->
     exists e, updateInventionStatus id st amount now s = (Rejected e, s)).
Proof.
  intros id st amount now s. split.
  - intros Hid Ham. split.
    + now apply updateInventionStatus_unknown_id.
    + now apply updateInventionStatus_known_id.
  - intros H. eexists. now apply updateInventionStatus_out_of_range.
Qed.

Lemma updateInventionStatus_not_found_witness :
  (forall i, In i (inventions review_store) -> inv_id i <> 7%Z) /\
  updateInventionStatus 7 "approved" (Some 100%Z) 99%Z review_store
  = (Resolved None, review_store) /\
  (exists i, In i (inventions review_store) /\ inv_id i = 2%Z) /\
  (exists updated,
     fst (updateInventionStatus 2 "rejected" None 99%Z review_store)
     = Resolved (Some updated) /\
     inv_id updated = 2%Z /\ inv_status updated = "rejected") /\
  integer_or_null (Some 3000000000%Z) = false /\
  exists e,
    updateInventionStatus 2 "approved" (Some 3000000000%Z) 99%Z review_store
    = (Rejected e, review_store).
Proof.
  assert (H : forall i, In i (inventions review_store) -> inv_id i <> 7%Z).
  { intros i Hi. simpl in Hi.
    destruct Hi as [<-|[<-|[<-|[]]]]; discriminate. }
  assert (H2 : exists i, In i (inventions review_store) /\ inv_id i = 2%Z).
  { eexists. split; [right; left; reflexivity|reflexivity]. }
  assert (H3 : integer_or_null (Some 3000000000%Z) = false) by reflexivity.
  split; [exact H|].
  split; [exact (proj1 (proj1 (updateInventionStatus_not_found 7 "approved"
                                 (Some 100%Z) 99%Z review_store)
                          eq_refl eq_refl) H)|].
  split; [exact H2|].
  split; [exact (proj2 (proj1 (updateInventionStatus_not_found 2 "rejected"
                                 None 99%Z review_store)
                          eq_refl eq_refl) H2)|].
  split; [exact H3|].
  exact (proj2 (updateInventionStatus_not_found 2 "approved"
                  (Some 3000000000%Z) 99%Z review_store) (or_intror H3)).
Defined.

(** X9. updateInventionStatus touches nothing but the status, the funding
    amount and [updatedAt] of the inventions with the given id: the other
    tables and the four sequences are the same, the table of inventions has
    as many rows as before, an invention with another id is still there
    unchanged, and every invention of the table afterwards comes from one
    before with the same id, title, description, tags, author and creation
    time.  When the call resolves, the inventions with the id carry the new
    status and the time of the call; when it rejects, the store is as it
    was. *)
Theorem updateInventionStatus_frame :
  forall (id : Z) (st : string) (amount : option Z) (now : Z) (s : Store),
    let run := updateInventionStatus id st amount now s in
    let s' := snd run in
    users s' = users s /\ files s' = files s /\ comments s' = comments s /\
    likes s' = likes s /\
    comments_id_seq s' = comments_id_seq s /\
    likes_id_seq s' = likes_id_seq s /\
    inventions_id_seq s' = inventions_id_seq s /\
    files_id_seq s' = files_id_seq s /\
    List.length (inventions s') = List.length (inventions s) /\
    (forall i, In i (inventions s) -> inv_id i <> id -> In i (inventions s')) /\
    (forall i', In i' (inventions s') ->
       exists i, In i (inventions s) /\
         inv_id i' = inv_id i /\ inv_title i' = inv_title i /\
         inv_description i' = inv_description i /\
         inv_tags i' = inv_tags i /\ inv_authorId i' = inv_authorId i /\
         inv_createdAt i' = inv_createdAt i /\
         (inv_id i <> id -> i' = i)) /\
    (forall r, fst run = Resolved r ->
       forall i', In i' (inventions s') -> inv_id i' = id ->
         inv_status i' = st /\ inv_updatedAt i' = Some now) /\
    (forall e, fst run = Rejected e -> s' = s).
Proof.
  intros id st amount now s run s'. unfold s', run.
  destruct (integer_or_null amount && integer id) eqn:Hfit.
  - rewrite (updateInventionStatus_bound id st amount now s Hfit). simpl.
    do 8 (split; [reflexivity|]).
    split; [apply length_map|].
    split; [|split; [|split]].
    + intros i Hi Hne. apply in_map_iff. exists i. split; [|exact Hi].
      apply Z.eqb_neq in Hne. now rewrite Hne.
    + intros i' Hi'. apply in_map_iff in Hi'. destruct Hi' as (i & <- & Hi).
      exists i. split; [exact Hi|].
      destruct (Z.eqb (inv_id i) id) eqn:E.
      * apply Z.eqb_eq in E. do 6 (split; [reflexivity|]).
        intros Hne. contradiction.
      * do 6 (split; [reflexivity|]). reflexivity.
    + intros r _ i' Hi' Hid'. apply in_map_iff in Hi'.
      destruct Hi' as (i & <- & Hi).
      destruct (Z.eqb (inv_id i) id) eqn:E; [split; reflexivity|].
      apply Z.eqb_neq in E. contradiction.
    + intros e He. discriminate.
  - rewrite (updateInventionStatus_refused id st amount now s Hfit). simpl.
    do 9 (split; [reflexivity|]).
    split; [intros i Hi _; exact Hi|].
    split; [|split].
    + intros i' Hi'. exists i'. split; [exact Hi'|].
      do 6 (split; [reflexivity|]). reflexivity.
    + intros r Hr. discriminate.
    + reflexivity.
Qed.

Lemma getUser_In (id : string) (s : Store) (u : User) :
  getUser id s = Some u -> In u (users s) /\ user_id u = id.
Proof.
  unfold getUser. intros H.
  destruct (filter _ (users s)) as [|u0 t] eqn:Hf; [discriminate|].
  injection H as <-. destruct (hd_filter_In _ _ _ _ Hf) as [Hin E].
  apply String.eqb_eq in E. auto.
Qed.

(** X10. Only an administrator's request changes anything through the status
    route: for a caller without user row or whose role is not "admin" the
    answer is 403 and the store is the same.  For an administrator, an id or
    an amount that does not fit an integer column gives 500 with the store
    the same; otherwise an unknown id gives 404 with the store the same and
    a known id gives 200 with the updated invention. *)
Theorem patch_status_admin_only :
  forall (userId : string) (id : Z) (st : string) (amount : option Z)
         (now : Z) (s : Store),
    ((forall u, getUser userId s = Some u -> user_role u <> "admin") ->
     patch_status userId id st amount now s
     = (Message 403 "Access denied. Admin role required.", s)) /\
    ((exists u, getUser userId s = Some u /\ user_role u = "admin") ->
     (integer id = false \/ integer_or_null amount = false ->
      patch_status userId id st amount now s
      = (Message 500 "Failed to update invention status", s)) /\
     (integer id = true -> integer_or_null amount = true ->
      ((forall i, In i (inventions s) -> inv_id i <> id) ->
       patch_status userId id st amount now s
       = (Message 404 "Invention not found", s)) /\
      ((exists i, In i (inventions s) /\ inv_id i = id) ->
       exists updated,
         fst (patch_status userId id st amount now s) = Json 200 updated /\
         inv_id updated = id /\ inv_status updated = st))).
Proof.
  intros userId id st amount now s. split.
  - intros H. unfold patch_status.
    destruct (getUser userId s) as [u|] eqn:Hu; [|reflexivity].
    specialize (H u eq_refl).
    destruct (String.eqb (user_role u) "admin") eqn:E; [|reflexivity].
    apply String.eqb_eq in E. contradiction.
  - intros (u & Hu & Hrole). unfold patch_status.
    rewrite Hu, Hrole, String.eqb_refl. simpl negb. cbv iota.
    split; [|intros Hid Ham; split].
    + intros H.
      now rewrite (updateInventionStatus_out_of_range id st amount now s H).
    + intros H.
      now rewrite (updateInventionStatus_unknown_id id st amount now s Hid Ham H).
    + intros H.
      destruct (updateInventionStatus_known_id id st amount now s Hid Ham H)
        as (updated & Hrun & Hidu & Hst).
      destruct (updateInventionStatus id st amount now s) as [[[upd|]|e] s'];
        simpl in Hrun; try discriminate.
      injection Hrun as ->. exists updated. auto.
Qed.

Lemma patch_status_admin_only_witness :
  let admin := mkUser "root" None None None None "admin" None None in
  let s := set_users review_store (users review_store ++ [admin]) in
  (forall u, getUser "u1" s = Some u -> user_role u <> "admin") /\
  patch_status "u1" 2 "approved" (Some 100%Z) 99%Z s
  = (Message 403 "Access denied. Admin role required.", s) /\
  patch_status "nobody" 2 "approved" (Some 100%Z) 99%Z s
  = (Message 403 "Access denied. Admin role required.", s) /\
  (exists u, getUser "root" s = Some u /\ user_role u = "admin") /\
  patch_status "root" 7 "approved" None 99%Z s
  = (Message 404 "Invention not found", s) /\
  (exists updated,
     fst (patch_status "root" 1 "approved" (Some 100%Z) 99%Z s)
     = Json 200 updated /\
     inv_id updated = 1%Z /\ inv_status updated = "approved") /\
  patch_status "root" 1 "approved" (Some 3000000000%Z) 99%Z s
  = (Message 500 "Failed to update invention status", s).
Proof.
  intros admin s.
  assert (H1 : forall u, getUser "u1" s = Some u -> user_role u <> "admin").
  { intros u Hu. injection Hu as <-. discriminate. }
  assert (H2 : forall u, getUser "nobody" s = Some u -> user_role u <> "admin").
  { intros u Hu. discriminate. }
  assert (H3 : exists u, getUser "root" s = Some u /\ user_role u = "admin").
  { exists admin. split; reflexivity. }
  assert (H4 : forall i, In i (inventions s) -> inv_id i <> 7%Z).
  { intros i Hi. simpl in Hi.
    destruct Hi as [<-|[<-|[<-|[]]]]; discriminate. }
  assert (H5 : exists i, In i (inventions s) /\ inv_id i = 1%Z).
  { eexists. split; [left; reflexivity|reflexivity]. }
  assert (H6 : integer 1 = false \/ integer_or_null (Some 3000000000%Z) = false)
    by (right; reflexivity).
  split; [exact H1|].
  split; [exact (proj1 (patch_status_admin_only "u1" 2 "approved"
                          (Some 100%Z) 99%Z s) H1)|].
  split; [exact (proj1 (patch_status_admin_only "nobody" 2 "approved"
                          (Some 100%Z) 99%Z s) H2)|].
  split; [exact H3|].
  split; [exact (proj1 (proj2 (proj2 (patch_status_admin_only "root" 7
                                        "approved" None 99%Z s) H3)
                          eq_refl eq_refl) H4)|].
  split; [exact (proj2 (proj2 (proj2 (patch_status_admin_only "root" 1
                                        "approved" (Some 100%Z) 99%Z s) H3)
                          eq_refl eq_refl) H5)|].
  exact (proj1 (proj2 (patch_status_admin_only "root" 1 "approved"
                         (Some 3000000000%Z) 99%Z s) H3) H6).
Defined.

(** ** toggleLike: refusals, and what a vote does to the counts *)

(** X11. A vote on an invention that does not exist is refused: on a store
    whose like rows all refer to existing inventions, toggleLike for an
    unknown invention id rejects and leaves every table as it was. *)
Theorem toggleLike_unknown_invention_rejected :
  forall (i : Z) (u : string) (action : bool) (now : Z) (s : Store),
    (forall l, In l (likes s) -> has_invention (like_inventionId l) s = true) ->
    has_invention i s = false ->
    let run := toggleLike (mkNewLike i action u) now s in
    (exists e, fst run = Rejected e) /\
    likes (snd run) = likes s /\ users (snd run) = users s /\
    inventions (snd run) = inventions s /\ comments (snd run) = comments s /\
    files (snd run) = files s.
Proof.
  intros i u action now s Hfk Hi run.
  assert (Hrows : pair_rows s i u = []).
  { apply filter_nil_iff. intros l Hl. unfold same_pair.
    destruct (Z.eqb (like_inventionId l) i) eqn:E; [|reflexivity].
    apply Z.eqb_eq in E. specialize (Hfk l Hl). rewrite E, Hi in Hfk.
    discriminate. }
  unfold run. rewrite (toggleLike_no_row (mkNewLike i action u) now s Hrows).
  unfold insert_like. simpl. rewrite Hi. simpl.
  destruct (existsb _ (likes s)); simpl; split; eauto 10.
Qed.

Lemma toggleLike_unknown_invention_rejected_witness :
  (forall l, In l (likes counted_store) ->
             has_invention (like_inventionId l) counted_store = true) /\
  has_invention 9 counted_store = false /\
  let run := toggleLike (mkNewLike 9 true "u1") 50%Z counted_store in
  (exists e, fst run = Rejected e) /\ likes (snd run) = likes counted_store.
Proof.
  assert (Hfk : forall l, In l (likes counted_store) ->
                  has_invention (like_inventionId l) counted_store = true).
  { intros l Hl. simpl in Hl. destruct Hl as [<-|[<-|[<-|[]]]]; reflexivity. }
  split; [exact Hfk|]. split; [reflexivity|].
  destruct (toggleLike_unknown_invention_rejected 9 "u1" true 50%Z
              counted_store Hfk eq_refl) as (He & Hl & _).
  split; assumption.
Defined.

Lemma toggleLike_other_rows (like : NewLike) (now : Z) (s : Store) :
  likes_pkey s ->
  filter (fun l => negb (same_pair (nl_inventionId like) (nl_userId like) l))
         (likes (snd (toggleLike like now s)))
  = filter (fun l => negb (same_pair (nl_inventionId like) (nl_userId like) l))
           (likes s).
Proof.
  intros Hpk.
  assert (Hsame : forall e rest x,
            pair_rows s (nl_inventionId like) (nl_userId like) = e :: rest ->
            In x (likes s) -> Z.eqb (like_id x) (like_id e) = true ->
            same_pair (nl_inventionId like) (nl_userId like) x = true).
  { intros e rest x Hrows Hx Hid. apply Z.eqb_eq in Hid.
    destruct (hd_filter_In _ _ _ _ Hrows) as [He Hpe].
    now rewrite (key_identifies like_id (likes s) x e Hpk Hx He Hid). }
  destruct (toggleLike_likes like now s)
    as [H|[[Hrows H]|[(e & rest & Hrows & H)|(e & rest & Hrows & H)]]];
    rewrite H; clear H.
  - reflexivity.
  - rewrite filter_app. simpl. rewrite same_pair_refl. simpl.
    now rewrite app_nil_r.
  - apply filter_other_rows_deleted. intros x. now apply (Hsame e rest).
  - apply filter_other_rows_updated; [reflexivity|].
    intros x. now apply (Hsame e rest).
Qed.

Lemma filter_through {A} (p q : A -> bool) (l : list A) :
  (forall x, q x = true -> p x = true) ->
  filter q l = filter q (filter p l).
Proof.
  intros H. induction l as [|x t IH]; simpl; [reflexivity|].
  destruct (q x) eqn:Eq.
  - rewrite (H x Eq). simpl. now rewrite Eq, IH.
  - destruct (p x); simpl; rewrite ?Eq; exact IH.
Qed.

Lemma filter_split_length {A} (p q : A -> bool) (l : list A) :
  (List.length (filter q l)
   = List.length (filter q (filter p l))
     + List.length (filter q (filter (fun x => negb (p x)) l)))%nat.
Proof.
  induction l as [|x t IH]; simpl; [reflexivity|].
  destruct (p x); simpl; destruct (q x); simpl; lia.
Qed.

(** The likes and dislikes a pair in state [v] holds. *)
Lemma pair_rows_contribution (s : Store) (i : Z) (u : string) (v : Vote) :
  vote_of s i u = Some v ->
  List.length (filter (fun l => Z.eqb (like_inventionId l) i && like_isLike l)
                      (pair_rows s i u)) = likes_of v /\
  List.length (filter (fun l => Z.eqb (like_inventionId l) i
                                && negb (like_isLike l))
                      (pair_rows s i u)) = dislikes_of v.
Proof.
  unfold vote_of. intros H.
  destruct (pair_rows s i u) as [|l [|l2 rest]] eqn:Hrows; [| |discriminate].
  - injection H as <-. split; reflexivity.
  - injection H as <-.
    destruct (hd_filter_In _ _ _ _ Hrows) as [_ Hp].
    unfold same_pair in Hp. apply andb_prop in Hp. destruct Hp as [Hi _].
    simpl. rewrite Hi. simpl. destruct (like_isLike l); split; reflexivity.
Qed.

(** X12. What one vote does to the counts: for a pair in state [v], after the
    call the likes and dislikes of the invention are those before, minus what
    the pair held, plus what it holds in the state the transition rule gives;
    the counts of every other invention, and all comment and file counts, are
    the same. *)
Theorem toggleLike_moves_counts :
  forall (s : Store) (i : Z) (u : string) (action : bool) (now : Z) (v : Vote),
    likes_pkey s -> likes_id_seq_ahead s ->
    has_invention i s = true -> has_user u s = true ->
    vote_of s i u = Some v ->
    let s' := snd (toggleLike (mkNewLike i action u) now s) in
    let v' := transition v action in
    (tally_likes s' i + likes_of v = tally_likes s i + likes_of v')%nat /\
    (tally_dislikes s' i + dislikes_of v
     = tally_dislikes s i + dislikes_of v')%nat /\
    (forall x, x <> i -> tallies s' x = tallies s x) /\
    (forall x, tally_comments s' x = tally_comments s x /\
               tally_files s' x = tally_files s x).
Proof.
  intros s i u action now v Hpk Hseq Hi Hu Hv s' v'.
  pose proof (toggleLike_other_rows (mkNewLike i action u) now s Hpk) as Hother.
  simpl in Hother. fold s' in Hother.
  destruct (toggleLike_other_tables (mkNewLike i action u) now s)
    as (_ & _ & Hc & Hf & _). fold s' in Hc, Hf.
  destruct (toggleLike_step s i u action now v Hseq Hi Hu Hv)
    as (s1 & Hrun & _ & Hv1).
  assert (Hs1 : s' = s1) by (unfold s'; now rewrite Hrun).
  rewrite <- Hs1 in Hv1. fold v' in Hv1.
  destruct (pair_rows_contribution s i u v Hv) as [Hl Hd].
  destruct (pair_rows_contribution s' i u v' Hv1) as [Hl' Hd'].
  unfold pair_rows in Hl, Hd, Hl', Hd'.
  split; [|split; [|split]].
  - unfold tally_likes.
    rewrite (filter_split_length (same_pair i u) _ (likes s')).
    rewrite (filter_split_length (same_pair i u) _ (likes s)).
    rewrite Hother, Hl, Hl'. lia.
  - unfold tally_dislikes.
    rewrite (filter_split_length (same_pair i u) _ (likes s')).
    rewrite (filter_split_length (same_pair i u) _ (likes s)).
    rewrite Hother, Hd, Hd'. lia.
  - intros x Hx. unfold tallies, tally_likes, tally_dislikes, tally_comments,
      tally_files. rewrite Hc, Hf.
    assert (Hthrough : forall (q : Like -> bool),
              (forall l, q l = true -> Z.eqb (like_inventionId l) x = true) ->
              filter q (likes s') = filter q (likes s)).
    { intros q Hq.
      rewrite (filter_through (fun l => negb (same_pair i u l)) q (likes s')),
              (filter_through (fun l => negb (same_pair i u l)) q (likes s)).
      - now rewrite Hother.
      - intros l Hl0. apply Hq, Z.eqb_eq in Hl0. unfold same_pair.
        destruct (Z.eqb (like_inventionId l) i) eqn:E; [|reflexivity].
        apply Z.eqb_eq in E. congruence.
      - intros l Hl0. apply Hq, Z.eqb_eq in Hl0. unfold same_pair.
        destruct (Z.eqb (like_inventionId l) i) eqn:E; [|reflexivity].
        apply Z.eqb_eq in E. congruence. }
    rewrite (Hthrough (fun l => Z.eqb (like_inventionId l) x && like_isLike l)),
            (Hthrough (fun l => Z.eqb (like_inventionId l) x
                                && negb (like_isLike l))).
    + reflexivity.
    + intros l H. now apply andb_prop in H.
    + intros l H. now apply andb_prop in H.
  - intros x. unfold tally_comments, tally_files. now rewrite Hc, Hf.
Qed.

Lemma toggleLike_moves_counts_witness :
  likes_pkey counted_store /\ likes_id_seq_ahead counted_store /\
  has_invention 1 counted_store = true /\ has_user "u3" counted_store = true /\
  vote_of counted_store 1 "u3" = Some Disliked /\
  let s' := snd (toggleLike (mkNewLike 1 true "u3") 50%Z counted_store) in
  tallies counted_store 1 = mkCounts 2 1 4 2 /\
  (tally_likes s' 1 + 0 = 2 + 1)%nat /\
  (tally_dislikes s' 1 + 1 = 1 + 0)%nat.
Proof.
  assert (Hpk : likes_pkey counted_store).
  { unfold likes_pkey. simpl.
    repeat constructor; simpl; intuition discriminate. }
  assert (Hseq : likes_id_seq_ahead counted_store).
  { intros l Hl. simpl in Hl.
    destruct Hl as [<-|[<-|[<-|[]]]]; simpl; lia. }
  destruct (toggleLike_moves_counts counted_store 1 "u3" true 50%Z Disliked
              Hpk Hseq eq_refl eq_refl eq_refl) as (Hl & Hd & _).
  repeat split; assumption.
Defined.

(** ** createComment: what it adds, and what it refuses *)

Lemma createComment_run (content : string) (i : Z) (u : string) (now : Z)
    (s : Store) :
  comments_id_seq_ahead s ->
  has_invention i s = true -> has_user u s = true ->
  createComment (mkNewComment content i u) now s
  = (Resolved (mkCommentWithAuthor
                 (mkComment (comments_id_seq s) content i u (Some now))
                 (getUser u s)),
     set_comments (bump_comments_id_seq s)
       (comments s ++ [mkComment (comments_id_seq s) content i u (Some now)])).
Proof.
  intros Hseq Hi Hu. unfold createComment, bind, insert_comment. simpl.
  rewrite (comments_seq_ahead_no_collision s Hseq), Hi, Hu. reflexivity.
Qed.

Lemma filter_app_none {A} (p : A -> bool) (l extra : list A) :
  (forall x, In x extra -> p x = false) ->
  filter p (l ++ extra) = filter p l.
Proof.
  intros H. rewrite filter_app, (proj2 (filter_nil_iff p extra) H).
  apply app_nil_r.
Qed.

(** X13. A created comment is there to be read: for an existing invention
    and author, createComment resolves with the new row and the author's user
    row, getCommentsByInvention of that invention then contains it with its
    author (in both drafts), the invention's comment count is one more, and
    for every other invention the comments answered and all counts are the
    same. *)
Theorem createComment_then_read :
  forall (content : string) (i : Z) (u : string) (now : Z) (s : Store),
    comments_id_seq_ahead s ->
    has_invention i s = true -> has_user u s = true ->
    let run := createComment (mkNewComment content i u) now s in
    let s' := snd run in
    let row := mkComment (comments_id_seq s) content i u (Some now) in
    (exists author,
       getUser u s = Some author /\
       fst run = Resolved (mkCommentWithAuthor row (Some author)) /\
       In (mkCommentWithAuthor row (Some author))
          (InnerJoin.getCommentsByInvention i s') /\
       In (mkCommentWithAuthor row (Some author))
          (LeftJoin.getCommentsByInvention i s')) /\
    tally_comments s' i = S (tally_comments s i) /\
    (forall x, x <> i ->
       tally_comments s' x = tally_comments s x /\
       InnerJoin.getCommentsByInvention x s'
       = InnerJoin.getCommentsByInvention x s /\
       LeftJoin.getCommentsByInvention x s'
       = LeftJoin.getCommentsByInvention x s) /\
    (forall x, tally_likes s' x = tally_likes s x /\
               tally_dislikes s' x = tally_dislikes s x /\
               tally_files s' x = tally_files s x).
Proof.
  intros content i u now s Hseq Hi Hu run s' row.
  pose proof (createComment_run content i u now s Hseq Hi Hu) as Hrun.
  fold run row in Hrun.
  assert (Hs' : s' = set_comments (bump_comments_id_seq s) (comments s ++ [row]))
    by (unfold s'; now rewrite Hrun).
  assert (Hauthor : exists author, getUser u s = Some author).
  { unfold getUser, has_user in *. apply existsb_exists in Hu.
    destruct Hu as (a & Ha & E).
    destruct (filter _ (users s)) as [|a0 t] eqn:Hf; [|now exists a0].
    rewrite filter_nil_iff in Hf. rewrite (Hf a Ha) in E. discriminate. }
  destruct Hauthor as (author & Hau).
  destruct (getUser_In u s author Hau) as [Hin Hid].
  split; [|split; [|split]].
  - exists author. split; [exact Hau|]. split; [now rewrite Hrun, Hau|].
    rewrite Hs'. split.
    + unfold InnerJoin.getCommentsByInvention. simpl.
      apply in_map_iff. exists (row, author). split; [reflexivity|].
      apply orderBy_In, filter_In. simpl. split; [|apply Z.eqb_refl].
      apply in_flat_map. exists row. split; [apply in_or_app; right; now left|].
      apply in_map, filter_In. split; [exact Hin|].
      simpl. rewrite Hid. apply String.eqb_refl.
    + unfold LeftJoin.getCommentsByInvention. simpl.
      apply orderBy_In, filter_In. simpl. split; [|apply Z.eqb_refl].
      apply in_flat_map. exists row. split; [apply in_or_app; right; now left|].
      unfold row at 1. simpl comment_authorId.
      rewrite (leftJoin_matched _ _ (has_user_existsb u s Hu)).
      rewrite map_map. apply in_map_iff. exists author.
      split; [reflexivity|]. apply filter_In. split; [exact Hin|].
      rewrite Hid. apply String.eqb_refl.
  - rewrite Hs'. unfold tally_comments. simpl.
    rewrite filter_app, length_app. simpl. rewrite Z.eqb_refl. simpl. lia.
  - intros x Hx. rewrite Hs'.
    assert (Hne : Z.eqb i x = false) by (apply Z.eqb_neq; congruence).
    split; [|split].
    + unfold tally_comments. simpl. rewrite filter_app_none; [reflexivity|].
      intros c [<-|[]]. exact Hne.
    + unfold InnerJoin.getCommentsByInvention. simpl.
      rewrite flat_map_app, filter_app_none; [reflexivity|].
      intros [c a] Hc. simpl in Hc. rewrite app_nil_r in Hc.
      apply in_map_iff in Hc. destruct Hc as (a0 & E & _).
      injection E as <- <-. exact Hne.
    + unfold LeftJoin.getCommentsByInvention. simpl.
      rewrite flat_map_app, filter_app_none; [reflexivity|].
      intros r Hr. simpl in Hr. rewrite app_nil_r in Hr.
      apply in_map_iff in Hr. destruct Hr as (o & <- & _). exact Hne.
  - intros x. rewrite Hs'. repeat split; reflexivity.
Qed.

Lemma createComment_then_read_witness :
  comments_id_seq_ahead counted_store /\
  has_invention 1 counted_store = true /\ has_user "u2" counted_store = true /\
  let s' := snd (createComment (mkNewComment "fifth" 1 "u2") 60%Z counted_store) in
  tally_comments counted_store 1 = 4%nat /\
  tally_comments s' 1 = 5%nat /\
  map (fun r => comment_id (cwa_comment r))
      (InnerJoin.getCommentsByInvention 1 s') = [5; 4; 3; 2; 1]%Z.
Proof.
  assert (Hseq : comments_id_seq_ahead counted_store).
  { intros c Hc. simpl in Hc.
    destruct Hc as [<-|[<-|[<-|[<-|[]]]]]; simpl; lia. }
  destruct (createComment_then_read "fifth" 1 "u2" 60%Z counted_store
              Hseq eq_refl eq_refl) as (_ & Hcount & _).
  split; [exact Hseq|]. split; [reflexivity|]. split; [reflexivity|].
  split; [reflexivity|]. split; [exact Hcount|reflexivity].
Defined.

(** X14. A comment for an invention or by an author that does not exist is
    never stored: createComment rejects, the table of comments (and every
    other table) is as before, and the route answers 500; the route answers
    500 without touching the store when the body has no string [content] or
    the id is not a number. *)
Theorem createComment_refusals :
  forall (content : string) (i : Z) (u : string) (now : Z) (s : Store),
    (has_invention i s = false \/ has_user u s = false ->
     let run := createComment (mkNewComment content i u) now s in
     (exists e, fst run = Rejected e) /\
     comments (snd run) = comments s /\ users (snd run) = users s /\
     inventions (snd run) = inventions s /\ likes (snd run) = likes s /\
     files (snd run) = files s /\
     fst (post_comment u (Some i) (Some content) now s)
     = Failure 500 "Failed to create comment") /\
    post_comment u (Some i) None now s
    = (Failure 500 "Failed to create comment", s) /\
    post_comment u None (Some content) now s
    = (Failure 500 "Failed to create comment", s).
Proof.
  intros content i u now s. split; [|split; reflexivity].
  intros H run.
  assert (Hrun : exists e, run = (Rejected e, bump_comments_id_seq s)).
  { unfold run, createComment, bind, insert_comment. simpl.
    destruct (existsb _ (comments s)); [eauto|].
    destruct H as [H|H]; rewrite H; simpl; [eauto|].
    destruct (negb (has_invention i s)); eauto. }
  destruct Hrun as (e & Hrun).
  unfold post_comment. simpl. fold run. rewrite Hrun. simpl.
  repeat split; eauto.
Qed.

Lemma createComment_refusals_witness :
  has_invention 9 review_store = false /\
  let run := createComment (mkNewComment "hello" 9 "u1") 60%Z review_store in
  (exists e, fst run = Rejected e) /\ comments (snd run) = [] /\
  fst (post_comment "u1" (Some 9%Z) (Some "hello") 60%Z review_store)
  = Failure 500 "Failed to create comment".
Proof.
  split; [reflexivity|].
  destruct (createComment_refusals "hello" 9 "u1" 60%Z review_store)
    as (H & _).
  destruct (H (or_introl eq_refl)) as (He & Hc & _ & _ & _ & _ & Hp).
  repeat split; assumption.
Defined.

(** ** createInvention and saveFileInfo *)

Lemma has_invention_false (id : Z) (s : Store) :
  (forall i, In i (inventions s) -> inv_id i <> id) ->
  has_invention id s = false.
Proof.
  intros H. unfold has_invention.
  destruct (existsb _ (inventions s)) eqn:E; [|reflexivity].
  apply existsb_exists in E. destruct E as (i & Hi & Hid).
  apply Z.eqb_eq in Hid. now apply H in Hi.
Qed.

Lemma getUser_filter (id : string) (s : Store) :
  getUser id s
  = hd_error (filter (fun u => String.eqb id (user_id u)) (users s)).
Proof.
  unfold getUser. f_equal. apply filter_ext. intros u. apply String.eqb_sym.
Qed.

Lemma varchar_fits (n : nat) (v : string) :
  (String.length v <= n)%nat -> varchar n v = Some v.
Proof.
  intros H. unfold varchar. apply Nat.leb_le in H. now rewrite H.
Qed.

(** The row a valid createInvention inserts, and the store it leaves. *)
Lemma createInvention_run (v : NewInvention) (now : Z) (s : Store) :
  (forall i, In i (inventions s) -> inv_id i <> inventions_id_seq s) ->
  integer (inventions_id_seq s) = true ->
  has_user (ni_authorId v) s = true ->
  integer_or_null (ni_fundingAmount v) = true ->
  (String.length (ni_title v) <= 255)%nat ->
  let row :=
    mkInvention (inventions_id_seq s) (ni_title v) (ni_description v)
      (match ni_tags v with Some t => t | None => [] end)
      (match ni_status v with Some st => st | None => "pending" end)
      (ni_fundingAmount v) (ni_authorId v) (Some now) (Some now) in
  createInvention v now s
  = (Resolved row,
     set_inventions (bump_inventions_id_seq s) (inventions s ++ [row])).
Proof.
  intros Hfresh Hid Hu Ham Hlen row.
  unfold createInvention, insert_invention.
  pose proof (has_invention_false _ s Hfresh) as Hno.
  unfold has_invention in Hno.
  now rewrite Ham, (varchar_fits 255 _ Hlen), Hid, Hno, Hu.
Qed.

(** Whatever createInvention refuses, the tables are as before. *)
Lemma createInvention_refused_tables (v : NewInvention) (now : Z) (s : Store)
    (e : DbError) :
  fst (createInvention v now s) = Rejected e ->
  let s' := snd (createInvention v now s) in
  users s' = users s /\ inventions s' = inventions s /\ files s' = files s /\
  comments s' = comments s /\ likes s' = likes s.
Proof.
  unfold createInvention, insert_invention.
  destruct (integer_or_null (ni_fundingAmount v)); simpl; [|auto].
  destruct (varchar 255 (ni_title v)); simpl; [|auto].
  destruct (integer (inventions_id_seq s)); simpl; [|auto].
  destruct (existsb _ (inventions s)); simpl; [auto|].
  destruct (has_user (ni_authorId v) s); simpl; [discriminate|auto].
Qed.

Lemma createInvention_other_tables (v : NewInvention) (now : Z) (s : Store) :
  let s' := snd (createInvention v now s) in
  users s' = users s /\ files s' = files s /\ comments s' = comments s /\
  likes s' = likes s.
Proof.
  unfold createInvention, insert_invention.
  destruct (integer_or_null (ni_fundingAmount v)); simpl; [|auto].
  destruct (varchar 255 (ni_title v)); simpl; [|auto].
  destruct (integer (inventions_id_seq s)); simpl; [|auto].
  destruct (existsb _ (inventions s)); simpl; [auto|].
  destruct (has_user (ni_authorId v) s); simpl; auto.
Qed.

(** X15. A created invention is there to be read, with the defaults of the
    table.  When the sequence of [inventions] stands at an integer no
    invention has as id, the author exists, the title has at most 255
    characters and the funding amount (if any) fits an integer column,
    createInvention resolves with a row that has that id, the given title
    and author, and the given status and tags or, when left out, "pending"
    and no tags; the table then holds that row besides the rows it held,
    getInvention answers it with its author, and getStats counts one
    invention more.  With an unknown author, a taken id, an amount out of
    range or a title that [varchar(255)] refuses, the call rejects and the
    five tables are as before. *)
Theorem createInvention_then_read :
  forall (v : NewInvention) (now : Z) (s : Store),
    let run := createInvention v now s in
    let s' := snd run in
    let id := inventions_id_seq s in
    ((forall i, In i (inventions s) -> inv_id i <> id) ->
     integer id = true ->
     has_user (ni_authorId v) s = true ->
     integer_or_null (ni_fundingAmount v) = true ->
     (String.length (ni_title v) <= 255)%nat ->
     exists row author,
       fst run = Resolved row /\
       Permutation (inventions s') (row :: inventions s) /\
       inv_id row = id /\ inv_title row = ni_title v /\
       inv_authorId row = ni_authorId v /\
       inv_status row = match ni_status v with
                        | Some st => st
                        | None => "pending"
                        end /\
       inv_tags row = match ni_tags v with Some t => t | None => [] end /\
       inv_fundingAmount row = ni_fundingAmount v /\
       getUser (ni_authorId v) s = Some author /\
       InnerJoin.getInvention id s'
       = Some (mkInventionDetail row (Some author)
                 (getFilesByInvention id s)
                 (InnerJoin.getCommentsByInvention id s)
                 (likesByInvention id s)) /\
       total (getStats s') = S (total (getStats s)) /\
       (ni_status v = None ->
        pending (getStats s') = S (pending (getStats s)) /\
        approved (getStats s') = approved (getStats s) /\
        rejected (getStats s') = rejected (getStats s))) /\
    (has_user (ni_authorId v) s = false \/
     (exists i, In i (inventions s) /\ inv_id i = id) \/
     integer_or_null (ni_fundingAmount v) = false \/
     varchar 255 (ni_title v) = None ->
     (exists e, fst run = Rejected e) /\
     users s' = users s /\ inventions s' = inventions s /\
     files s' = files s /\ comments s' = comments s /\ likes s' = likes s).
Proof.
  intros v now s run s' id. split.
  - intros Hfresh Hid Hu Ham Hlen.
    pose proof (createInvention_run v now s Hfresh Hid Hu Ham Hlen) as Hrun.
    cbv zeta in Hrun. fold run in Hrun.
    assert (Hauthor : exists author, getUser (ni_authorId v) s = Some author).
    { unfold getUser, has_user in *. apply existsb_exists in Hu.
      destruct Hu as (a & Ha & E).
      destruct (filter _ (users s)) as [|a0 t] eqn:Hf; [|now exists a0].
      rewrite filter_nil_iff in Hf. rewrite (Hf a Ha) in E. discriminate. }
    destruct Hauthor as (author & Hau).
    eexists. exists author. unfold s'. rewrite Hrun. simpl.
    split; [reflexivity|].
    split; [apply Permutation_sym, Permutation_cons_append|].
    do 6 (split; [reflexivity|]). split; [exact Hau|].
    split; [|split].
    + unfold InnerJoin.getInvention, LoopDraft.innerJoin. simpl.
      rewrite flat_map_app, filter_app. simpl. rewrite app_nil_r.
      rewrite (proj2 (filter_nil_iff _ _)).
      * simpl. rewrite filter_map_comm. simpl.
        rewrite (filter_all (fun _ => Z.eqb id id))
          by (intros; apply Z.eqb_refl).
        rewrite getUser_filter in Hau.
        destruct (filter _ (users s)) as [|a0 t]; [discriminate|].
        simpl in Hau. injection Hau as ->. reflexivity.
      * intros r Hr. apply in_flat_map in Hr. destruct Hr as (i & Hi & Hr).
        apply in_map_iff in Hr. destruct Hr as (a & <- & _). simpl.
        apply Z.eqb_neq. now apply Hfresh.
    + rewrite length_app. simpl. lia.
    + intros Hst. rewrite Hst. unfold count_status.
      rewrite !filter_app, !length_app. simpl. repeat split; lia.
  - intros H.
    assert (Hrej : exists e, fst run = Rejected e).
    { unfold run, createInvention, insert_invention.
      destruct (integer_or_null (ni_fundingAmount v)) eqn:Ham; simpl; [|eauto].
      destruct (varchar 255 (ni_title v)) eqn:Ht; simpl; [|eauto].
      destruct (integer (inventions_id_seq s)); simpl; [|eauto].
      destruct (existsb _ (inventions s)) eqn:E; simpl; [eauto|].
      destruct (has_user (ni_authorId v) s) eqn:Hu; simpl; [|eauto].
      exfalso. destruct H as [H|[(i & Hi & Hid)|[H|H]]]; try discriminate.
      assert (Ht' : existsb (fun i => Z.eqb (inv_id i) (inventions_id_seq s))
                            (inventions s) = true).
      { apply existsb_exists. exists i. split; [exact Hi|].
        now apply Z.eqb_eq. }
      congruence. }
    split; [exact Hrej|]. destruct Hrej as (e & He).
    exact (createInvention_refused_tables v now s e He).
Qed.

Lemma createInvention_then_read_witness :
  let v := mkNewInvention "Solar kite" "A kite" (Some ["Energy"]) None None "u1" in
  let big := mkNewInvention "Solar kite" "A kite" None None
                            (Some 3000000000%Z) "u1" in
  (forall i, In i (inventions review_store) ->
             inv_id i <> inventions_id_seq review_store) /\
  has_user "u1" review_store = true /\
  (exists row,
     fst (createInvention v 70 review_store) = Resolved row /\
     inv_id row = 4%Z /\
     inv_status row = "pending" /\ inv_tags row = ["Energy"]) /\
  getStats (snd (createInvention v 70 review_store)) = mkStats 4 1 2 0 /\
  integer_or_null (Some 3000000000%Z) = false /\
  (exists e, fst (createInvention big 70 review_store) = Rejected e) /\
  inventions (snd (createInvention big 70 review_store))
  = inventions review_store.
Proof.
  intros v big.
  assert (Hfresh : forall i, In i (inventions review_store) ->
                             inv_id i <> inventions_id_seq review_store).
  { intros i Hi. simpl in Hi.
    destruct Hi as [<-|[<-|[<-|[]]]]; discriminate. }
  destruct (createInvention_then_read v 70 review_store) as [Hok _].
  destruct (createInvention_then_read big 70 review_store) as [_ Hno].
  destruct (Hok Hfresh eq_refl eq_refl eq_refl)
    as (row & author & Hrun & _ & Hid & _ & _ & Hst & Htags & _);
    [simpl; lia|].
  destruct (Hno (or_intror (or_intror (or_introl eq_refl))))
    as (Hrej & _ & Hinv & _).
  split; [exact Hfresh|]. split; [reflexivity|].
  split; [exists row; auto|]. split; [reflexivity|].
  split; [reflexivity|]. split; [exact Hrej|exact Hinv].
Defined.

(** The row a valid saveFileInfo inserts, and the store it leaves. *)
Lemma saveFileInfo_run (fileInfo : FileInfo) (now : Z) (s : Store) :
  (forall f, In f (files s) -> file_id f <> files_id_seq s) ->
  integer (files_id_seq s) = true ->
  has_invention (fi_inventionId fileInfo) s = true ->
  integer (fi_size fileInfo) = true ->
  integer (fi_inventionId fileInfo) = true ->
  (String.length (fi_filename fileInfo) <= 255)%nat ->
  (String.length (fi_originalName fileInfo) <= 255)%nat ->
  (String.length (fi_mimeType fileInfo) <= 100)%nat ->
  let row := mkFile (files_id_seq s) (fi_filename fileInfo)
                    (fi_originalName fileInfo) (fi_mimeType fileInfo)
                    (fi_size fileInfo) (fi_inventionId fileInfo) (Some now) in
  saveFileInfo fileInfo now s
  = (Resolved row, set_files (bump_files_id_seq s) (files s ++ [row])).
Proof.
  intros Hfresh Hid Hi Hsize Hinv Hfn Hon Hmt row.
  assert (Hno : existsb (fun f => Z.eqb (file_id f) (files_id_seq s)) (files s)
                = false).
  { destruct (existsb _ (files s)) eqn:E; [|reflexivity].
    apply existsb_exists in E. destruct E as (f & Hf & Hidf).
    apply Z.eqb_eq in Hidf. now apply Hfresh in Hf. }
  unfold saveFileInfo.
  now rewrite Hsize, Hinv, (varchar_fits 255 _ Hfn), (varchar_fits 255 _ Hon),
    (varchar_fits 100 _ Hmt), Hid, Hno, Hi.
Qed.

(** Whatever saveFileInfo does, the other tables are as before; when it
    rejects, so is the table of files. *)
Lemma saveFileInfo_tables (fileInfo : FileInfo) (now : Z) (s : Store) :
  let s' := snd (saveFileInfo fileInfo now s) in
  users s' = users s /\ inventions s' = inventions s /\
  comments s' = comments s /\ likes s' = likes s /\
  (forall e, fst (saveFileInfo fileInfo now s) = Rejected e ->
             files s' = files s).
Proof.
  unfold saveFileInfo.
  destruct (integer (fi_size fileInfo) && integer (fi_inventionId fileInfo));
    simpl; [|auto 6].
  destruct (varchar 255 (fi_filename fileInfo)); simpl; [|auto 6].
  destruct (varchar 255 (fi_originalName fileInfo)); simpl; [|auto 6].
  destruct (varchar 100 (fi_mimeType fileInfo)); simpl; [|auto 6].
  destruct (integer (files_id_seq s)); simpl; [|auto 6].
  destruct (existsb _ (files s)); simpl; [auto 6|].
  destruct (has_invention (fi_inventionId fileInfo) s); simpl; [|auto 6].
  do 4 (split; [reflexivity|]). intros e He. discriminate.
Qed.

(** X16. A saved file is there to be read.  When the sequence of [files]
    stands at an integer no file has as id, the invention exists, [size] and
    [inventionId] fit an integer column and the three names fit their
    [varchar] columns, saveFileInfo resolves with the row,
    getFilesByInvention of that invention answers the new file besides the
    files it answered before, the files of every other invention are the
    same, and the invention's file count is one more.  For an unknown
    invention, a size out of range or a name its column refuses, the call
    rejects and the five tables are as before. *)
Theorem saveFileInfo_then_read :
  forall (fileInfo : FileInfo) (now : Z) (s : Store),
    let run := saveFileInfo fileInfo now s in
    let s' := snd run in
    let id := files_id_seq s in
    let row := mkFile id (fi_filename fileInfo) (fi_originalName fileInfo)
                      (fi_mimeType fileInfo) (fi_size fileInfo)
                      (fi_inventionId fileInfo) (Some now) in
    ((forall f, In f (files s) -> file_id f <> id) ->
     integer id = true ->
     has_invention (fi_inventionId fileInfo) s = true ->
     integer (fi_size fileInfo) = true ->
     integer (fi_inventionId fileInfo) = true ->
     (String.length (fi_filename fileInfo) <= 255)%nat ->
     (String.length (fi_originalName fileInfo) <= 255)%nat ->
     (String.length (fi_mimeType fileInfo) <= 100)%nat ->
     fst run = Resolved row /\
     Permutation (getFilesByInvention (fi_inventionId fileInfo) s')
                 (row :: getFilesByInvention (fi_inventionId fileInfo) s) /\
     (forall x, x <> fi_inventionId fileInfo ->
        getFilesByInvention x s' = getFilesByInvention x s) /\
     tally_files s' (fi_inventionId fileInfo)
     = S (tally_files s (fi_inventionId fileInfo))) /\
    (has_invention (fi_inventionId fileInfo) s = false \/
     integer (fi_size fileInfo) = false \/
     integer (fi_inventionId fileInfo) = false \/
     varchar 255 (fi_filename fileInfo) = None \/
     varchar 255 (fi_originalName fileInfo) = None \/
     varchar 100 (fi_mimeType fileInfo) = None ->
     (exists e, fst run = Rejected e) /\
     users s' = users s /\ inventions s' = inventions s /\
     files s' = files s /\ comments s' = comments s /\ likes s' = likes s).
Proof.
  intros fileInfo now s run s' id row. split.
  - intros Hfresh Hid Hi Hsize Hinv Hfn Hon Hmt.
    pose proof (saveFileInfo_run fileInfo now s Hfresh Hid Hi Hsize Hinv
                  Hfn Hon Hmt) as Hrun.
    cbv zeta in Hrun. fold run in Hrun. fold id in Hrun. fold row in Hrun.
    unfold s'. rewrite Hrun. simpl.
    split; [reflexivity|]. split; [|split].
    + unfold getFilesByInvention. simpl. rewrite filter_app. simpl.
      rewrite Z.eqb_refl. apply Permutation_sym, Permutation_cons_append.
    + intros x Hx. unfold getFilesByInvention. simpl.
      apply filter_app_none. intros f [<-|[]]. simpl.
      apply Z.eqb_neq. congruence.
    + unfold tally_files. simpl. rewrite filter_app, length_app. simpl.
      rewrite Z.eqb_refl. simpl. lia.
  - intros H.
    assert (Hrej : exists e, fst run = Rejected e).
    { unfold run, saveFileInfo.
      destruct (integer (fi_size fileInfo)) eqn:Hsize; simpl; [|eauto].
      destruct (integer (fi_inventionId fileInfo)) eqn:Hinv; simpl; [|eauto].
      destruct (varchar 255 (fi_filename fileInfo)) eqn:Hfn; simpl; [|eauto].
      destruct (varchar 255 (fi_originalName fileInfo)) eqn:Hon; simpl;
        [|eauto].
      destruct (varchar 100 (fi_mimeType fileInfo)) eqn:Hmt; simpl; [|eauto].
      destruct (integer (files_id_seq s)); simpl; [|eauto].
      destruct (existsb _ (files s)); simpl; [eauto|].
      destruct (has_invention (fi_inventionId fileInfo) s) eqn:Hi; simpl;
        [|eauto].
      exfalso. destruct H as [H|[H|[H|[H|[H|H]]]]]; discriminate. }
    split; [exact Hrej|]. destruct Hrej as (e & He).
    destruct (saveFileInfo_tables fileInfo now s) as (Hu & Hinv & Hc & Hl & Hf).
    fold run in Hu, Hinv, Hc, Hl, Hf. fold s' in Hu, Hinv, Hc, Hl, Hf.
    repeat split; auto. exact (Hf e He).
Qed.

Lemma saveFileInfo_then_read_witness :
  let info := mkFileInfo "f3" "c.pdf" "application/pdf" 300 1 in
  (forall f, In f (files counted_store) ->
             file_id f <> files_id_seq counted_store) /\
  has_invention 1 counted_store = true /\
  Permutation
    (map file_id (getFilesByInvention 1 (snd (saveFileInfo info 80 counted_store))))
    [3; 1; 2]%Z /\
  has_invention 9 orphan_store = false /\
  (exists e, fst (saveFileInfo (mkFileInfo "f" "c" "x" 1 9) 80 orphan_store)
             = Rejected e).
Proof.
  intros info.
  assert (Hfresh : forall f, In f (files counted_store) ->
                             file_id f <> files_id_seq counted_store).
  { intros f Hf. simpl in Hf. destruct Hf as [<-|[<-|[]]]; discriminate. }
  destruct (saveFileInfo_then_read info 80 counted_store) as [Hok _].
  destruct (Hok Hfresh eq_refl eq_refl eq_refl eq_refl) as (_ & Hfiles & _);
    try (simpl; lia).
  destruct (saveFileInfo_then_read (mkFileInfo "f" "c" "x" 1 9) 80
              orphan_store) as [_ Hno].
  split; [exact Hfresh|]. split; [reflexivity|].
  split; [exact (Permutation_map file_id Hfiles)|]. split; [reflexivity|].
  exact (proj1 (Hno (or_introl eq_refl))).
Defined.

(** ** getStats under a status change *)

Lemma count_status_moves (id : Z) (d : UpdateData) (v : string)
    (inv : Invention) (l : list Invention) :
  NoDup (map inv_id l) -> In inv l -> inv_id inv = id ->
  (count_status v (map (fun i => if Z.eqb (inv_id i) id
                                 then apply_updateData d i else i) l)
   + (if String.eqb (inv_status inv) v then 1 else 0)
   = count_status v l + (if String.eqb (ud_status d) v then 1 else 0))%nat.
Proof.
  unfold count_status.
  induction l as [|x t IH]; simpl; intros Hnd Hin Hid; [contradiction|].
  inversion Hnd as [|? ? Hx Ht]; subst.
  destruct Hin as [->|Hin].
  - rewrite Z.eqb_refl. simpl.
    rewrite map_unmatched.
    + destruct (String.eqb (ud_status d) v), (String.eqb (inv_status inv) v);
        simpl; lia.
    + intros y Hy. apply Z.eqb_neq. intros E. apply Hx. rewrite <- E.
      now apply in_map.
  - assert (Hne : Z.eqb (inv_id x) (inv_id inv) = false).
    { apply Z.eqb_neq. intros E. apply Hx. rewrite E. now apply in_map. }
    rewrite Hne. specialize (IH Ht Hin eq_refl).
    destruct (String.eqb (inv_status x) v); simpl; lia.
Qed.

(** X17. A status change moves one invention between the buckets of
    getStats and leaves the total alone: after updateInventionStatus on the
    invention with the given id (ids being a primary key), with an id and an
    amount (if any) that fit an integer column, each of pending, approved and
    rejected has lost one if it was the old status and gained one if it is
    the new status. *)
Theorem getStats_after_status_change :
  forall (id : Z) (st : string) (amount : option Z) (now : Z) (s : Store)
         (inv : Invention),
    inventions_pkey s -> In inv (inventions s) -> inv_id inv = id ->
    integer id = true -> integer_or_null amount = true ->
    let before := getStats s in
    let after := getStats (snd (updateInventionStatus id st amount now s)) in
    let left_ v := if String.eqb (inv_status inv) v then 1%nat else 0%nat in
    let joined_ v := if String.eqb st v then 1%nat else 0%nat in
    total after = total before /\
    (pending after + left_ "pending" = pending before + joined_ "pending")%nat /\
    (approved after + left_ "approved" = approved before + joined_ "approved")%nat /\
    (rejected after + left_ "rejected" = rejected before + joined_ "rejected")%nat.
Proof.
  intros id st amount now s inv Hpk Hin Hid Hfit Ham before after left_ joined_.
  unfold after, before, getStats.
  rewrite updateInventionStatus_bound by (now rewrite Hfit, Ham). simpl.
  split; [apply length_map|].
  assert (H : forall v,
    (count_status v
       (map (fun i => if Z.eqb (inv_id i) id
                      then apply_updateData (mkUpdateData st now amount) i
                      else i) (inventions s))
     + left_ v = count_status v (inventions s) + joined_ v)%nat).
  { intros v. unfold left_, joined_.
    now rewrite (count_status_moves id _ v inv (inventions s) Hpk Hin Hid). }
  repeat split; apply H.
Qed.

Lemma getStats_after_status_change_witness :
  let after :=
    getStats (snd (updateInventionStatus 1 "rejected" None 99%Z review_store)) in
  inventions_pkey review_store /\
  In (sample_invention 1 ["AI/ML"; "IoT"] "under_review" "u1" 10)
     (inventions review_store) /\
  getStats review_store = mkStats 3 0 2 0 /\
  total after = 3%nat /\
  (pending after + 0 = 0 + 0)%nat /\
  (approved after + 0 = 2 + 0)%nat /\
  (rejected after + 0 = 0 + 1)%nat.
Proof.
  intros after.
  assert (Hpk : inventions_pkey review_store).
  { unfold inventions_pkey. simpl.
    repeat constructor; simpl; intuition discriminate. }
  assert (Hin : In (sample_invention 1 ["AI/ML"; "IoT"] "under_review" "u1" 10)
                   (inventions review_store)) by (left; reflexivity).
  split; [exact Hpk|]. split; [exact Hin|]. split; [reflexivity|].
  exact (getStats_after_status_change 1 "rejected" None 99%Z review_store
           _ Hpk Hin eq_refl eq_refl eq_refl).
Defined.

(** ** The list shows every invention that passes, once *)

Lemma insert_by_perm {A} (le : A -> A -> bool) (x : A) (l : list A) :
  Permutation (insert_by le x l) (x :: l).
Proof.
  induction l as [|y t IH]; simpl; [apply Permutation_refl|].
  destruct (le x y); [apply Permutation_refl|].
  eapply Permutation_trans; [apply perm_skip, IH|apply perm_swap].
Qed.

Lemma orderBy_perm {A} (le : A -> A -> bool) (l : list A) :
  Permutation (orderBy le l) l.
Proof.
  unfold orderBy. induction l as [|x t IH]; simpl; [constructor|].
  eapply Permutation_trans; [apply insert_by_perm|now apply perm_skip].
Qed.

Lemma filter_perm {A} (p : A -> bool) (l l' : list A) :
  Permutation l l' -> Permutation (filter p l) (filter p l').
Proof.
  induction 1 as [|x l l' H IH|x y l|l l' l'' H1 IH1 H2 IH2]; simpl.
  - constructor.
  - destruct (p x); [now apply perm_skip|exact IH].
  - destruct (p x), (p y); try apply Permutation_refl. apply perm_swap.
  - eapply Permutation_trans; eassumption.
Qed.

Lemma joined_rows_left {A B R} (m : A -> list B) (mk : A -> B -> R)
    (back : R -> A) (l : list A) :
  (forall a b, back (mk a b) = a) ->
  (forall a, In a l -> List.length (m a) = 1%nat) ->
  map back (flat_map (fun a => map (mk a) (m a)) l) = l.
Proof.
  intros Hback. induction l as [|a t IH]; simpl; intros H; [reflexivity|].
  rewrite map_app, IH by (intros x Hx; apply H; now right).
  specialize (H a (or_introl eq_refl)).
  destruct (m a) as [|b [|b' r]]; simpl in *; try discriminate.
  now rewrite Hback.
Qed.

Lemma innerJoin_inventions (s : Store) :
  users_pkey s -> inventions_author_fkey s ->
  map LoopDraft.r_inventions (LoopDraft.innerJoin s) = inventions s.
Proof.
  intros Hpk Hfk. unfold LoopDraft.innerJoin.
  apply (joined_rows_left
           (fun i => filter (fun u => String.eqb (inv_authorId i) (user_id u))
                            (users s))
           LoopDraft.mkRow LoopDraft.r_inventions).
  - reflexivity.
  - intros i Hi. apply one_author_row; [exact Hpk|now apply Hfk].
Qed.

Lemma LoopDraft_answer_perm (filters : option Filters) (s : Store) :
  users_pkey s -> inventions_author_fkey s ->
  Permutation (map invention (LoopDraft.getInventions filters s))
              (filter (matches_filters filters) (inventions s)).
Proof.
  intros Hpk Hfk.
  unfold LoopDraft.getInventions, LoopDraft.allInventions.
  rewrite loop_filter_map, map_map. simpl.
  rewrite <- (innerJoin_inventions s Hpk Hfk).
  rewrite (filter_map_comm LoopDraft.r_inventions (matches_filters filters)).
  apply Permutation_map.
  apply (filter_perm (LoopDraft.passes filters)), orderBy_perm.
Qed.

(** X18. The loop draft's answer is the inventions that pass the filters,
    each exactly once: where users have their primary key and every invention
    its author, the inventions of the answer are a permutation of the
    inventions of the table that have the asked status (if any) and share a
    tag with the asked list (if any). *)
Theorem LoopDraft_lists_each_match_once :
  forall (filters : option Filters) (s : Store),
    users_pkey s -> inventions_author_fkey s ->
    Permutation (map invention (LoopDraft.getInventions filters s))
                (filter (matches_filters filters) (inventions s)).
Proof.
  intros filters s Hpk Hfk. now apply LoopDraft_answer_perm.
Qed.

Lemma LoopDraft_lists_each_match_once_witness :
  users_pkey review_store /\ inventions_author_fkey review_store /\
  Permutation
    (map invention
         (LoopDraft.getInventions (Some (mkFilters (Some "approved") None))
                                  review_store))
    [sample_invention 2 ["IoT"] "approved" "u1" 20;
     sample_invention 3 ["Biotech"] "approved" "u1" 30].
Proof.
  assert (Hpk : users_pkey review_store).
  { unfold users_pkey. simpl. repeat constructor. intros []. }
  assert (Hfk : inventions_author_fkey review_store).
  { intros i Hi. simpl in Hi. destruct Hi as [<-|[<-|[<-|[]]]]; reflexivity. }
  split; [exact Hpk|]. split; [exact Hfk|].
  exact (LoopDraft_lists_each_match_once
           (Some (mkFilters (Some "approved") None)) review_store Hpk Hfk).
Defined.

(** ** The admin dashboard's lists against its statistics *)

Lemma filter_orb_disjoint_length {A} (p q : A -> bool) (l : list A) :
  (forall x, p x = true -> q x = false) ->
  (List.length (filter (fun x => p x || q x) l)
   = List.length (filter p l) + List.length (filter q l))%nat.
Proof.
  intros H. induction l as [|x t IH]; simpl; [reflexivity|].
  destruct (p x) eqn:Ep; simpl.
  - rewrite (H x Ep). simpl. lia.
  - destruct (q x); simpl; lia.
Qed.

Lemma listed_filter_length (p : Invention -> bool) (l : list Listed)
    (t : list Invention) :
  Permutation (map invention l) t ->
  List.length (filter (fun r => p (invention r)) l) = List.length (filter p t).
Proof.
  intros H. rewrite <- (Permutation_length (filter_perm p _ _ H)).
  now rewrite filter_map_comm, length_map.
Qed.

(** X19. On the admin dashboard, computed from the unfiltered list of a store
    where users have their primary key and every invention its author, the
    "Recently Approved" and "Recently Rejected" lists have the sizes getStats
    reports as approved and rejected, while "Pending Approvals" has the size
    reported as pending plus the number of inventions under review. *)
Theorem admin_lists_against_stats :
  forall (s : Store),
    users_pkey s -> inventions_author_fkey s ->
    let listing := LoopDraft.getInventions None s in
    List.length (approvedInventions listing) = approved (getStats s) /\
    List.length (rejectedInventions listing) = rejected (getStats s) /\
    (List.length (pendingInventions listing)
     = pending (getStats s) + count_status "under_review" (inventions s))%nat.
Proof.
  intros s Hpk Hfk listing.
  pose proof (LoopDraft_answer_perm None s Hpk Hfk) as Hperm.
  fold listing in Hperm.
  rewrite (filter_all (matches_filters None)) in Hperm by reflexivity.
  unfold approvedInventions, rejectedInventions, pendingInventions.
  split; [|split].
  - apply (listed_filter_length
             (fun i => String.eqb (inv_status i) "approved") listing _ Hperm).
  - apply (listed_filter_length
             (fun i => String.eqb (inv_status i) "rejected") listing _ Hperm).
  - rewrite (listed_filter_length
               (fun i => String.eqb (inv_status i) "pending"
                         || String.eqb (inv_status i) "under_review")
               listing _ Hperm).
    apply (filter_orb_disjoint_length
             (fun i => String.eqb (inv_status i) "pending")
             (fun i => String.eqb (inv_status i) "under_review")).
    intros x Hx. apply String.eqb_eq in Hx. now rewrite Hx.
Qed.

Lemma admin_lists_against_stats_witness :
  users_pkey review_store /\ inventions_author_fkey review_store /\
  let listing := LoopDraft.getInventions None review_store in
  pending (getStats review_store) = 0%nat /\
  List.length (pendingInventions listing) = (0 + 1)%nat /\
  List.length (approvedInventions listing) = 2%nat.
Proof.
  assert (Hpk : users_pkey review_store).
  { unfold users_pkey. simpl. repeat constructor. intros []. }
  assert (Hfk : inventions_author_fkey review_store).
  { intros i Hi. simpl in Hi. destruct Hi as [<-|[<-|[<-|[]]]]; reflexivity. }
  destruct (admin_lists_against_stats review_store Hpk Hfk) as (Ha & _ & Hp).
  split; [exact Hpk|]. split; [exact Hfk|].
  split; [reflexivity|]. split; [exact Hp|exact Ha].
Defined.

(** ** The tags of the list route's query *)

Lemma split_comma_not_nil (q : string) : split_comma q <> [].
Proof.
  destruct q as [|c r]; simpl; [discriminate|].
  destruct (Ascii.eqb c ","%char); [discriminate|].
  destruct (split_comma r); discriminate.
Qed.

Lemma join_split_comma (q : string) : join_comma (split_comma q) = q.
Proof.
  unfold join_comma. induction q as [|c r IH]; [reflexivity|].
  simpl. destruct (Ascii.eqb c ","%char) eqn:E.
  - apply Ascii.eqb_eq in E. subst c.
    pose proof (split_comma_not_nil r) as Hne.
    destruct (split_comma r) as [|h t]; [contradiction|].
    simpl in *. now rewrite IH.
  - destruct (split_comma r) as [|h [|h2 t]] eqn:Hs.
    + now destruct (split_comma_not_nil r).
    + simpl in *. now rewrite IH.
    + simpl in *. now rewrite IH.
Qed.

Lemma split_comma_plain (t : string) :
  has_comma t = false -> split_comma t = [t].
Proof.
  induction t as [|c r IH]; simpl; intros H; [reflexivity|].
  apply orb_false_iff in H. destruct H as [Hc Hr].
  rewrite Hc, (IH Hr). reflexivity.
Qed.

Lemma split_comma_cons (t rest : string) :
  has_comma t = false ->
  split_comma (t ++ String ","%char rest) = t :: split_comma rest.
Proof.
  induction t as [|c r IH]; simpl; intros H; [reflexivity|].
  apply orb_false_iff in H. destruct H as [Hc Hr].
  rewrite Hc, (IH Hr). reflexivity.
Qed.

Lemma split_join_comma (l : list string) :
  l <> [] -> (forall t, In t l -> has_comma t = false) ->
  split_comma (join_comma l) = l.
Proof.
  unfold join_comma. induction l as [|x t IH]; intros Hne H; [contradiction|].
  destruct t as [|y t'].
  - simpl. apply split_comma_plain, H. now left.
  - change (String.concat "," (x :: y :: t'))
      with (x ++ String ","%char (String.concat "," (y :: t')))%string.
    rewrite split_comma_cons by (apply H; now left).
    f_equal. apply IH; [discriminate|]. intros z Hz. apply H. now right.
Qed.

Lemma join_comma_empty (x : string) (t : list string) :
  join_comma (x :: t) = "" -> x = "".
Proof.
  unfold join_comma. destruct t as [|y t']; simpl; [auto|].
  destruct x; [reflexivity|discriminate].
Qed.

(** X20. The list route reads the tag query back as the dashboard wrote it:
    splitting at commas is undone by joining with commas and never gives an
    empty list, and for tags that are not empty and hold no comma the filter
    the route builds from the joined selection restricts the list exactly as
    the selection itself does, an empty selection being no restriction. *)
Theorem tags_query_round_trip :
  (forall q, join_comma (split_comma q) = q /\ split_comma q <> []) /\
  (forall (l : list string) (statusQ st : option string),
     (forall t, In t l -> sendable_tag t) ->
     tags_filter (Some (query_filters statusQ (Some (join_comma l))))
     = tags_filter (Some (mkFilters st (Some l))) /\
     (l <> [] ->
      tags (query_filters statusQ (Some (join_comma l))) = Some l)).
Proof.
  split.
  - intros q. split; [apply join_split_comma|apply split_comma_not_nil].
  - intros l statusQ st H.
    destruct l as [|x t]; [split; [reflexivity|intros Hn; now destruct Hn]|].
    assert (Hne : join_comma (x :: t) <> "").
    { intros E. apply join_comma_empty in E.
      destruct (H x (or_introl eq_refl)) as [Hx _]. contradiction. }
    assert (Hsplit : split_comma (join_comma (x :: t)) = x :: t).
    { apply split_join_comma; [discriminate|]. intros z Hz. now apply H. }
    assert (Htags : tags (query_filters statusQ (Some (join_comma (x :: t))))
                    = Some (x :: t)).
    { unfold query_filters. simpl tags.
      destruct (join_comma (x :: t)) eqn:E; [contradiction|].
      now rewrite Hsplit. }
    split; [|intros _; exact Htags].
    unfold tags_filter. now rewrite Htags.
Qed.

Lemma tags_query_round_trip_witness :
  (forall t, In t ["IoT"; "AI/ML"] -> sendable_tag t) /\
  join_comma ["IoT"; "AI/ML"] = "IoT,AI/ML" /\
  tags (query_filters None (Some "IoT,AI/ML")) = Some ["IoT"; "AI/ML"] /\
  tags (query_filters None (Some "")) = None.
Proof.
  assert (H : forall t, In t ["IoT"; "AI/ML"] -> sendable_tag t).
  { intros t [<-|[<-|[]]]; split; discriminate || reflexivity. }
  destruct tags_query_round_trip as [_ Hrt].
  destruct (Hrt ["IoT"; "AI/ML"] None None H) as [_ Htags].
  split; [exact H|]. split; [reflexivity|].
  split; [apply Htags; discriminate|reflexivity].
Defined.

(** ** Client state *)

Lemma not_mem_string (x : string) (l : list string) :
  existsb (String.eqb x) l = false <-> ~ In x l.
Proof.
  rewrite <- mem_string_In. destruct (existsb (String.eqb x) l); split;
    intros H; try reflexivity; try discriminate; try (intros E; discriminate).
  exfalso. now apply H.
Qed.

(** X21. A click on a tag toggles it and nothing else: afterwards the tag is
    selected exactly when it was not before, every other tag is selected
    exactly when it was, a selection without repeats stays without repeats,
    and two clicks on a tag that was not selected give back the selection. *)
Theorem handleTagClick_toggles :
  forall (selectedTags : list string) (tag : string),
    (In tag (handleTagClick selectedTags tag) <-> ~ In tag selectedTags) /\
    (forall t, t <> tag ->
       (In t (handleTagClick selectedTags tag) <-> In t selectedTags)) /\
    (NoDup selectedTags -> NoDup (handleTagClick selectedTags tag)) /\
    (~ In tag selectedTags ->
     handleTagClick (handleTagClick selectedTags tag) tag = selectedTags).
Proof.
  intros l tag. unfold handleTagClick at 1 2 3.
  destruct (existsb (String.eqb tag) l) eqn:E.
  - assert (Hin : In tag l) by now apply mem_string_In.
    split; [|split; [|split]].
    + rewrite filter_In, String.eqb_refl. simpl. split; [intros [_ H]|]; easy.
    + intros t Ht. rewrite filter_In. split; [intros [H _]; exact H|].
      intros H. split; [exact H|]. apply negb_true_iff, String.eqb_neq, Ht.
    + intros Hnd. now apply NoDup_filter.
    + intros H. contradiction.
  - assert (Hout : ~ In tag l) by now apply not_mem_string.
    split; [|split; [|split]].
    + rewrite in_app_iff. simpl. split; auto.
    + intros t Ht. rewrite in_app_iff. simpl. split; [|auto].
      intros [H|[H|[]]]; [exact H|]. now destruct Ht.
    + intros Hnd. apply NoDup_app; [exact Hnd|repeat constructor; intros []|].
      intros x Hx [<-|[]]. contradiction.
    + intros _. unfold handleTagClick. rewrite E.
      rewrite (proj2 (mem_string_In tag (l ++ [tag])))
        by (apply in_or_app; right; now left).
      rewrite filter_app. simpl. rewrite String.eqb_refl. simpl.
      rewrite app_nil_r. apply filter_all. intros x Hx.
      apply negb_true_iff, String.eqb_neq. intros ->. contradiction.
Qed.

Lemma handleTagClick_toggles_witness :
  NoDup ["IoT"; "Energy"] /\ ~ In "Biotech" ["IoT"; "Energy"] /\
  NoDup (handleTagClick ["IoT"; "Energy"] "Biotech") /\
  handleTagClick (handleTagClick ["IoT"; "Energy"] "Biotech") "Biotech"
  = ["IoT"; "Energy"] /\
  handleTagClick ["IoT"; "Energy"] "IoT" = ["Energy"].
Proof.
  assert (Hnd : NoDup ["IoT"; "Energy"]).
  { repeat constructor; simpl; intuition discriminate. }
  assert (Hout : ~ In "Biotech" ["IoT"; "Energy"]).
  { simpl. intuition discriminate. }
  destruct (handleTagClick_toggles ["IoT"; "Energy"] "Biotech")
    as (_ & _ & Hkeep & Htwice).
  split; [exact Hnd|]. split; [exact Hout|].
  split; [exact (Hkeep Hnd)|]. split; [exact (Htwice Hout)|reflexivity].
Defined.

(** X22. Dropping files never exceeds the limit and never reorders: the new
    list is the first [maxFiles] of the old files followed by the accepted
    ones, so its length is the smaller of [maxFiles] and the number of files
    at hand; while the old list is within the limit it is kept whole, and
    what does not fit is cut from the end of the accepted files. *)
Theorem onDrop_keeps_within_limit :
  forall (A : Type) (files acceptedFiles : list A) (maxFiles : nat),
    List.length (onDrop files acceptedFiles maxFiles)
    = Nat.min maxFiles (List.length files + List.length acceptedFiles) /\
    (List.length files <= maxFiles ->
     onDrop files acceptedFiles maxFiles
     = files ++ firstn (maxFiles - List.length files) acceptedFiles)%nat /\
    (List.length files + List.length acceptedFiles <= maxFiles ->
     onDrop files acceptedFiles maxFiles = files ++ acceptedFiles)%nat.
Proof.
  intros A files acc n. unfold onDrop. split; [|split].
  - now rewrite length_firstn, length_app.
  - intros H. rewrite firstn_app, (firstn_all2 files) by exact H. reflexivity.
  - intros H. apply firstn_all2. now rewrite length_app.
Qed.

Lemma onDrop_keeps_within_limit_witness :
  (List.length [1; 2] <= 3)%nat /\
  onDrop [1; 2] [3; 4; 5] 3 = [1; 2; 3] /\
  (List.length [1; 2] + List.length [3] <= 3)%nat /\
  onDrop [1; 2] [3] 3 = [1; 2; 3].
Proof.
  assert (H1 : (List.length [1; 2] <= 3)%nat) by (simpl; lia).
  assert (H2 : (List.length [1; 2] + List.length [3] <= 3)%nat) by (simpl; lia).
  destruct (onDrop_keeps_within_limit nat [1; 2] [3; 4; 5] 3) as (_ & Ha & _).
  destruct (onDrop_keeps_within_limit nat [1; 2] [3] 3) as (_ & _ & Hb).
  split; [exact H1|]. split; [exact (Ha H1)|]. split; [exact H2|exact (Hb H2)].
Defined.

Lemma filter_index_all {A} (keep : nat -> bool) (n : nat) (l : list A) :
  (forall i, (n <= i)%nat -> keep i = true) -> filter_index keep n l = l.
Proof.
  revert n. induction l as [|x t IH]; simpl; intros n H; [reflexivity|].
  rewrite (H n (Nat.le_refl n)). f_equal. apply IH.
  intros i Hi. apply H. lia.
Qed.

Lemma filter_index_remove {A} (n k : nat) (l : list A) :
  filter_index (fun i => negb (Nat.eqb i (n + k))) n l
  = firstn k l ++ skipn (S k) l.
Proof.
  revert n k. induction l as [|x t IH]; intros n k; simpl.
  - now destruct k.
  - destruct k as [|k].
    + rewrite Nat.add_0_r, Nat.eqb_refl. simpl.
      apply filter_index_all. intros i Hi.
      apply negb_true_iff, Nat.eqb_neq. lia.
    + replace (Nat.eqb n (n + S k)) with false
        by (symmetry; apply Nat.eqb_neq; lia).
      simpl. f_equal.
      replace (n + S k)%nat with (S n + k)%nat by lia. apply IH.
Qed.

(** X23. Removing a file by its position removes that file and no other:
    for a position within the list the result is the files before it followed
    by the files after it, one file fewer; for a position past the end the
    list is unchanged. *)
Theorem removeFile_removes_one :
  forall (A : Type) (files : list A) (index : nat),
    removeFile files index = firstn index files ++ skipn (S index) files /\
    (index < List.length files ->
     S (List.length (removeFile files index)) = List.length files)%nat /\
    (List.length files <= index -> removeFile files index = files)%nat.
Proof.
  intros A files index.
  assert (H : removeFile files index
              = firstn index files ++ skipn (S index) files)
    by apply (filter_index_remove 0 index files).
  split; [exact H|]. split.
  - intros Hlt. rewrite H, length_app, length_firstn, length_skipn. lia.
  - intros Hle. rewrite H, firstn_all2, skipn_all2 by lia. apply app_nil_r.
Qed.

Lemma removeFile_removes_one_witness :
  (1 < List.length ["a"; "b"; "c"])%nat /\
  removeFile ["a"; "b"; "c"] 1 = ["a"; "c"] /\
  (List.length ["a"; "b"; "c"] <= 5)%nat /\
  removeFile ["a"; "b"; "c"] 5 = ["a"; "b"; "c"].
Proof.
  assert (H1 : (1 < List.length ["a"; "b"; "c"])%nat) by (simpl; lia).
  assert (H2 : (List.length ["a"; "b"; "c"] <= 5)%nat) by (simpl; lia).
  destruct (removeFile_removes_one string ["a"; "b"; "c"] 1) as (Ha & _ & _).
  destruct (removeFile_removes_one string ["a"; "b"; "c"] 5) as (_ & _ & Hb).
  split; [exact H1|]. split; [exact Ha|]. split; [exact H2|exact (Hb H2)].
Defined.

(** ** upsertUser *)





(** ** Keys and references are kept by every writer *)

Lemma NoDup_map_snoc_key {A K} (key : A -> K) (l : list A) (x : A) :
  NoDup (map key l) -> ~ In (key x) (map key l) ->
  NoDup (map key (l ++ [x])).
Proof.
  intros Hnd Hx. rewrite map_app. simpl.
  apply NoDup_app; [exact Hnd|repeat constructor; intros []|].
  intros k Hk [<-|[]]. contradiction.
Qed.

Lemma existsb_false_not_in {A} (key : A -> Z) (id : Z) (l : list A) :
  existsb (fun y => Z.eqb (key y) id) l = false -> ~ In id (map key l).
Proof.
  intros E Hin. apply in_map_iff in Hin. destruct Hin as (y & Hk & Hy).
  assert (Ht : existsb (fun y => Z.eqb (key y) id) l = true).
  { apply existsb_exists. exists y. split; [exact Hy|now apply Z.eqb_eq]. }
  congruence.
Qed.

Lemma has_user_more (id : string) (s s' : Store) :
  (forall k, In k (map user_id (users s)) -> In k (map user_id (users s'))) ->
  has_user id s = true -> has_user id s' = true.
Proof.
  unfold has_user. intros H E. apply existsb_exists in E.
  destruct E as (u & Hu & Hid). apply String.eqb_eq in Hid.
  assert (Hin : In id (map user_id (users s')))
    by (apply H; rewrite <- Hid; now apply in_map).
  apply in_map_iff in Hin. destruct Hin as (u' & E' & Hu').
  apply existsb_exists. exists u'. split; [exact Hu'|now apply String.eqb_eq].
Qed.

Lemma has_invention_more (id : Z) (s s' : Store) :
  (forall k, In k (map inv_id (inventions s)) ->
             In k (map inv_id (inventions s'))) ->
  has_invention id s = true -> has_invention id s' = true.
Proof.
  unfold has_invention. intros H E. apply existsb_exists in E.
  destruct E as (i & Hi & Hid). apply Z.eqb_eq in Hid.
  assert (Hin : In id (map inv_id (inventions s')))
    by (apply H; rewrite <- Hid; now apply in_map).
  apply in_map_iff in Hin. destruct Hin as (i' & E' & Hi').
  apply existsb_exists. exists i'. split; [exact Hi'|now apply Z.eqb_eq].
Qed.

(** A store with more users and inventions, and rows that either were there
    or passed their references, is consistent again. *)
Lemma consistent_step (s s' : Store) :
  consistent s ->
  (forall k, In k (map user_id (users s)) -> In k (map user_id (users s'))) ->
  (forall k, In k (map inv_id (inventions s)) ->
             In k (map inv_id (inventions s'))) ->
  users_pkey s' -> inventions_pkey s' -> files_pkey s' ->
  comments_pkey s' -> likes_pkey s' ->
  (forall i, In i (inventions s') ->
     (exists i0, In i0 (inventions s) /\ inv_authorId i0 = inv_authorId i) \/
     has_user (inv_authorId i) s = true) ->
  (forall c, In c (comments s') ->
     In c (comments s) \/
     (has_invention (comment_inventionId c) s = true /\
      has_user (comment_authorId c) s = true)) ->
  (forall l, In l (likes s') ->
     (exists l0, In l0 (likes s) /\
                 like_inventionId l0 = like_inventionId l /\
                 like_userId l0 = like_userId l) \/
     (has_invention (like_inventionId l) s = true /\
      has_user (like_userId l) s = true)) ->
  (forall f, In f (files s') ->
     In f (files s) \/ has_invention (file_inventionId f) s = true) ->
  consistent s'.
Proof.
  intros [Hup Hip Hfp Hcp Hlp Hia Hca Hci Hli Hlu Hfi]
         Hu Hi Hup' Hip' Hfp' Hcp' Hlp' Hinv Hcom Hlik Hfil.
  constructor; try assumption.
  - intros i Hin. apply (has_user_more _ s s' Hu).
    destruct (Hinv i Hin) as [(i0 & Hi0 & <-)|H]; [now apply Hia|exact H].
  - intros c Hin. apply (has_user_more _ s s' Hu).
    destruct (Hcom c Hin) as [H|[_ H]]; [now apply Hca|exact H].
  - intros c Hin. apply (has_invention_more _ s s' Hi).
    destruct (Hcom c Hin) as [H|[H _]]; [now apply Hci|exact H].
  - intros l Hin. apply (has_invention_more _ s s' Hi).
    destruct (Hlik l Hin) as [(l0 & Hl0 & <- & _)|[H _]];
      [now apply Hli|exact H].
  - intros l Hin. apply (has_user_more _ s s' Hu).
    destruct (Hlik l Hin) as [(l0 & Hl0 & _ & <-)|[_ H]];
      [now apply Hlu|exact H].
  - intros f Hin. apply (has_invention_more _ s s' Hi).
    destruct (Hfil f Hin) as [H|H]; [now apply Hfi|exact H].
Qed.

Lemma toggleLike_likes_refs (like : NewLike) (now : Z) (s : Store) (l : Like) :
  In l (likes (snd (toggleLike like now s))) ->
  (exists l0, In l0 (likes s) /\
              like_inventionId l0 = like_inventionId l /\
              like_userId l0 = like_userId l) \/
  (has_invention (like_inventionId l) s = true /\
   has_user (like_userId l) s = true).
Proof.
  unfold toggleLike, bind, select_likes.
  destruct (filter _ (likes s)) as [|existing rest].
  - unfold insert_like.
    destruct (existsb _ (likes s)); [intros H; left; now exists l|].
    destruct (has_invention _ s) eqn:Ei; simpl; [|intros H; left; now exists l].
    destruct (has_user _ s) eqn:Eu; simpl; [|intros H; left; now exists l].
    intros H. apply in_app_or in H. destruct H as [H|[<-|[]]].
    + left. now exists l.
    + right. simpl. auto.
  - destruct (Bool.eqb _ _); simpl; intros H.
    + apply filter_In in H. left. exists l. tauto.
    + apply in_map_iff in H. destruct H as (l0 & <- & Hl0).
      left. exists l0. split; [exact Hl0|].
      destruct (Z.eqb _ _); split; reflexivity.
Qed.

Lemma toggleLike_consistent (like : NewLike) (now : Z) (s : Store) :
  consistent s -> consistent (snd (toggleLike like now s)).
Proof.
  intros Hs.
  destruct (toggleLike_other_tables like now s) as (Hu & Hi & Hc & Hf & _).
  apply (consistent_step s _ Hs).
  - now rewrite Hu.
  - now rewrite Hi.
  - unfold users_pkey. rewrite Hu. apply Hs.
  - unfold inventions_pkey. rewrite Hi. apply Hs.
  - unfold files_pkey. rewrite Hf. apply Hs.
  - unfold comments_pkey. rewrite Hc. apply Hs.
  - apply toggleLike_likes_pkey, Hs.
  - rewrite Hi. intros i Hin. left. now exists i.
  - rewrite Hc. auto.
  - apply toggleLike_likes_refs.
  - rewrite Hf. auto.
Qed.

Lemma createComment_consistent (comment : NewComment) (now : Z) (s : Store) :
  consistent s -> consistent (snd (createComment comment now s)).
Proof.
  intros Hs.
  destruct (createComment_other_tables comment now s) as (Hu & Hi & Hf & Hl).
  assert (Hcom : comments (snd (createComment comment now s)) = comments s \/
                 (comments (snd (createComment comment now s))
                  = comments s ++ [mkComment (comments_id_seq s)
                                     (nc_content comment)
                                     (nc_inventionId comment)
                                     (nc_authorId comment) (Some now)] /\
                  existsb (fun c => Z.eqb (comment_id c) (comments_id_seq s))
                          (comments s) = false /\
                  has_invention (nc_inventionId comment) s = true /\
                  has_user (nc_authorId comment) s = true)).
  { unfold createComment, bind, insert_comment, select_users_by_id.
    destruct (existsb _ (comments s)) eqn:E; [now left|].
    destruct (has_invention _ s) eqn:Ei; simpl; [|now left].
    destruct (has_user _ s) eqn:Eu; simpl; [|now left].
    right. auto. }
  apply (consistent_step s _ Hs).
  - now rewrite Hu.
  - now rewrite Hi.
  - unfold users_pkey. rewrite Hu. apply Hs.
  - unfold inventions_pkey. rewrite Hi. apply Hs.
  - unfold files_pkey. rewrite Hf. apply Hs.
  - unfold comments_pkey.
    destruct Hcom as [->|(-> & E & _)]; [apply Hs|].
    apply NoDup_map_snoc_key; [apply Hs|].
    now apply existsb_false_not_in.
  - unfold likes_pkey. rewrite Hl. apply Hs.
  - rewrite Hi. intros i Hin. left. now exists i.
  - destruct Hcom as [->|(-> & _ & Hci & Hcu)]; [auto|].
    intros c Hin. apply in_app_or in Hin.
    destruct Hin as [Hin|[<-|[]]]; [now left|right; simpl; auto].
  - rewrite Hl. intros l Hin. left. now exists l.
  - rewrite Hf. auto.
Qed.

Lemma updateInventionStatus_consistent (id : Z) (st : string)
    (amount : option Z) (now : Z) (s : Store) :
  consistent s -> consistent (snd (updateInventionStatus id st amount now s)).
Proof.
  intros Hs.
  destruct (integer_or_null amount && integer id) eqn:Hfit;
    [rewrite (updateInventionStatus_bound id st amount now s Hfit)
    |now rewrite (updateInventionStatus_refused id st amount now s Hfit)].
  set (s' := snd (_, _)).
  assert (Hids : map inv_id (inventions s') = map inv_id (inventions s)).
  { unfold s'. simpl.
    rewrite map_map. apply map_ext. intros i.
    destruct (Z.eqb (inv_id i) id); reflexivity. }
  apply (consistent_step s _ Hs); try (intros x Hx; now left);
    try apply Hs.
  - auto.
  - now rewrite Hids.
  - unfold inventions_pkey. rewrite Hids. apply Hs.
  - unfold s'. simpl.
    intros i Hin. apply in_map_iff in Hin. destruct Hin as (i0 & <- & Hi0).
    left. exists i0. split; [exact Hi0|].
    destruct (Z.eqb (inv_id i0) id); reflexivity.
  - intros l Hin. left. now exists l.
Qed.

Lemma consistent_same_tables (s s' : Store) :
  users s' = users s -> inventions s' = inventions s -> files s' = files s ->
  comments s' = comments s -> likes s' = likes s ->
  consistent s -> consistent s'.
Proof.
  intros Hu Hi Hf Hc Hl Hs.
  apply (consistent_step s _ Hs).
  - now rewrite Hu.
  - now rewrite Hi.
  - unfold users_pkey. rewrite Hu. apply Hs.
  - unfold inventions_pkey. rewrite Hi. apply Hs.
  - unfold files_pkey. rewrite Hf. apply Hs.
  - unfold comments_pkey. rewrite Hc. apply Hs.
  - unfold likes_pkey. rewrite Hl. apply Hs.
  - rewrite Hi. intros i Hin. left. now exists i.
  - rewrite Hc. auto.
  - rewrite Hl. intros l Hin. left. now exists l.
  - rewrite Hf. auto.
Qed.

Lemma createInvention_consistent (v : NewInvention) (now : Z) (s : Store) :
  consistent s -> consistent (snd (createInvention v now s)).
Proof.
  intros Hs. unfold createInvention, insert_invention.
  destruct (integer_or_null (ni_fundingAmount v)); simpl; [|exact Hs].
  destruct (varchar 255 (ni_title v)) as [title|]; simpl; [|exact Hs].
  destruct (integer (inventions_id_seq s)); simpl; [|exact Hs].
  destruct (existsb _ (inventions s)) eqn:E; simpl;
    [now apply (consistent_same_tables s)|].
  destruct (has_user (ni_authorId v) s) eqn:Eu; simpl;
    [|now apply (consistent_same_tables s)].
  apply (consistent_step s _ Hs); simpl;
    try (intros x Hx; now left); try apply Hs.
  - auto.
  - intros k Hk. rewrite map_app. apply in_or_app. now left.
  - unfold inventions_pkey. simpl.
    apply NoDup_map_snoc_key; [apply Hs|]. simpl.
    now apply existsb_false_not_in.
  - intros i Hin. apply in_app_or in Hin.
    destruct Hin as [Hin|[<-|[]]]; [left; now exists i|right; exact Eu].
  - intros l Hin. left. now exists l.
Qed.

Lemma saveFileInfo_consistent (f : FileInfo) (now : Z) (s : Store) :
  consistent s -> consistent (snd (saveFileInfo f now s)).
Proof.
  intros Hs. unfold saveFileInfo.
  destruct (integer (fi_size f) && integer (fi_inventionId f)); simpl;
    [|exact Hs].
  destruct (varchar 255 (fi_filename f)) as [filename|]; simpl; [|exact Hs].
  destruct (varchar 255 (fi_originalName f)) as [originalName|]; simpl;
    [|exact Hs].
  destruct (varchar 100 (fi_mimeType f)) as [mimeType|]; simpl; [|exact Hs].
  destruct (integer (files_id_seq s)); simpl; [|exact Hs].
  destruct (existsb _ (files s)) eqn:E; simpl;
    [now apply (consistent_same_tables s)|].
  destruct (has_invention (fi_inventionId f) s) eqn:Ei; simpl;
    [|now apply (consistent_same_tables s)].
  apply (consistent_step s _ Hs); simpl;
    try (intros x Hx; now left); try apply Hs.
  - auto.
  - auto.
  - unfold files_pkey. simpl.
    apply NoDup_map_snoc_key; [apply Hs|]. simpl.
    now apply existsb_false_not_in.
  - intros i Hin. left. now exists i.
  - intros l Hin. left. now exists l.
  - intros x Hin. apply in_app_or in Hin.
    destruct Hin as [Hin|[<-|[]]]; [now left|right; exact Ei].
Qed.

Lemma upsertUser_consistent (d : UpsertUser) (now : Z) (s : Store) :
  consistent s -> consistent (snd (upsertUser d now s)).
Proof.
  intros Hs. unfold upsertUser.
  destruct (filter (fun u => String.eqb (user_id u) (uu_id d)) (users s))
    as [|old rest] eqn:Hf.
  - destruct (email_taken _ s); [exact Hs|].
    apply (consistent_step s _ Hs); simpl;
      try (intros x Hx; now left); try apply Hs.
    + intros k Hk. rewrite map_app. apply in_or_app. now left.
    + auto.
    + unfold users_pkey. simpl.
      apply NoDup_map_snoc_key; [apply Hs|]. simpl.
      intros Hin. apply in_map_iff in Hin. destruct Hin as (u & E & Hu).
      rewrite filter_nil_iff in Hf. specialize (Hf u Hu).
      apply String.eqb_neq in Hf. contradiction.
    + intros i Hin. left. now exists i.
    + intros l Hin. left. now exists l.
  - destruct (email_taken _ s); [exact Hs|].
    assert (Hids : map user_id
                     (map (fun u => if String.eqb (user_id u) (uu_id d)
                                    then updated_user d now u else u)
                          (users s))
                   = map user_id (users s)).
    { rewrite map_map. apply map_ext. intros u.
      destruct (String.eqb (user_id u) (uu_id d)) eqn:E; [|reflexivity].
      simpl. now apply String.eqb_eq in E. }
    apply (consistent_step s _ Hs); simpl;
      try (intros x Hx; now left); try apply Hs.
    + now rewrite Hids.
    + auto.
    + unfold users_pkey. simpl. rewrite Hids. apply Hs.
    + intros i Hin. left. now exists i.
    + intros l Hin. left. now exists l.
Qed.

Lemma empty_store_consistent : consistent empty_store.
Proof.
  constructor; try (intros x []); constructor.
Qed.

Lemma perform_consistent (c : Call) (s : Store) :
  consistent s -> consistent (perform c s).
Proof.
  intros Hs. destruct c; simpl.
  - now apply upsertUser_consistent.
  - now apply createInvention_consistent.
  - now apply updateInventionStatus_consistent.
  - now apply createComment_consistent.
  - now apply toggleLike_consistent.
  - now apply saveFileInfo_consistent.
Qed.

Lemma perform_all_consistent (calls : list Call) :
  forall s, consistent s -> consistent (perform_all calls s).
Proof.
  induction calls as [|c rest IH]; intros s Hs; simpl; [exact Hs|].
  apply IH. now apply perform_consistent.
Qed.

(** X25. Keys and references hold in every store the storage layer builds:
    each of upsertUser, createInvention, updateInventionStatus,
    createComment, toggleLike and saveFileInfo, resolved or rejected, keeps
    every primary key and every reference of the schema, so any sequence of
    their calls on the empty database ends in a store where ids are unique
    and every invention, comment, like and file refers to rows that exist. *)
Theorem writers_keep_keys_and_references :
  (forall (c : Call) (s : Store), consistent s -> consistent (perform c s)) /\
  (forall (calls : list Call), consistent (perform_all calls empty_store)).
Proof.
  split.
  - apply perform_consistent.
  - intros calls. apply perform_all_consistent, empty_store_consistent.
Qed.

Lemma writers_keep_keys_and_references_witness :
  let calls :=
    [CallUpsertUser (mkUpsertUser "u1" None None None None None) 1;
     CallCreateInvention
       (mkNewInvention "Kite" "A kite" None None None "u1") 2;
     CallToggleLike (mkNewLike 1 true "u1") 3;
     CallToggleLike (mkNewLike 7 true "u1") 4;
     CallCreateComment (mkNewComment "nice" 1 "ghost") 5] in
  consistent empty_store /\
  consistent (perform (CallToggleLike (mkNewLike 1 true "u1") 3) empty_store) /\
  consistent (perform_all calls empty_store) /\
  List.length (likes (perform_all calls empty_store)) = 1%nat /\
  comments (perform_all calls empty_store) = [].
Proof.
  intros calls.
  destruct writers_keep_keys_and_references as [Hone Hall].
  split; [exact empty_store_consistent|].
  split; [exact (Hone _ _ empty_store_consistent)|].
  split; [exact (Hall calls)|]. split; reflexivity.
Defined.

(** ** What holds on every store the storage layer builds *)

Lemma perform_likes (c : Call) (s : Store) :
  (exists like now, c = CallToggleLike like now) \/
  likes (perform c s) = likes s.
Proof.
  destruct c; simpl; try (left; eauto; fail); right.
  - unfold upsertUser.
    destruct (filter _ (users s)); destruct (email_taken _ s); reflexivity.
  - apply createInvention_other_tables.
  - apply updateInventionStatus_other_tables.
  - apply createComment_other_tables.
  - apply saveFileInfo_tables.
Qed.

Lemma perform_all_at_most_one (calls : list Call) :
  forall s, at_most_one_like s -> at_most_one_like (perform_all calls s).
Proof.
  induction calls as [|c rest IH]; intros s Hs; simpl; [exact Hs|].
  apply IH. destruct (perform_likes c s) as [(like & now & ->)|H].
  - simpl. now apply toggleLike_at_most_one.
  - intros i u. unfold pair_rows. rewrite H. apply Hs.
Qed.



(** X26. From the empty database, whatever calls the storage layer has
    served: no (invention, user) pair has two like rows; every invention the
    grouped-query draft returns has an author; and the loop draft answers
    exactly the inventions that pass the filters, each once. *)
Theorem on_every_store_built :
  forall (calls : list Call),
    let s := perform_all calls empty_store in
    at_most_one_like s /\
    (forall (array_in : string -> option (list string)) filters l r,
       JoinDraft.getInventions array_in filters s = Resolved l ->
       In r l -> author r <> None) /\
    (forall filters,
       Permutation (map invention (LoopDraft.getInventions filters s))
                   (filter (matches_filters filters) (inventions s))).
Proof.
  intros calls s.
  pose proof (perform_all_consistent calls empty_store empty_store_consistent)
    as Hs. fold s in Hs.
  split; [|split].
  - apply perform_all_at_most_one. intros i u. simpl. lia.
  - intros array_in filters l r.
    apply JoinDraft_author_under_fkey, Hs.
  - intros filters. apply LoopDraft_answer_perm; apply Hs.
Qed.

(** ** The grouped query, count by count *)

Lemma from_joins_rows (s : Store) :
  JoinDraft.from_joins s = flat_map (joined_rows_of s) (inventions s).
Proof. reflexivity. Qed.

Lemma leftJoin_length {B} (on : B -> bool) (table : list B) :
  List.length (JoinDraft.leftJoin on table)
  = Nat.max 1 (List.length (filter on table)).
Proof.
  unfold JoinDraft.leftJoin. destruct (filter on table) as [|b t]; simpl.
  - reflexivity.
  - now rewrite length_map.
Qed.

Lemma leftJoin_filter_length {B} (on p : B -> bool) (table : list B) :
  List.length (filter (fun o => match o with Some b => p b | None => false end)
                      (JoinDraft.leftJoin on table))
  = List.length (filter p (filter on table)).
Proof.
  unfold JoinDraft.leftJoin. destruct (filter on table) as [|b t] eqn:E.
  - reflexivity.
  - rewrite filter_map_comm, length_map. reflexivity.
Qed.

Lemma leftJoin_Some {B} (on : B -> bool) (table : list B) (b : B) :
  In (Some b) (JoinDraft.leftJoin on table) <-> In b table /\ on b = true.
Proof.
  split.
  - intros H. exact (leftJoin_In on table (Some b) H).
  - intros [Hin Hon]. unfold JoinDraft.leftJoin.
    assert (Hf : In b (filter on table)) by (apply filter_In; auto).
    destruct (filter on table) as [|b0 t]; [destruct Hf|].
    now apply in_map.
Qed.

Lemma leftJoin_not_nil {B} (on : B -> bool) (table : list B) :
  exists o, In o (JoinDraft.leftJoin on table).
Proof.
  unfold JoinDraft.leftJoin. destruct (filter on table) as [|b t].
  - exists None. now left.
  - exists (Some b). now left.
Qed.

Lemma flat_map_const_length {A B} (f : A -> list B) (n : nat) (l : list A) :
  (forall a, In a l -> List.length (f a) = n) ->
  List.length (flat_map f l) = (List.length l * n)%nat.
Proof.
  induction l as [|a t IH]; simpl; intros H; [reflexivity|].
  rewrite length_app, IH, (H a (or_introl eq_refl)); [lia|].
  intros x Hx. apply H. now right.
Qed.

(** Rows built from a like [l], every comment of [C] and every file of [F]:
    a condition on the like keeps the whole block or none of it. *)
Lemma like_block_length {U} (i : Invention) (u : U)
    (mk : Invention -> U -> option Like -> option Comment -> option File
          -> JoinDraft.Joined)
    (p : option Like -> bool) (L : list (option Like))
    (C : list (option Comment)) (F : list (option File)) :
  (forall l c f, JoinDraft.j_likes (mk i u l c f) = l) ->
  List.length
    (filter (fun r => p (JoinDraft.j_likes r))
       (flat_map (fun l => flat_map (fun c => map (fun f => mk i u l c f) F) C) L))
  = (List.length (filter p L) * (List.length C * List.length F))%nat.
Proof.
  intros Hmk. induction L as [|l t IH]; simpl; [reflexivity|].
  rewrite filter_app, length_app, IH.
  assert (Hblock : List.length
            (filter (fun r => p (JoinDraft.j_likes r))
               (flat_map (fun c => map (fun f => mk i u l c f) F) C))
          = if p l then (List.length C * List.length F)%nat else 0%nat).
  { destruct (p l) eqn:E.
    - rewrite filter_all.
      + apply flat_map_const_length. intros c _. apply length_map.
      + intros r Hr. apply in_flat_map in Hr. destruct Hr as (c & _ & Hr).
        apply in_map_iff in Hr. destruct Hr as (f & <- & _).
        now rewrite Hmk.
    - rewrite (proj2 (filter_nil_iff _ _)); [reflexivity|].
      intros r Hr. apply in_flat_map in Hr. destruct Hr as (c & _ & Hr).
      apply in_map_iff in Hr. destruct Hr as (f & <- & _).
      now rewrite Hmk. }
  rewrite Hblock. destruct (p l); simpl; lia.
Qed.

Lemma distinct_In (x : Z) (l : list Z) : In x (distinct l) <-> In x l.
Proof.
  induction l as [|y t IH]; simpl; [reflexivity|].
  rewrite filter_In, IH. split.
  - intros [H|[H _]]; auto.
  - intros [H|H]; [now left|].
    destruct (Z.eq_dec x y) as [->|Hne]; [now left|].
    right. split; [exact H|]. apply negb_true_iff, Z.eqb_neq, Hne.
Qed.

Lemma distinct_NoDup (l : list Z) : NoDup (distinct l).
Proof.
  induction l as [|y t IH]; simpl; constructor.
  - rewrite filter_In. intros [_ H].
    rewrite Z.eqb_refl in H. discriminate.
  - now apply NoDup_filter.
Qed.

Lemma distinct_length (l l' : list Z) :
  NoDup l' -> (forall x, In x l <-> In x l') ->
  List.length (distinct l) = List.length l'.
Proof.
  intros Hnd H. apply Permutation_length.
  apply NoDup_Permutation; [apply distinct_NoDup|exact Hnd|].
  intros x. rewrite distinct_In. apply H.
Qed.

Lemma joined_rows_of_In (s : Store) (i : Invention) (r : JoinDraft.Joined) :
  In r (joined_rows_of s i) <->
  JoinDraft.j_inventions r = i /\
  In (JoinDraft.j_users r)
     (JoinDraft.leftJoin (fun u => String.eqb (inv_authorId i) (user_id u))
                         (users s)) /\
  In (JoinDraft.j_likes r)
     (JoinDraft.leftJoin (fun l => Z.eqb (inv_id i) (like_inventionId l))
                         (likes s)) /\
  In (JoinDraft.j_comments r)
     (JoinDraft.leftJoin (fun c => Z.eqb (inv_id i) (comment_inventionId c))
                         (comments s)) /\
  In (JoinDraft.j_files r)
     (JoinDraft.leftJoin (fun f => Z.eqb (inv_id i) (file_inventionId f))
                         (files s)).
Proof.
  unfold joined_rows_of. split.
  - intros H.
    apply in_flat_map in H. destruct H as (u & Hu & H).
    apply in_flat_map in H. destruct H as (l & Hl & H).
    apply in_flat_map in H. destruct H as (c & Hc & H).
    apply in_map_iff in H. destruct H as (f & <- & Hf).
    simpl. auto.
  - destruct r as [i' u l c f]. simpl. intros (-> & Hu & Hl & Hc & Hf).
    apply in_flat_map. exists u. split; [exact Hu|].
    apply in_flat_map. exists l. split; [exact Hl|].
    apply in_flat_map. exists c. split; [exact Hc|].
    now apply in_map.
Qed.

Lemma one_author_slot (s : Store) (i : Invention) :
  users_pkey s ->
  exists u0,
    JoinDraft.leftJoin (fun u => String.eqb (inv_authorId i) (user_id u))
                       (users s) = [u0].
Proof.
  intros Hpk.
  pose proof (users_pkey_one_match (inv_authorId i) (users s) Hpk) as Hle.
  unfold JoinDraft.leftJoin.
  destruct (filter _ (users s)) as [|a [|b t]]; simpl in *.
  - now exists None.
  - now exists (Some a).
  - lia.
Qed.

Lemma filter_flat_map_one {A B} (p : B -> bool) (f : A -> list B) (a : A)
    (l : list A) :
  NoDup l -> In a l ->
  (forall b, In b (f a) -> p b = true) ->
  (forall a' b, In a' l -> a' <> a -> In b (f a') -> p b = false) ->
  filter p (flat_map f l) = f a.
Proof.
  induction l as [|x t IH]; simpl; intros Hnd Hin Hyes Hno; [contradiction|].
  inversion Hnd as [|? ? Hx Ht]; subst. rewrite filter_app.
  destruct Hin as [->|Hin].
  - rewrite (filter_all p (f a) Hyes).
    rewrite (proj2 (filter_nil_iff p (flat_map f t))); [apply app_nil_r|].
    intros b Hb. apply in_flat_map in Hb. destruct Hb as (a' & Ha' & Hb).
    apply (Hno a' b); [now right| |exact Hb]. intros ->. contradiction.
  - rewrite (proj2 (filter_nil_iff p (f x))).
    + simpl. apply IH; try assumption.
      intros a' b Ha'. apply Hno. now right.
    + intros b Hb. apply (Hno x b); [now left| |exact Hb].
      intros ->. contradiction.
Qed.

(** Under the primary keys of inventions and users, the group of a joined
    row is the rows of its invention. *)
Lemma group_is_rows_of (s : Store) (i : Invention) (m : JoinDraft.Joined) :
  inventions_pkey s -> users_pkey s ->
  In i (inventions s) -> In m (joined_rows_of s i) ->
  filter (JoinDraft.in_group (JoinDraft.group_key m)) (JoinDraft.from_joins s)
  = joined_rows_of s i.
Proof.
  intros Hipk Hupk Hi Hm. rewrite from_joins_rows.
  destruct (one_author_slot s i Hupk) as (u0 & Hu0).
  assert (Hkey : forall r, In r (joined_rows_of s i) ->
                   JoinDraft.group_key r = (inv_id i, option_map user_id u0)).
  { intros r Hr. apply joined_rows_of_In in Hr.
    destruct Hr as (Hinv & Hu & _). rewrite Hu0 in Hu.
    destruct Hu as [Hu|[]]. unfold JoinDraft.group_key.
    now rewrite Hinv, <- Hu. }
  apply filter_flat_map_one.
  - apply (NoDup_map_inv inv_id). exact Hipk.
  - exact Hi.
  - intros r Hr. unfold JoinDraft.in_group. apply key_eqb_eq.
    now rewrite (Hkey r Hr), (Hkey m Hm).
  - intros i' r Hi' Hne Hr. unfold JoinDraft.in_group.
    destruct (JoinDraft.key_eqb _ _) eqn:E; [|reflexivity].
    apply key_eqb_eq in E. rewrite (Hkey m Hm) in E.
    apply joined_rows_of_In in Hr. destruct Hr as (Hinv & _).
    unfold JoinDraft.group_key in E. rewrite Hinv in E.
    injection E as Eid _. exfalso. apply Hne.
    apply (key_identifies inv_id (inventions s)); assumption.
Qed.

Lemma rows_count_isLike (s : Store) (i : Invention) (v : bool) :
  users_pkey s ->
  JoinDraft.count_isLike v (joined_rows_of s i)
  = (List.length
       (filter (fun l => Bool.eqb (like_isLike l) v)
               (filter (fun l => Z.eqb (inv_id i) (like_inventionId l))
                       (likes s)))
     * (Nat.max 1 (List.length
                     (filter (fun c => Z.eqb (inv_id i) (comment_inventionId c))
                             (comments s)))
        * Nat.max 1 (List.length
                       (filter (fun f => Z.eqb (inv_id i) (file_inventionId f))
                               (files s)))))%nat.
Proof.
  intros Hpk. destruct (one_author_slot s i Hpk) as (u0 & Hu0).
  unfold joined_rows_of, JoinDraft.count_isLike. rewrite Hu0. simpl flat_map.
  rewrite app_nil_r.
  rewrite (like_block_length i u0 JoinDraft.mkJoined
             (fun o => match o with
                       | Some l => Bool.eqb (like_isLike l) v
                       | None => false
                       end)) by reflexivity.
  now rewrite leftJoin_filter_length, !leftJoin_length.
Qed.

Lemma rows_count_comments (s : Store) (i : Invention) :
  comments_pkey s ->
  JoinDraft.count_distinct_comments (joined_rows_of s i)
  = List.length (filter (fun c => Z.eqb (inv_id i) (comment_inventionId c))
                        (comments s)).
Proof.
  intros Hpk. unfold JoinDraft.count_distinct_comments.
  rewrite <- (length_map comment_id (filter _ (comments s))).
  apply distinct_length; [now apply NoDup_map_filter|].
  intros x. rewrite in_flat_map, in_map_iff. split.
  - intros (r & Hr & Hx). apply joined_rows_of_In in Hr.
    destruct Hr as (_ & _ & _ & Hc & _).
    destruct (JoinDraft.j_comments r) as [c|]; [|destruct Hx].
    destruct Hx as [<-|[]]. exists c. split; [reflexivity|].
    apply filter_In. exact (proj1 (leftJoin_Some _ _ c) Hc).
  - intros (c & <- & Hc). apply filter_In in Hc.
    destruct (leftJoin_not_nil
                (fun u => String.eqb (inv_authorId i) (user_id u)) (users s))
      as (u & Hu).
    destruct (leftJoin_not_nil
                (fun l => Z.eqb (inv_id i) (like_inventionId l)) (likes s))
      as (l & Hl).
    destruct (leftJoin_not_nil
                (fun f => Z.eqb (inv_id i) (file_inventionId f)) (files s))
      as (f & Hf).
    exists (JoinDraft.mkJoined i u l (Some c) f). split; [|now left].
    apply joined_rows_of_In. simpl.
    pose proof (proj2 (leftJoin_Some
                         (fun c => Z.eqb (inv_id i) (comment_inventionId c))
                         (comments s) c) Hc) as Hc'.
    repeat split; assumption.
Qed.

Lemma rows_count_files (s : Store) (i : Invention) :
  files_pkey s ->
  JoinDraft.count_distinct_files (joined_rows_of s i)
  = List.length (filter (fun f => Z.eqb (inv_id i) (file_inventionId f))
                        (files s)).
Proof.
  intros Hpk. unfold JoinDraft.count_distinct_files.
  rewrite <- (length_map file_id (filter _ (files s))).
  apply distinct_length; [now apply NoDup_map_filter|].
  intros x. rewrite in_flat_map, in_map_iff. split.
  - intros (r & Hr & Hx). apply joined_rows_of_In in Hr.
    destruct Hr as (_ & _ & _ & _ & Hf).
    destruct (JoinDraft.j_files r) as [f|]; [|destruct Hx].
    destruct Hx as [<-|[]]. exists f. split; [reflexivity|].
    apply filter_In. exact (proj1 (leftJoin_Some _ _ f) Hf).
  - intros (f & <- & Hf). apply filter_In in Hf.
    destruct (leftJoin_not_nil
                (fun u => String.eqb (inv_authorId i) (user_id u)) (users s))
      as (u & Hu).
    destruct (leftJoin_not_nil
                (fun l => Z.eqb (inv_id i) (like_inventionId l)) (likes s))
      as (l & Hl).
    destruct (leftJoin_not_nil
                (fun c => Z.eqb (inv_id i) (comment_inventionId c)) (comments s))
      as (c & Hc).
    exists (JoinDraft.mkJoined i u l c (Some f)). split; [|now left].
    apply joined_rows_of_In. simpl.
    pose proof (proj2 (leftJoin_Some
                         (fun f => Z.eqb (inv_id i) (file_inventionId f))
                         (files s) f) Hf) as Hf'.
    repeat split; assumption.
Qed.

Lemma tallies_by_joined (s : Store) (x : Z) :
  tally_likes s x
  = List.length (filter (fun l => Bool.eqb (like_isLike l) true)
                        (filter (fun l => Z.eqb x (like_inventionId l))
                                (likes s))) /\
  tally_dislikes s x
  = List.length (filter (fun l => Bool.eqb (like_isLike l) false)
                        (filter (fun l => Z.eqb x (like_inventionId l))
                                (likes s))) /\
  tally_comments s x
  = List.length (filter (fun c => Z.eqb x (comment_inventionId c))
                        (comments s)) /\
  tally_files s x
  = List.length (filter (fun f => Z.eqb x (file_inventionId f)) (files s)).
Proof.
  unfold tally_likes, tally_dislikes, tally_comments, tally_files.
  rewrite !filter_andb.
  rewrite (filter_ext (fun l => Z.eqb (like_inventionId l) x)
                      (fun l => Z.eqb x (like_inventionId l)))
    by (intros; apply Z.eqb_sym).
  rewrite (filter_ext (fun c => Z.eqb (comment_inventionId c) x)
                      (fun c => Z.eqb x (comment_inventionId c)))
    by (intros; apply Z.eqb_sym).
  rewrite (filter_ext (fun f => Z.eqb (file_inventionId f) x)
                      (fun f => Z.eqb x (file_inventionId f)))
    by (intros; apply Z.eqb_sym).
  repeat split; f_equal; apply filter_ext; intros l;
    now destruct (like_isLike l).
Qed.

Lemma JoinDraft_answer_rows (array_in : string -> option (list string))
    (filters : option Filters) (s : Store) (l : list Listed) (r : Listed) :
  inventions_pkey s -> users_pkey s ->
  JoinDraft.getInventions array_in filters s = Resolved l -> In r l ->
  exists i, In i (inventions s) /\
            In r (JoinDraft.select_fields (joined_rows_of s i)).
Proof.
  intros Hipk Hupk Hl Hr.
  assert (Hgroup : exists m, In m (JoinDraft.from_joins s) /\
            In r (JoinDraft.select_fields
                    (filter (JoinDraft.in_group (JoinDraft.group_key m))
                            (JoinDraft.from_joins s)))).
  { destruct (JoinDraft_query array_in filters s l Hl) as [E|(p & E)];
      rewrite E in Hr; apply run_In in Hr; simpl in Hr;
      destruct Hr as (m & Hm & Hr).
    - now exists m.
    - apply filter_In in Hm. destruct Hm as [Hm Hp].
      rewrite (where_keeps_groups s p m Hipk Hm Hp) in Hr. now exists m. }
  destruct Hgroup as (m & Hm & Hsel).
  rewrite from_joins_rows in Hm. apply in_flat_map in Hm.
  destruct Hm as (i & Hi & Hm). exists i. split; [exact Hi|].
  now rewrite (group_is_rows_of s i m Hipk Hupk Hi Hm) in Hsel.
Qed.

(** X27. What the grouped-query draft counts, for every filter it resolves
    with, on a store where ids are primary keys: the comments and files of
    each returned invention are counted right, while its likes and its
    dislikes are the true numbers multiplied by the number of its comments
    (if any) and by the number of its files (if any); so all four counts are
    right for an invention with at most one comment and at most one file. *)
Theorem JoinDraft_counts_formula :
  forall (array_in : string -> option (list string))
         (filters : option Filters) (s : Store) (l : list Listed)
         (r : Listed),
    inventions_pkey s -> users_pkey s -> comments_pkey s -> files_pkey s ->
    JoinDraft.getInventions array_in filters s = Resolved l ->
    In r l ->
    let x := inv_id (invention r) in
    let fan := (Nat.max 1 (tally_comments s x)
                * Nat.max 1 (tally_files s x))%nat in
    In (invention r) (inventions s) /\
    count_comments (_count r) = tally_comments s x /\
    count_files (_count r) = tally_files s x /\
    count_likes (_count r) = (tally_likes s x * fan)%nat /\
    count_dislikes (_count r) = (tally_dislikes s x * fan)%nat /\
    ((tally_comments s x <= 1)%nat -> (tally_files s x <= 1)%nat ->
     _count r = tallies s x).
Proof.
  intros array_in filters s l r Hipk Hupk Hcpk Hfpk Hl Hr x fan.
  destruct (JoinDraft_answer_rows array_in filters s l r Hipk Hupk Hl Hr)
    as (i & Hi & Hsel).
  destruct (joined_rows_of s i) as [|m rest] eqn:Hrows; [destruct Hsel|].
  destruct Hsel as [<-|[]].
  assert (Hm : JoinDraft.j_inventions m = i).
  { assert (H : In m (joined_rows_of s i)) by (rewrite Hrows; now left).
    now apply joined_rows_of_In in H. }
  destruct (tallies_by_joined s (inv_id i)) as (Tl & Td & Tc & Tf).
  unfold fan, x. simpl. rewrite Hm, <- Hrows.
  rewrite (rows_count_comments s i Hcpk), (rows_count_files s i Hfpk),
          !(rows_count_isLike s i _ Hupk), <- Tl, <- Td, <- Tc, <- Tf.
  split; [exact Hi|]. do 4 (split; [reflexivity|]).
  intros Hc Hf. unfold tallies.
  replace (Nat.max 1 (tally_comments s (inv_id i))) with 1%nat by lia.
  replace (Nat.max 1 (tally_files s (inv_id i))) with 1%nat by lia.
  now rewrite !Nat.mul_1_r.
Qed.

Lemma JoinDraft_counts_formula_witness :
  let r := mkListed (sample_invention 1 ["AI/ML"; "IoT"] "pending" "u1" 10)
                    (Some (sample_user "u1")) (mkCounts 16 8 4 2) in
  inventions_pkey counted_store /\ users_pkey counted_store /\
  comments_pkey counted_store /\ files_pkey counted_store /\
  JoinDraft.getInventions reads_IoT None counted_store = Resolved [r] /\
  count_likes (_count r)
  = (tally_likes counted_store 1
     * (Nat.max 1 (tally_comments counted_store 1)
        * Nat.max 1 (tally_files counted_store 1)))%nat /\
  tally_likes counted_store 1 = 2%nat.
Proof.
  intros r.
  assert (Hi : inventions_pkey counted_store).
  { unfold inventions_pkey. simpl. repeat constructor. intros []. }
  assert (Hu : users_pkey counted_store).
  { unfold users_pkey. simpl.
    repeat constructor; simpl; intuition discriminate. }
  assert (Hc : comments_pkey counted_store).
  { unfold comments_pkey. simpl.
    repeat constructor; simpl; intuition discriminate. }
  assert (Hf : files_pkey counted_store).
  { unfold files_pkey. simpl.
    repeat constructor; simpl; intuition discriminate. }
  assert (Hl : JoinDraft.getInventions reads_IoT None counted_store
               = Resolved [r]) by reflexivity.
  destruct (JoinDraft_counts_formula reads_IoT None counted_store [r] r
              Hi Hu Hc Hf Hl (or_introl eq_refl))
    as (_ & _ & _ & Hlikes & _).
  repeat split; assumption || reflexivity.
Defined.

(** ** Reading a vote back *)

Lemma getUserLike_run (i : Z) (u : string) (s : Store) :
  getUserLike i u s = (Resolved (hd_error (pair_rows s i u)), s).
Proof. reflexivity. Qed.

Lemma vote_of_head (s : Store) (i : Z) (u : string) (v : Vote) :
  vote_of s i u = Some v -> like_state (hd_error (pair_rows s i u)) = v.
Proof.
  unfold vote_of. destruct (pair_rows s i u) as [|l [|l2 rest]]; simpl;
    intros H; try discriminate; now injection H.
Qed.

Lemma pair_rows_other_pair (like : NewLike) (now : Z) (s : Store)
    (i : Z) (u : string) :
  likes_pkey s ->
  (i, u) <> (nl_inventionId like, nl_userId like) ->
  pair_rows (snd (toggleLike like now s)) i u = pair_rows s i u.
Proof.
  intros Hpk Hne. unfold pair_rows.
  assert (Hq : forall x, same_pair i u x = true ->
               negb (same_pair (nl_inventionId like) (nl_userId like) x) = true).
  { intros x Hx. unfold same_pair in *.
    apply andb_true_iff in Hx. destruct Hx as [Hi Hu].
    apply Z.eqb_eq in Hi. apply String.eqb_eq in Hu.
    apply negb_true_iff, andb_false_iff.
    destruct (Z.eq_dec i (nl_inventionId like)) as [Ei|Ei].
    - right. apply String.eqb_neq. intros Eu. apply Hne. congruence.
    - left. apply Z.eqb_neq. congruence. }
  rewrite (filter_through _ (same_pair i u) (likes (snd _)) Hq),
          (filter_through _ (same_pair i u) (likes s) Hq).
  now rewrite (toggleLike_other_rows like now s Hpk).
Qed.

(** X28. getUserLike reads a vote back: for an existing invention and user
    and a pair in state no-vote, liked or disliked, getUserLike changes
    nothing and answers that state (no row, or a row with the [isLike] of the
    vote); after a toggleLike of the pair it answers the state the transition
    rule gives, and for every other pair it answers what it did before. *)
Theorem getUserLike_after_toggleLike :
  forall (s : Store) (i : Z) (u : string) (action : bool) (now : Z) (v : Vote),
    likes_pkey s -> likes_id_seq_ahead s ->
    has_invention i s = true -> has_user u s = true ->
    vote_of s i u = Some v ->
    let s' := snd (toggleLike (mkNewLike i action u) now s) in
    (exists o, getUserLike i u s = (Resolved o, s) /\ like_state o = v) /\
    (exists o, getUserLike i u s' = (Resolved o, s') /\
               like_state o = transition v action) /\
    (forall i2 u2, (i2, u2) <> (i, u) ->
       fst (getUserLike i2 u2 s') = fst (getUserLike i2 u2 s)).
Proof.
  intros s i u action now v Hpk Hseq Hi Hu Hv s'.
  split; [|split].
  - exists (hd_error (pair_rows s i u)).
    split; [apply getUserLike_run|now apply vote_of_head].
  - destruct (toggleLike_step s i u action now v Hseq Hi Hu Hv)
      as (s2 & Hrun & _ & Hv2).
    assert (Es : s' = s2) by (unfold s'; now rewrite Hrun).
    exists (hd_error (pair_rows s' i u)).
    split; [apply getUserLike_run|]. apply vote_of_head. now rewrite Es.
  - intros i2 u2 Hne. rewrite !getUserLike_run. simpl. unfold s'.
    now rewrite (pair_rows_other_pair (mkNewLike i action u) now s i2 u2 Hpk Hne).
Qed.

Lemma getUserLike_after_toggleLike_witness :
  likes_pkey counted_store /\ likes_id_seq_ahead counted_store /\
  has_invention 1 counted_store = true /\ has_user "u3" counted_store = true /\
  vote_of counted_store 1 "u3" = Some Disliked /\
  let s' := snd (toggleLike (mkNewLike 1 true "u3") 50%Z counted_store) in
  (exists o, getUserLike 1 "u3" counted_store = (Resolved o, counted_store) /\
             like_state o = Disliked) /\
  (exists o, getUserLike 1 "u3" s' = (Resolved o, s') /\ like_state o = Liked).
Proof.
  assert (Hpk : likes_pkey counted_store).
  { unfold likes_pkey. simpl. repeat constructor; simpl; intuition discriminate. }
  assert (Hseq : likes_id_seq_ahead counted_store).
  { intros l Hl. simpl in Hl. simpl.
    repeat (destruct Hl as [<-|Hl]; [simpl; lia|]). destruct Hl. }
  assert (Hi : has_invention 1 counted_store = true) by reflexivity.
  assert (Hu : has_user "u3" counted_store = true) by reflexivity.
  assert (Hv : vote_of counted_store 1 "u3" = Some Disliked) by reflexivity.
  destruct (getUserLike_after_toggleLike counted_store 1 "u3" true 50%Z
              Disliked Hpk Hseq Hi Hu Hv) as (H1 & H2 & _).
  repeat split; assumption.
Defined.
